(** * Directory synchronisation of the Nostr directory bot (bot.py)

    A shallow embedding of the parts of [bot.py] that render the profile
    directory into bounded Telegram messages and keep the pinned message of
    the group in step with the stored profiles, together with the properties
    the design document states about them.

    Conventions of the embedding:
    - a Python [str] is the list of its Unicode code points, so that
      [len] is [length]; literals are written as in the source and decoded
      from UTF-8;
    - a Python [int] is a [Z];
    - a value that may be [None] is an [option];
    - an [await]ed Telegram call is a function on an abstract world that
      returns a value or raises an exception. *)

From Stdlib Require Import String Ascii Decimal DecimalFacts DecimalPos.
From Stdlib Require Import List ZArith Lia Bool Permutation Sorted.
Close Scope string_scope.
Import ListNotations.
Open Scope Z_scope.

(** ** Python strings *)

Module PyStr.

(** A string is the sequence of its code points. *)
Definition str := list Z.

(** [len(s)], of a string or of a list *)
Definition len {A : Type} (s : list A) : Z := Z.of_nat (List.length s).

(** UTF-8 decoding of a source literal.  [need] counts the continuation
    bytes still expected for the code point accumulated in [acc]. *)
Fixpoint utf8_decode (bs : list Z) (need : nat) (acc : Z) : str :=
  match bs with
  | [] => []
  | b :: r =>
      match need with
      | O =>
          if b <? 128 then b :: utf8_decode r O 0
          else if b <? 224 then utf8_decode r 1%nat (Z.land b 31)
          else if b <? 240 then utf8_decode r 2%nat (Z.land b 15)
          else utf8_decode r 3%nat (Z.land b 7)
      | S O => (acc * 64 + Z.land b 63) :: utf8_decode r O 0
      | S k => utf8_decode r k (acc * 64 + Z.land b 63)
      end
  end.

Definition lit (s : string) : str :=
  utf8_decode (map (fun b => Z.of_N (Byte.to_N b)) (list_byte_of_string s)) O 0.

(** The escape [\n]. *)
Definition nl : str := [10].

(** [sep.join(parts)] *)
Fixpoint join (sep : str) (parts : list str) : str :=
  match parts with
  | [] => []
  | [p] => p
  | p :: rest => p ++ sep ++ join sep rest
  end.

(** [s[:n]] for [n >= 0] *)
Definition prefix (n : nat) (s : str) : str := firstn n s.

Fixpoint uint_digits (d : Decimal.uint) : str :=
  match d with
  | Decimal.Nil => []
  | Decimal.D0 r => 48 :: uint_digits r
  | Decimal.D1 r => 49 :: uint_digits r
  | Decimal.D2 r => 50 :: uint_digits r
  | Decimal.D3 r => 51 :: uint_digits r
  | Decimal.D4 r => 52 :: uint_digits r
  | Decimal.D5 r => 53 :: uint_digits r
  | Decimal.D6 r => 54 :: uint_digits r
  | Decimal.D7 r => 55 :: uint_digits r
  | Decimal.D8 r => 56 :: uint_digits r
  | Decimal.D9 r => 57 :: uint_digits r
  end.

(** [str(n)], also what [f"{n}"] and [format] produce for an [int]. *)
Definition str_int (n : Z) : str :=
  match Z.to_int n with
  | Decimal.Pos d => uint_digits d
  | Decimal.Neg d => 45 :: uint_digits d
  end.

(** A decimal digit, and a number zero-padded to two, four or six
    digits, as [strftime] and [isoformat] print the fields of a date. *)
Definition digit (n : Z) : Z := 48 + n mod 10.
Definition pad2 (n : Z) : str := [digit (n / 10); digit n].
Definition pad4 (n : Z) : str :=
  [digit (n / 1000); digit (n / 100); digit (n / 10); digit n].
Definition pad6 (n : Z) : str :=
  [digit (n / 100000); digit (n / 10000); digit (n / 1000);
   digit (n / 100); digit (n / 10); digit n].

(** [s.lower()].  The lower case of a code point is a string: Python
    lowers LATIN CAPITAL LETTER I WITH DOT ABOVE (U+0130) to [i] followed
    by COMBINING DOT ABOVE (U+0307), and KELVIN SIGN (U+212A) to [k].
    These two and the letters [A] to [Z] are the only code points that
    lowering changes into a string with an ASCII character in it.

    The function is [str.lower] on every string over ASCII and the four
    letters outside ASCII that the class [[a-z]] of a pattern matches
    under [re.IGNORECASE]: U+0130 and U+212A, lowered as said, and U+0131
    and U+017F, which are lower case.  Every token that [NPUB_REGEX] finds
    is such a string.  A cased letter outside this alphabet is kept as it
    is, where Python lowers it to letters outside ASCII; a test for an
    ASCII text in the lowered string, as the one on the text of a
    [BadRequest], gives what it gives in Python. *)
Definition lower_cp (c : Z) : str :=
  if (65 <=? c) && (c <=? 90) then [c + 32]
  else if c =? 304 then [105; 775]
  else if c =? 8490 then [107]
  else [c].
Definition lower (s : str) : str := flat_map lower_cp s.

Fixpoint eqb (a b : str) : bool :=
  match a, b with
  | [], [] => true
  | x :: a', y :: b' => (x =? y) && eqb a' b'
  | _, _ => false
  end.

(** [s.startswith(p)] *)
Fixpoint startswith (p s : str) : bool :=
  match p, s with
  | [], _ => true
  | x :: p', y :: s' => (x =? y) && startswith p' s'
  | _ :: _, [] => false
  end.

(** [p in s] *)
Fixpoint contains (p s : str) : bool :=
  startswith p s ||
  match s with
  | [] => false
  | _ :: s' => contains p s'
  end.

(** Lexicographic order on code points, the order in which SQLite's
    [ORDER BY] compares two TEXT values (byte order of UTF-8 agrees with
    code point order). *)
Fixpoint leb (a b : str) : bool :=
  match a, b with
  | [], _ => true
  | _ :: _, [] => false
  | x :: a', y :: b' => (x <? y) || ((x =? y) && leb a' b')
  end.

(** Truth value of an optional string: [None] and [""] are false. *)
Definition truthy (o : option str) : bool :=
  match o with
  | Some (_ :: _) => true
  | _ => false
  end.

Lemma len_app {A : Type} (a b : list A) : len (a ++ b) = len a + len b.
Proof. unfold len. rewrite length_app. lia. Qed.

Lemma len_nonneg {A : Type} (a : list A) : 0 <= len a.
Proof. unfold len. lia. Qed.

Lemma eqb_eq (a b : str) : eqb a b = true <-> a = b.
Proof.
  revert b. induction a as [|x a IH]; intros [|y b]; simpl;
    try (split; [discriminate | congruence]); try tauto.
  rewrite andb_true_iff, Z.eqb_eq, IH. split.
  - intros [-> ->]. reflexivity.
  - intros H. injection H as -> ->. auto.
Qed.

End PyStr.

Import PyStr.

(** ** Configuration constants *)

(** [MAX_MSG_LENGTH = 4000], a margin under Telegram's limit of 4096. *)
Definition MAX_MSG_LENGTH : Z := 4000.

(** [NJUMP_BASE = "https://njump.me/"] *)
Definition NJUMP_BASE : str := Eval vm_compute in lit "https://njump.me/".

(** ** The clock *)

(** A reading of [datetime.now(timezone.utc)]. *)
Record datetime := mk_datetime {
  year : Z; month : Z; day : Z;
  hour : Z; minute : Z; second : Z; microsecond : Z
}.

(** [d.strftime('%d/%m/%Y %H:%M')] *)
Definition strftime_dmY_HM (d : datetime) : str :=
  pad2 (day d) ++ [47] ++ pad2 (month d) ++ [47] ++ pad4 (year d)
  ++ [32] ++ pad2 (hour d) ++ [58] ++ pad2 (minute d).

(** [d.isoformat()] of an aware UTC time: the microseconds are printed
    only when they are not zero. *)
Definition isoformat (d : datetime) : str :=
  pad4 (year d) ++ [45] ++ pad2 (month d) ++ [45] ++ pad2 (day d) ++ [84]
  ++ pad2 (hour d) ++ [58] ++ pad2 (minute d) ++ [58] ++ pad2 (second d)
  ++ (if microsecond d =? 0 then [] else 46 :: pad6 (microsecond d))
  ++ lit "+00:00".

(** ** Profiles *)

(** A row of the table [profiles], as [dict(row)] hands it to the code. *)
Record profile := mk_profile {
  npub : str;
  telegram_user_id : Z;
  telegram_username : option str;
  telegram_name : option str;
  added_at : str;
  web_consent : Z;
  custom_name : option str
}.

Definition or_empty (o : option str) : str :=
  match o with Some s => s | None => [] end.

Definition ANONIMO : str := Eval vm_compute in lit "Anónimo".

(** [get_display_name]: custom_name > telegram_username > telegram_name >
    Anónimo. *)
Definition get_display_name (p : profile) : str :=
  if truthy (custom_name p) then or_empty (custom_name p)
  else if truthy (telegram_username p) then 64 :: or_empty (telegram_username p)
  else if truthy (telegram_name p) then or_empty (telegram_name p)
  else ANONIMO.

(** [get_display_name_clean]: the same without the [@]. *)
Definition get_display_name_clean (p : profile) : str :=
  if truthy (custom_name p) then or_empty (custom_name p)
  else if truthy (telegram_username p) then or_empty (telegram_username p)
  else if truthy (telegram_name p) then or_empty (telegram_name p)
  else ANONIMO.

(** ** Rendering the directory *)

Definition LINE_DOT : str := Eval vm_compute in lit ". ".
Definition LINE_ARROW : str := Eval vm_compute in lit " → <a href='".
Definition LINE_QUOTE : str := Eval vm_compute in lit "'>".
Definition LINE_DOTS : str := Eval vm_compute in lit "...".
Definition LINE_END : str := Eval vm_compute in lit "</a>".

(** [format_profile_line]:
    [f"{idx}. {display} → <a href='{NJUMP_BASE}{profile['npub']}'>{npub_short}</a>"] *)
Definition format_profile_line (idx : Z) (p : profile) : str :=
  let display := get_display_name p in
  let npub_short := prefix 16 (npub p) ++ LINE_DOTS in
  str_int idx ++ LINE_DOT ++ display ++ LINE_ARROW ++ NJUMP_BASE ++ npub p
  ++ LINE_QUOTE ++ npub_short ++ LINE_END.

Definition EMPTY_DIRECTORY : str := Eval vm_compute in
  lit "🟣 <b>Directorio Nostr del grupo</b>" ++ nl ++ nl
  ++ lit "<i>Aún no hay perfiles registrados.</i>" ++ nl
  ++ lit "Envía tu <code>npub1...</code> para aparecer aquí." ++ nl ++ nl
  ++ lit "📊 0 perfiles | Actualizado: ".

Definition UTC_SUFFIX : str := Eval vm_compute in lit " UTC".

Definition HEADER : str := Eval vm_compute in
  lit "🟣 <b>Directorio Nostr del grupo</b>" ++ nl ++ nl.

Definition HEADER_CONT : str := Eval vm_compute in
  lit "🟣 <b>Directorio Nostr (continuación)</b>" ++ nl ++ nl.

Definition CHAIN_NOTE : str := Eval vm_compute in
  nl ++ nl ++ lit "⬇️ <i>Continúa en el siguiente mensaje...</i>".

Definition FOOTER_COUNT : str := Eval vm_compute in nl ++ nl ++ lit "📊 ".
Definition FOOTER_UPDATED : str := Eval vm_compute in lit " perfiles | Actualizado: ".

(** [footer_template.format(count=count, date=date)] *)
Definition footer_template (count : Z) (date : str) : str :=
  FOOTER_COUNT ++ str_int count ++ FOOTER_UPDATED ++ date ++ UTC_SUFFIX.

(** The variables of the loop of [build_directory_messages_at]. *)
Record loop_state := mk_loop {
  messages : list str;
  current_lines : list str;
  current_length : Z;
  header : str
}.

(** One iteration of [for i, profile in enumerate(profiles, 1)]. *)
Definition loop_body (count : Z) (date_str : str)
    (st : loop_state) (i : Z) (p : profile) : loop_state :=
  let line := format_profile_line i p in
  let line_length := len line + 1 in
  let footer := footer_template count date_str in
  let chain_note := CHAIN_NOTE in
  let st1 :=
    if current_length st + line_length + len footer + len chain_note >? MAX_MSG_LENGTH
    then
      let msg := header st ++ join nl (current_lines st) ++ chain_note in
      {| messages := messages st ++ [msg];
         current_lines := [];
         current_length := len (header st);
         header := HEADER_CONT |}
    else st in
  {| messages := messages st1;
     current_lines := current_lines st1 ++ [line];
     current_length := current_length st1 + line_length;
     header := header st1 |}.

Fixpoint loop (count : Z) (date_str : str)
    (i : Z) (ps : list profile) (st : loop_state) : loop_state :=
  match ps with
  | [] => st
  | p :: rest => loop count date_str (i + 1) rest (loop_body count date_str st i p)
  end.

(** The body of [build_directory_messages(profiles, chat_id)], given the
    reading [now] of the clock that the function takes with
    [datetime.now(timezone.utc)]. *)
Definition build_directory_messages_at (now : datetime)
    (profiles : list profile) (chat_id : Z) : list str :=
  match profiles with
  | [] => [EMPTY_DIRECTORY ++ strftime_dmY_HM now ++ UTC_SUFFIX]
  | _ :: _ =>
      let date_str := strftime_dmY_HM now in
      let st := loop (len profiles) date_str 1 profiles
                  {| messages := []; current_lines := [];
                     current_length := len HEADER; header := HEADER |} in
      let footer := footer_template (len profiles) date_str in
      let msg := header st ++ join nl (current_lines st) ++ footer in
      messages st ++ [msg]
  end.


(** ** The database *)

(** A row of the table [pinned_messages]. *)
Record pinned_message := mk_pinned {
  pin_id : Z;
  pin_chat_id : Z;
  message_id : Z;
  profile_count : Z;
  is_current : Z;
  created_at : str
}.

Record database := mk_db {
  profiles : list profile;
  pinned_messages : list pinned_message
}.

(** The SQL statements the code issues, on tables kept in rowid order. *)
Module Sql.

(** Stable insertion used by [ORDER BY added_at ASC]. *)
Fixpoint insert_by_added_at (p : profile) (sorted : list profile) : list profile :=
  match sorted with
  | [] => [p]
  | q :: rest =>
      if PyStr.leb (added_at p) (added_at q) then p :: sorted
      else q :: insert_by_added_at p rest
  end.

(** [SELECT * FROM profiles ORDER BY added_at ASC] *)
Definition select_profiles_ordered (rows : list profile) : list profile :=
  fold_right insert_by_added_at [] rows.

(** [SELECT * FROM profiles WHERE telegram_user_id = ?], [fetchone()] *)
Definition select_profile_by_user (user_id : Z) (rows : list profile) : option profile :=
  find (fun p => telegram_user_id p =? user_id) rows.

Fixpoint distinct (keys : list str) : bool :=
  match keys with
  | [] => true
  | k :: rest => negb (existsb (PyStr.eqb k) rest) && distinct rest
  end.

Definition set_npub (new_npub : str) (p : profile) : profile :=
  {| npub := new_npub;
     telegram_user_id := telegram_user_id p;
     telegram_username := telegram_username p;
     telegram_name := telegram_name p;
     added_at := added_at p;
     web_consent := web_consent p;
     custom_name := custom_name p |}.

(** [UPDATE profiles SET npub = ? WHERE telegram_user_id = ?].  [npub] is
    the primary key: [None] stands for [sqlite3.IntegrityError], which
    leaves the table as it was. *)
Definition update_npub (new_npub : str) (user_id : Z) (rows : list profile)
  : option (list profile) :=
  let rows' := map (fun p => if telegram_user_id p =? user_id
                             then set_npub new_npub p else p) rows in
  if distinct (map npub rows') then Some rows' else None.

(** [INSERT INTO profiles (npub, telegram_user_id, telegram_username,
    telegram_name, added_at) VALUES (?, ?, ?, ?, ?)]; the other columns
    take their defaults.  [None] stands for [sqlite3.IntegrityError]. *)
Definition insert_profile (new_npub : str) (user_id : Z)
    (username : option str) (name : str) (now : str) (rows : list profile)
  : option (list profile) :=
  if existsb (PyStr.eqb new_npub) (map npub rows) then None
  else Some (rows ++ [{| npub := new_npub;
                         telegram_user_id := user_id;
                         telegram_username := username;
                         telegram_name := Some name;
                         added_at := now;
                         web_consent := 0;
                         custom_name := None |}]).

Definition set_not_current (r : pinned_message) : pinned_message :=
  {| pin_id := pin_id r;
     pin_chat_id := pin_chat_id r;
     message_id := message_id r;
     profile_count := profile_count r;
     is_current := 0;
     created_at := created_at r |}.

(** [UPDATE pinned_messages SET is_current = 0 WHERE chat_id = ?] *)
Definition supersede (chat_id : Z) (rows : list pinned_message) : list pinned_message :=
  map (fun r => if pin_chat_id r =? chat_id then set_not_current r else r) rows.

(** The next value of the AUTOINCREMENT key: above every key in use. *)
Definition next_id (rows : list pinned_message) : Z :=
  1 + fold_right (fun r m => Z.max (pin_id r) m) 0 rows.

(** [INSERT INTO pinned_messages (chat_id, message_id, profile_count,
    is_current, created_at) VALUES (?, ?, ?, 1, ?)] *)
Definition insert_pinned (chat_id msg_id count : Z) (now : str)
    (rows : list pinned_message) : list pinned_message :=
  rows ++ [{| pin_id := next_id rows;
              pin_chat_id := chat_id;
              message_id := msg_id;
              profile_count := count;
              is_current := 1;
              created_at := now |}].

(** [SELECT * FROM pinned_messages WHERE chat_id = ? AND is_current = 1],
    [fetchone()] *)
Definition select_current (chat_id : Z) (rows : list pinned_message) : option pinned_message :=
  find (fun r => (pin_chat_id r =? chat_id) && (is_current r =? 1)) rows.

End Sql.

(** The other statements on the table [profiles]. *)
Module Store.

Definition owned_by (uid : Z) (p : profile) : bool := telegram_user_id p =? uid.

Definition has_npub (key : str) (p : profile) : bool := PyStr.eqb (npub p) key.

(** [DELETE FROM profiles WHERE telegram_user_id = ?] *)
Definition delete_by_user (uid : Z) (rows : list profile) : list profile :=
  filter (fun p => negb (owned_by uid p)) rows.

(** [cursor.rowcount] after a statement with [WHERE telegram_user_id = ?] *)
Definition rowcount_by_user (uid : Z) (rows : list profile) : Z :=
  len (filter (owned_by uid) rows).

Definition set_consent (v : Z) (p : profile) : profile :=
  {| npub := npub p;
     telegram_user_id := telegram_user_id p;
     telegram_username := telegram_username p;
     telegram_name := telegram_name p;
     added_at := added_at p;
     web_consent := v;
     custom_name := custom_name p |}.

(** [UPDATE profiles SET web_consent = ? WHERE telegram_user_id = ?] *)
Definition update_consent (v : Z) (uid : Z) (rows : list profile) : list profile :=
  map (fun p => if owned_by uid p then set_consent v p else p) rows.

Definition set_custom (name : option str) (p : profile) : profile :=
  {| npub := npub p;
     telegram_user_id := telegram_user_id p;
     telegram_username := telegram_username p;
     telegram_name := telegram_name p;
     added_at := added_at p;
     web_consent := web_consent p;
     custom_name := name |}.

(** [UPDATE profiles SET custom_name = ? WHERE npub = ?] *)
Definition update_custom_name (name : option str) (key : str) (rows : list profile)
  : list profile :=
  map (fun p => if has_npub key p then set_custom name p else p) rows.

(** [cursor.rowcount] after a statement with [WHERE npub = ?] *)
Definition rowcount_by_npub (key : str) (rows : list profile) : Z :=
  len (filter (has_npub key) rows).

End Store.

(** ** The exported document *)

(** An element of the list ["profiles"] of the document. *)
Record web_entry := mk_web_entry {
  entry_npub : str;
  entry_display_name : str;
  entry_njump_url : str;
  entry_added_at : str
}.

(** The dictionary [data] that [export_web_json] hands to [json.dumps]. *)
Record web_document := mk_web_document {
  doc_updated_at : str;
  doc_total_profiles : Z;
  doc_profiles : list web_entry
}.

Definition web_entry_of (p : profile) : web_entry :=
  {| entry_npub := npub p;
     entry_display_name := get_display_name_clean p;
     entry_njump_url := NJUMP_BASE ++ npub p;
     entry_added_at := added_at p |}.

(** The notices the commands answer with [reply_text]. *)
Inductive notice :=
| NoticeOnlyAdmins                 (* "Solo los administradores pueden usar este comando." *)
| NoticeRenameUsage                (* "Uso: /renombrar ..." *)
| NoticeNotFound (search_term : str)       (* "No se encontró ningún perfil con: ..." *)
| NoticeNameReset (original : str)         (* "Nombre personalizado eliminado. Ahora muestra: ..." *)
| NoticeNameUpdated (new_name npub20 : str) (* "Nombre actualizado: ..." *)
| NoticeRemoved                    (* "Tu perfil ha sido eliminado del directorio." *)
| NoticeNoProfile                  (* "No tenías un perfil registrado." *)
| NoticeWebOn                      (* "Ahora apareces en nostrfacil.com/directorio" *)
| NoticeWebOff                     (* "Ya no apareces en la web pública. ..." *)
| NoticeRegisterFirst              (* "No tienes un perfil registrado. Envía tu npub1... primero." *)
| NoticeDirectoryUpdated.          (* "Directorio actualizado, pineado y subido a la web." *)

(** ** Exceptions and effects *)

(** The exceptions the modelled code can meet.  [TelegramError] stands for
    every error of the transport that is not a [BadRequest] (a timeout, a
    network failure). *)
Inductive exn :=
| BadRequest (message : str)
| IntegrityError
| IndexError
| TelegramError.

Inductive outcome (A : Type) :=
| Ok (a : A)
| Raise (e : exn).
Arguments Ok {A} a.
Arguments Raise {A} e.

(** The replies [handle_message] sends with [reply_text]. *)
Inductive reply :=
| ReplyAlreadyRegistered   (* "Ya estás en el directorio con ese npub." *)
| ReplyNpubUpdated         (* "Tu npub ha sido actualizado en el directorio." *)
| ReplyNpubTaken           (* "Ese npub ya está registrado por otro usuario." *)
| ReplyProfileAdded (new_npub : str). (* "¡Perfil añadido al directorio!" ... *)

(** The calls made on the transport, with what each returned. *)
Inductive call :=
| EditMessageText (chat_id msg_id : Z) (text : str) (result : outcome unit)
| SendMessage (chat_id : Z) (text : str) (message_thread_id : option Z) (result : outcome Z)
| PinChatMessage (chat_id msg_id : Z) (result : outcome unit)
| ReplyText (reply_to_message_id : Z) (r : reply) (result : outcome unit)
| SaveWebJson (web_profiles : list profile) (result : outcome unit).

Definition is_send (c : call) : bool :=
  match c with SendMessage _ _ _ _ => true | _ => false end.
Definition is_pin (c : call) : bool :=
  match c with PinChatMessage _ _ _ => true | _ => false end.

Definition count_sends (cs : list call) : nat := List.length (filter is_send cs).
Definition count_pins (cs : list call) : nat := List.length (filter is_pin cs).

(** ** A simulated chat

    A small chat on which the bot can be run on concrete inputs: messages
    are numbered in the order they are sent, and editing a message with the
    text it already has, or a message that is not there, is refused as
    Telegram refuses it. *)

Module Sim.

Record chat := mk_chat {
  time : datetime;
  next_message_id : Z;
  chat_messages : list (Z * str);
  pinned : option Z
}.

Definition NOT_MODIFIED_ERROR : str := Eval vm_compute in
  lit "Message is not modified: specified new message content and reply markup are exactly the same as a current content and reply markup of the message".

Definition NOT_FOUND_ERROR : str := Eval vm_compute in
  lit "Message to edit not found".

Definition NO_RIGHTS_ERROR : str := Eval vm_compute in
  lit "Not enough rights to manage pinned messages in the chat".

Fixpoint lookup (msg_id : Z) (msgs : list (Z * str)) : option str :=
  match msgs with
  | [] => None
  | (k, t) :: rest => if k =? msg_id then Some t else lookup msg_id rest
  end.

Fixpoint replace (msg_id : Z) (txt : str) (msgs : list (Z * str)) : list (Z * str) :=
  match msgs with
  | [] => []
  | (k, t) :: rest =>
      if k =? msg_id then (k, txt) :: rest else (k, t) :: replace msg_id txt rest
  end.

Definition edit (chat_id msg_id : Z) (txt : str) (w : chat) : outcome unit * chat :=
  match lookup msg_id (chat_messages w) with
  | None => (Raise (BadRequest NOT_FOUND_ERROR), w)
  | Some old =>
      if PyStr.eqb old txt then (Raise (BadRequest NOT_MODIFIED_ERROR), w)
      else (Ok tt, {| time := time w;
                      next_message_id := next_message_id w;
                      chat_messages := replace msg_id txt (chat_messages w);
                      pinned := pinned w |})
  end.

Definition send (chat_id : Z) (txt : str) (thread : option Z) (w : chat)
  : outcome Z * chat :=
  (Ok (next_message_id w),
   {| time := time w;
      next_message_id := next_message_id w + 1;
      chat_messages := chat_messages w ++ [(next_message_id w, txt)];
      pinned := pinned w |}).

(** Pinning in a chat where the bot is an administrator. *)
Definition pin (chat_id msg_id : Z) (w : chat) : outcome unit * chat :=
  (Ok tt, {| time := time w;
             next_message_id := next_message_id w;
             chat_messages := chat_messages w;
             pinned := Some msg_id |}).

(** Pinning in a chat where the bot may not pin. *)
Definition pin_refused (chat_id msg_id : Z) (w : chat) : outcome unit * chat :=
  (Raise (BadRequest NO_RIGHTS_ERROR), w).

Definition reply (reply_to : Z) (r : reply) (w : chat) : outcome unit * chat := (Ok tt, w).

Definition sink (web : list profile) (w : chat) : outcome unit * chat := (Ok tt, w).

(** A message that is a token and nothing else. *)
Definition findall (txt : str) : list str :=
  if startswith (lit "npub1") (lower txt) && (len txt =? 63) then [txt] else [].

End Sim.

(** ** The bot *)

(** A user and an incoming update, as far as [handle_message] reads them. *)
Record user := mk_user {
  user_id : Z;
  username : option str;
  first_name : str;
  last_name : option str
}.

Record message := mk_message {
  msg_message_id : Z;
  msg_chat_id : Z;
  message_thread_id : option Z;
  text : option str;
  from_user : user
}.

Record update := mk_update { upd_message : option message }.

Section Bot.

(** The world outside the program: the Telegram chat, the clock, the
    published document. *)
Variable World : Type.

(** [datetime.now(timezone.utc)] *)
Variable clock : World -> datetime.

(** [context.bot.edit_message_text], [send_message] (which returns the
    sent message, of which only [message_id] is read) and
    [pin_chat_message]. *)
Variable bot_edit_message_text : Z -> Z -> str -> World -> outcome unit * World.
Variable bot_send_message : Z -> str -> option Z -> World -> outcome Z * World.
Variable bot_pin_chat_message : Z -> Z -> World -> outcome unit * World.

(** [update.message.reply_text] *)
Variable bot_reply_text : Z -> reply -> World -> outcome unit * World.

(** What [save_web_json] does with the consented profiles: serialise,
    write to disk, push to GitHub. *)
Variable sink_save_web_json : list profile -> World -> outcome unit * World.

(** [NPUB_REGEX.findall] *)
Variable npub_findall : str -> list str.

(** Read from the environment when the module is loaded. *)
Variable ALLOWED_CHAT_ID : Z.
Variable ALLOWED_THREAD_ID : Z.

Record state := mk_state {
  world : World;
  db : database;
  calls : list call
}.

(** Computations that read and change the state and may raise. *)
Definition M (A : Type) : Type := state -> outcome A * state.

Definition ret {A} (a : A) : M A := fun st => (Ok a, st).

Definition bind {A B} (m : M A) (k : A -> M B) : M B :=
  fun st =>
    match m st with
    | (Ok a, st') => k a st'
    | (Raise e, st') => (Raise e, st')
    end.

Definition raise {A} (e : exn) : M A := fun st => (Raise e, st).

(** [try: body  except BadRequest as e: handler(str(e))] *)
Definition try_except_BadRequest {A} (body : M A) (handler : str -> M A) : M A :=
  fun st =>
    match body st with
    | (Raise (BadRequest msg), st') => handler msg st'
    | r => r
    end.

Notation "x <- m ;; k" := (bind m (fun x => k))
  (at level 61, m at next level, right associativity).
Notation "m ;;; k" := (bind m (fun _ => k))
  (at level 61, right associativity).

Definition transport {A} (f : World -> outcome A * World)
    (record : outcome A -> call) : M A :=
  fun st =>
    let (r, w) := f (world st) in
    (r, {| world := w; db := db st; calls := calls st ++ [record r] |}).

Definition edit_message_text (chat_id msg_id : Z) (txt : str) : M unit :=
  transport (bot_edit_message_text chat_id msg_id txt)
            (EditMessageText chat_id msg_id txt).

Definition send_message (chat_id : Z) (txt : str) (thread : option Z) : M Z :=
  transport (bot_send_message chat_id txt thread) (SendMessage chat_id txt thread).

Definition pin_chat_message (chat_id msg_id : Z) : M unit :=
  transport (bot_pin_chat_message chat_id msg_id) (PinChatMessage chat_id msg_id).

Definition reply_text (reply_to : Z) (r : reply) : M unit :=
  transport (bot_reply_text reply_to r) (ReplyText reply_to r).

Definition now : M datetime := fun st => (Ok (clock (world st)), st).

Definition get_profiles : M (list profile) := fun st => (Ok (profiles (db st)), st).
Definition get_pinned : M (list pinned_message) :=
  fun st => (Ok (pinned_messages (db st)), st).

Definition put_profiles (rows : list profile) : M unit :=
  fun st => (Ok tt, {| world := world st;
                       db := {| profiles := rows;
                                pinned_messages := pinned_messages (db st) |};
                       calls := calls st |}).

Definition put_pinned (rows : list pinned_message) : M unit :=
  fun st => (Ok tt, {| world := world st;
                       db := {| profiles := profiles (db st);
                                pinned_messages := rows |};
                       calls := calls st |}).

(** [add_profile]: [True] if the profile is new, [False] if the npub was
    there already. *)
Definition add_profile (new_npub : str) (uid : Z) (uname : option str) (name : str)
  : M bool :=
  rows <- get_profiles ;;
  t <- now ;;
  match Sql.insert_profile new_npub uid uname name (isoformat t) rows with
  | Some rows' => put_profiles rows' ;;; ret true
  | None => ret false
  end.

Definition get_all_profiles : M (list profile) :=
  rows <- get_profiles ;; ret (Sql.select_profiles_ordered rows).

Definition get_web_profiles : M (list profile) :=
  rows <- get_profiles ;;
  ret (Sql.select_profiles_ordered (filter (fun p => web_consent p =? 1) rows)).

Definition get_profile_by_user (uid : Z) : M (option profile) :=
  rows <- get_profiles ;; ret (Sql.select_profile_by_user uid rows).

(** [save_pinned_message] *)
Definition save_pinned_message (chat_id msg_id count : Z) : M unit :=
  rows <- get_pinned ;;
  let rows1 := Sql.supersede chat_id rows in
  t <- now ;;
  put_pinned (Sql.insert_pinned chat_id msg_id count (isoformat t) rows1).

Definition get_current_pinned (chat_id : Z) : M (option pinned_message) :=
  rows <- get_pinned ;; ret (Sql.select_current chat_id rows).

(** [{"message_thread_id": ALLOWED_THREAD_ID} if ALLOWED_THREAD_ID else {}] *)
Definition thread_kwargs : option Z :=
  if ALLOWED_THREAD_ID =? 0 then None else Some ALLOWED_THREAD_ID.

Definition NOT_MODIFIED : str := Eval vm_compute in lit "message is not modified".

Definition is_some {A} (o : option A) : bool :=
  match o with Some _ => true | None => false end.

(** Lines 315-329: the single message is edited in place.  The result
    says whether the function has returned. *)
Definition edit_in_place (chat_id : Z) (messages_text : list str)
    (current_pinned : option pinned_message) : M bool :=
  match current_pinned with
  | Some cp =>
      if len messages_text =? 1 then
        try_except_BadRequest
          (edit_message_text chat_id (message_id cp) (nth 0 messages_text []) ;;;
           ret true)
          (fun e => if contains NOT_MODIFIED (lower e) then ret true else ret false)
      else ret false
  | None => ret false
  end.

(** Lines 331-341: with several messages the first is edited, a
    [BadRequest] is ignored. *)
Definition edit_first (chat_id : Z) (messages_text : list str)
    (current_pinned : option pinned_message) : M unit :=
  match current_pinned with
  | Some cp =>
      if len messages_text >? 1 then
        try_except_BadRequest
          (edit_message_text chat_id (message_id cp) (nth 0 messages_text []))
          (fun _ => ret tt)
      else ret tt
  | None => ret tt
  end.

(** Lines 345-355: [for i, text in enumerate(messages_text)]. *)
Fixpoint send_loop (chat_id : Z) (current_pinned : option pinned_message)
    (i : Z) (texts : list str) (last_msg : option Z) : M (option Z) :=
  match texts with
  | [] => ret last_msg
  | txt :: rest =>
      if (i =? 0) && is_some current_pinned
      then send_loop chat_id current_pinned (i + 1) rest last_msg
      else
        sent <- send_message chat_id txt thread_kwargs ;;
        send_loop chat_id current_pinned (i + 1) rest (Some sent)
  end.

(** [pin_chat_message] then [save_pinned_message], inside
    [try ... except BadRequest], which only logs. *)
Definition pin_and_save (chat_id msg_id count : Z) : M unit :=
  try_except_BadRequest
    (pin_chat_message chat_id msg_id ;;;
     save_pinned_message chat_id msg_id count)
    (fun _ => ret tt).

(** Lines 315-386 of [update_pinned_directory]: what is done with the
    rendered messages and the current row of the ledger. *)
Definition reconcile (chat_id : Z) (n_profiles : Z) (messages_text : list str)
    (current_pinned : option pinned_message) : M unit :=
  returned <- edit_in_place chat_id messages_text current_pinned ;;
  if returned then ret tt else
  edit_first chat_id messages_text current_pinned ;;;
  last_msg <- send_loop chat_id current_pinned 0 messages_text None ;;
  match last_msg with
  | Some last_id => pin_and_save chat_id last_id n_profiles
  | None =>
      if is_some current_pinned then ret tt
      else
        match messages_text with
        | [] => raise IndexError
        | first :: _ =>
            sent <- send_message chat_id first thread_kwargs ;;
            pin_and_save chat_id sent n_profiles
        end
  end.

(** [build_directory_messages(profiles, chat_id)]: the clock is read
    inside the function. *)
Definition build_directory_messages (profs : list profile) (chat_id : Z)
  : M (list str) :=
  t <- now ;; ret (build_directory_messages_at t profs chat_id).

(** [update_pinned_directory(context, chat_id)] *)
Definition update_pinned_directory (chat_id : Z) : M unit :=
  profs <- get_all_profiles ;;
  messages_text <- build_directory_messages profs chat_id ;;
  current_pinned <- get_current_pinned chat_id ;;
  reconcile chat_id (len profs) messages_text current_pinned.

(** [save_web_json] *)
Definition save_web_json : M unit :=
  web <- get_web_profiles ;;
  transport (sink_save_web_json web) (SaveWebJson web).

(** [matches[0].lower()] and the name built from [first_name] and
    [last_name]. *)
Definition full_name (u : user) : str :=
  first_name u ++
  (if truthy (last_name u) then 32 :: or_empty (last_name u) else []).

(** [handle_message(update, context)] *)
Definition handle_message (upd : update) : M unit :=
  match upd_message upd with
  | None => ret tt
  | Some msg =>
      if negb (truthy (text msg)) then ret tt else
      let chat_id := msg_chat_id msg in
      if negb (ALLOWED_CHAT_ID =? 0) && negb (chat_id =? ALLOWED_CHAT_ID) then ret tt else
      if negb (ALLOWED_THREAD_ID =? 0)
         && negb (match message_thread_id msg with
                  | Some t => t =? ALLOWED_THREAD_ID
                  | None => false
                  end)
      then ret tt else
      let usr := from_user msg in
      match npub_findall (or_empty (text msg)) with
      | [] => ret tt
      | m0 :: _ =>
          let new_npub := lower m0 in
          let user_name := full_name usr in
          existing <- get_profile_by_user (user_id usr) ;;
          match existing with
          | Some ex =>
              if PyStr.eqb (npub ex) new_npub then
                reply_text (msg_message_id msg) ReplyAlreadyRegistered
              else
                rows <- get_profiles ;;
                match Sql.update_npub new_npub (user_id usr) rows with
                | None => raise IntegrityError
                | Some rows' =>
                    put_profiles rows' ;;;
                    reply_text (msg_message_id msg) ReplyNpubUpdated ;;;
                    update_pinned_directory chat_id ;;;
                    save_web_json
                end
          | None =>
              added <- add_profile new_npub (user_id usr) (username usr) user_name ;;
              if negb added then
                reply_text (msg_message_id msg) ReplyNpubTaken
              else
                reply_text (msg_message_id msg) (ReplyProfileAdded new_npub) ;;;
                update_pinned_directory chat_id ;;;
                save_web_json
          end
      end
  end.



(** ** The other data functions *)

(** [remove_profile]: [True] if the user had a profile. *)
Definition remove_profile (uid : Z) : M bool :=
  rows <- get_profiles ;;
  put_profiles (Store.delete_by_user uid rows) ;;;
  ret (Store.rowcount_by_user uid rows >? 0).

(** [set_web_consent] *)
Definition set_web_consent (uid : Z) (consent : bool) : M bool :=
  rows <- get_profiles ;;
  put_profiles (Store.update_consent (if consent then 1 else 0) uid rows) ;;;
  ret (Store.rowcount_by_user uid rows >? 0).

(** [set_custom_name_by_npub] *)
Definition set_custom_name_by_npub (key : str) (name : option str) : M bool :=
  rows <- get_profiles ;;
  put_profiles (Store.update_custom_name name key rows) ;;;
  ret (Store.rowcount_by_npub key rows >? 0).

(** [get_profile_count] *)
Definition get_profile_count : M Z :=
  rows <- get_profiles ;; ret (len rows).

(** [export_web_json], up to the serialisation: the dictionary [data]. *)
Definition export_web_json_data : M web_document :=
  profs <- get_web_profiles ;;
  t <- now ;;
  ret {| doc_updated_at := isoformat t;
         doc_total_profiles := len profs;
         doc_profiles := map web_entry_of profs |}.

(** * Properties *)

(** ** Display names *)

(** C8. The display name follows the precedence custom_name >
    @telegram_username > telegram_name > the placeholder "Anónimo", where a
    field counts as present when it is neither NULL nor the empty string:
    a present custom name is shown whatever the other two fields hold;
    without it a present username is shown with an [@] in front; without
    both, the Telegram name; and the placeholder when all three are
    absent. *)
Theorem get_display_name_precedence (p : profile) :
  (truthy (custom_name p) = true ->
   get_display_name p = or_empty (custom_name p)) /\
  (truthy (custom_name p) = false -> truthy (telegram_username p) = true ->
   get_display_name p = lit "@" ++ or_empty (telegram_username p)) /\
  (truthy (custom_name p) = false -> truthy (telegram_username p) = false ->
   truthy (telegram_name p) = true ->
   get_display_name p = or_empty (telegram_name p)) /\
  (truthy (custom_name p) = false -> truthy (telegram_username p) = false ->
   truthy (telegram_name p) = false ->
   get_display_name p = lit "Anónimo").
Proof.
  unfold get_display_name.
  repeat split; intros; repeat match goal with H : truthy _ = _ |- _ => rewrite H; clear H end;
    reflexivity.
Qed.

(** A token: [npub1] and 58 more characters. *)
Definition sample_npub : str := Eval vm_compute in
  lit "npub1" ++ repeat 113 58.

Definition sample_time : datetime := mk_datetime 2024 3 9 7 5 1 0.

Definition named_profile : profile :=
  mk_profile sample_npub 7 (Some (lit "satoshi")) (Some (lit "Satoshi N")) (lit "2024-03-09T07:05:01+00:00") 0
             (Some (lit "El Jefe")).

Lemma get_display_name_precedence_witness :
  get_display_name named_profile = lit "El Jefe" /\
  get_display_name (mk_profile sample_npub 7 (Some (lit "satoshi")) (Some (lit "Satoshi N")) [] 0 None)
    = lit "@satoshi" /\
  get_display_name (mk_profile sample_npub 7 None (Some (lit "Satoshi N")) [] 0 (Some []))
    = lit "Satoshi N" /\
  get_display_name (mk_profile sample_npub 7 (Some []) (Some []) [] 0 None)
    = lit "Anónimo".
Proof.
  split; [| split; [| split]].
  - apply (proj1 (get_display_name_precedence named_profile)). reflexivity.
  - apply (proj1 (proj2 (get_display_name_precedence
             (mk_profile sample_npub 7 (Some (lit "satoshi")) (Some (lit "Satoshi N")) [] 0 None))));
      reflexivity.
  - apply (proj1 (proj2 (proj2 (get_display_name_precedence
             (mk_profile sample_npub 7 None (Some (lit "Satoshi N")) [] 0 (Some []))))));
      reflexivity.
  - apply (proj2 (proj2 (proj2 (get_display_name_precedence
             (mk_profile sample_npub 7 (Some []) (Some []) [] 0 None)))));
      reflexivity.
Defined.

(** ** The lines of the directory *)

(** The lines of the profiles [ps], numbered from [i]. *)
Fixpoint number_from (i : Z) (ps : list profile) : list str :=
  match ps with
  | [] => []
  | p :: rest => format_profile_line i p :: number_from (i + 1) rest
  end.

(** The header of the [k]-th message. *)
Definition chunk_header (k : nat) : str :=
  match k with O => HEADER | S _ => HEADER_CONT end.

(** Messages that are followed by another one. *)
Fixpoint render_sealed (k : nat) (groups : list (list str)) : list str :=
  match groups with
  | [] => []
  | g :: rest => (chunk_header k ++ join nl g ++ CHAIN_NOTE) :: render_sealed (S k) rest
  end.

(** The messages made of the groups of lines [groups], the last of which
    carries the footer. *)
Fixpoint render_groups (footer : str) (k : nat) (groups : list (list str)) : list str :=
  match groups with
  | [] => []
  | [g] => [chunk_header k ++ join nl g ++ footer]
  | g :: rest => (chunk_header k ++ join nl g ++ CHAIN_NOTE) :: render_groups footer (S k) rest
  end.

Lemma render_groups_snoc footer groups : forall k g,
  render_groups footer k (groups ++ [g]) =
  render_sealed k groups ++ [chunk_header (k + List.length groups) ++ join nl g ++ footer].
Proof.
  induction groups as [|g0 groups IH]; intros k g.
  - simpl. rewrite Nat.add_0_r. reflexivity.
  - change ((g0 :: groups) ++ [g]) with (g0 :: (groups ++ [g])).
    destruct (groups ++ [g]) as [|g1 more] eqn:E.
    + destruct groups; discriminate.
    + change (render_groups footer k (g0 :: g1 :: more))
        with ((chunk_header k ++ join nl g0 ++ CHAIN_NOTE)
              :: render_groups footer (S k) (g1 :: more)).
      rewrite <- E, IH. cbn [render_sealed app List.length].
      rewrite Nat.add_succ_r. reflexivity.
Qed.

Lemma render_sealed_snoc groups : forall k g,
  render_sealed k (groups ++ [g]) =
  render_sealed k groups ++ [chunk_header (k + List.length groups) ++ join nl g ++ CHAIN_NOTE].
Proof.
  induction groups as [|g0 groups IH]; intros k g; simpl.
  - rewrite Nat.add_0_r. reflexivity.
  - rewrite IH, Nat.add_succ_r. reflexivity.
Qed.

(** What the loop keeps true: the messages sealed so far and the lines
    collected for the next one are the lines of the profiles seen so far. *)
Definition grouped (st : loop_state) (groups : list (list str)) (done : list str) : Prop :=
  messages st = render_sealed 0 groups /\
  header st = chunk_header (List.length groups) /\
  concat groups ++ current_lines st = done.

Lemma loop_body_grouped count date st groups done i p :
  grouped st groups done ->
  exists groups',
    grouped (loop_body count date st i p) groups' (done ++ [format_profile_line i p]).
Proof.
  intros (Hm & Hh & Hd). unfold loop_body.
  destruct (_ >? MAX_MSG_LENGTH).
  - exists (groups ++ [current_lines st]). unfold grouped. cbn [messages header current_lines].
    repeat split.
    + rewrite render_sealed_snoc, Hm, Hh. reflexivity.
    + rewrite length_app, Nat.add_comm. reflexivity.
    + rewrite concat_app. cbn [concat]. rewrite app_nil_r, Hd. reflexivity.
  - exists groups. unfold grouped. cbn [messages header current_lines].
    repeat split; auto. rewrite app_assoc, Hd. reflexivity.
Qed.

Lemma loop_grouped count date ps : forall i st groups done,
  grouped st groups done ->
  exists groups',
    grouped (loop count date i ps st) groups' (done ++ number_from i ps).
Proof.
  induction ps as [|p ps IH]; intros i st groups done H.
  - exists groups. simpl. rewrite app_nil_r. exact H.
  - cbn [loop number_from].
    destruct (loop_body_grouped count date st groups done i p H) as (g1 & H1).
    destruct (IH (i + 1) _ _ _ H1) as (g2 & H2).
    exists g2. rewrite <- app_assoc in H2. exact H2.
Qed.

(** The groups of lines behind the messages of a non-empty directory. *)
Lemma build_directory_messages_at_lines (t : datetime) (p : profile)
    (ps : list profile) (chat_id : Z) :
  exists groups : list (list str),
    concat groups = number_from 1 (p :: ps) /\
    build_directory_messages_at t (p :: ps) chat_id =
      render_groups (footer_template (len (p :: ps)) (strftime_dmY_HM t)) 0 groups.
Proof.
  unfold build_directory_messages_at.
  set (st0 := {| messages := []; current_lines := []; current_length := len HEADER;
                 header := HEADER |}).
  assert (H0 : grouped st0 [] []) by (repeat split).
  destruct (loop_grouped (len (p :: ps)) (strftime_dmY_HM t) (p :: ps) 1 st0 [] [] H0)
    as (groups & Hm & Hh & Hd).
  exists (groups ++ [current_lines (loop (len (p :: ps)) (strftime_dmY_HM t) 1 (p :: ps) st0)]).
  split.
  - rewrite concat_app. cbn [concat]. rewrite app_nil_r. exact Hd.
  - rewrite render_groups_snoc, Hm, Hh. reflexivity.
Qed.

(** The number that a string of decimal digits writes; [None] when a
    code point of the string is no digit. *)
Fixpoint digits_value_from (acc : Z) (s : str) : option Z :=
  match s with
  | [] => Some acc
  | c :: r =>
      if (48 <=? c) && (c <=? 57) then digits_value_from (10 * acc + (c - 48)) r
      else None
  end.

Definition digits_value (s : str) : option Z := digits_value_from 0 s.

Lemma digits_value_from_acc d : forall acc,
  digits_value_from (Z.pos acc) (uint_digits d) = Some (Z.pos (Pos.of_uint_acc d acc)).
Proof.
  induction d; intros acc; cbn [uint_digits digits_value_from Pos.of_uint_acc];
    [reflexivity | ..];
    cbn [Z.leb Z.compare Pos.compare Pos.compare_cont andb];
    match goal with
    | |- digits_value_from ?a _ = Some (Z.pos (Pos.of_uint_acc _ ?b)) =>
        replace a with (Z.pos b) by lia
    end; apply IHd.
Qed.

Lemma digits_value_uint d :
  digits_value_from 0 (uint_digits d) = Some (Z.of_N (Pos.of_uint d)).
Proof.
  induction d; cbn [uint_digits digits_value_from Pos.of_uint];
    [reflexivity | ..];
    cbn [Z.leb Z.compare Pos.compare Pos.compare_cont andb];
    [exact IHd | ..];
    cbn [Z.of_N];
    match goal with
    | |- digits_value_from ?a _ = Some (Z.pos (Pos.of_uint_acc _ ?b)) =>
        change a with (Z.pos b)
    end; apply digits_value_from_acc.
Qed.

(** [str(n)] of a positive number writes that number. *)
Lemma digits_value_str_int n : 0 < n -> digits_value (str_int n) = Some n.
Proof.
  intros H. destruct n as [|p|p]; try lia.
  unfold digits_value, str_int. cbn [Z.to_int].
  rewrite digits_value_uint, DecimalPos.Unsigned.of_to. reflexivity.
Qed.

(** [str(n)] of a positive number does not begin with the digit 0. *)
Lemma str_int_leading n : 0 < n -> hd_error (str_int n) <> Some 48.
Proof.
  intros H. destruct n as [|p|p]; try lia.
  unfold str_int. cbn [Z.to_int].
  pose proof (DecimalPos.Unsigned.to_of (Pos.to_uint p)) as Hn.
  pose proof (DecimalPos.Unsigned.of_to p) as Hp.
  rewrite Hp in Hn. cbn [N.to_uint] in Hn.
  destruct (Pos.to_uint p) as [|r|r|r|r|r|r|r|r|r|r]; cbn [uint_digits hd_error];
    try discriminate.
  intros _. rewrite DecimalFacts.unorm_D0 in Hn.
  destruct r as [|r|r|r|r|r|r|r|r|r|r]; [discriminate Hp | ..];
    match type of Hn with
    | _ = Decimal.unorm ?d =>
        pose proof (DecimalFacts.nb_digits_unorm d ltac:(discriminate)) as Hd
    end;
    rewrite <- Hn in Hd; cbn [Decimal.nb_digits] in Hd; lia.
Qed.

Lemma number_from_length ps : forall i, List.length (number_from i ps) = List.length ps.
Proof. induction ps as [|p ps IH]; intros i; simpl; [reflexivity | rewrite IH; reflexivity]. Qed.

Lemma number_from_nth ps : forall i k q,
  nth_error ps k = Some q ->
  nth_error (number_from i ps) k = Some (format_profile_line (i + Z.of_nat k) q).
Proof.
  induction ps as [|p ps IH]; intros i k q H; destruct k as [|k]; try discriminate.
  - injection H as <-. cbn [number_from nth_error Z.of_nat]. rewrite Z.add_0_r. reflexivity.
  - cbn [number_from nth_error] in *. rewrite (IH (i + 1) k q H).
    f_equal. f_equal. lia.
Qed.

(** The form of a line: index, display name, and the shortened token
    linked to the viewer. *)
Lemma format_profile_line_form i p :
  format_profile_line i p =
  str_int i ++ lit ". " ++ get_display_name p ++ lit " → "
  ++ lit "<a href='" ++ lit "https://njump.me/" ++ npub p ++ lit "'>"
  ++ prefix 16 (npub p) ++ lit "..." ++ lit "</a>".
Proof.
  unfold format_profile_line.
  change LINE_ARROW with (lit " → " ++ lit "<a href='").
  rewrite <- !app_assoc. reflexivity.
Qed.

(** C6. For a non-empty list of profiles the messages are made of groups
    of lines: each message is its header, its lines joined by newlines, and
    the continuation note or, for the last one, the footer.  The lines of
    all groups in order are as many as the profiles, and the line at
    position [k] (from 0) is the line of the profile at position [k] of the
    input: the decimal digits of [k + 1] without a leading 0, a dot and a space, the display
    name of the profile, the arrow, and the link to the viewer under the
    first 16 characters of the token.  The numbering runs from 1 through
    the whole list, whatever the groups are. *)
Theorem build_directory_messages_lines (p : profile) (ps : list profile)
    (chat_id : Z) (st : state) :
  exists groups : list (list str),
    build_directory_messages (p :: ps) chat_id st =
      (Ok (render_groups
             (footer_template (len (p :: ps)) (strftime_dmY_HM (clock (world st))))
             0 groups),
       st) /\
    List.length (concat groups) = List.length (p :: ps) /\
    forall (k : nat) (q : profile),
      nth_error (p :: ps) k = Some q ->
      exists index : str,
        digits_value index = Some (Z.of_nat k + 1) /\
        hd_error index <> Some 48 /\
        nth_error (concat groups) k =
          Some (index ++ lit ". " ++ get_display_name q ++ lit " → "
                ++ lit "<a href='" ++ lit "https://njump.me/" ++ npub q ++ lit "'>"
                ++ prefix 16 (npub q) ++ lit "..." ++ lit "</a>").
Proof.
  destruct (build_directory_messages_at_lines (clock (world st)) p ps chat_id)
    as (groups & Hlines & Hmsgs).
  exists groups. split; [|split].
  - unfold build_directory_messages, bind, now, ret. rewrite Hmsgs. reflexivity.
  - rewrite Hlines. apply number_from_length.
  - intros k q Hq. exists (str_int (Z.of_nat k + 1)). split.
    + apply digits_value_str_int. lia.
    + split; [apply str_int_leading; lia|].
      rewrite Hlines, (number_from_nth _ 1 k q Hq), format_profile_line_form.
      f_equal. f_equal. f_equal. lia.
Qed.

(** ** The size of the messages *)

(** The lengths the loop adds up: every line counts with its newline. *)
Fixpoint lines_length (ls : list str) : Z :=
  match ls with
  | [] => 0
  | l :: rest => (len l + 1) + lines_length rest
  end.

Lemma lines_length_app a b : lines_length (a ++ b) = lines_length a + lines_length b.
Proof. induction a as [|x a IH]; simpl; lia. Qed.

Lemma lines_length_nonneg ls : 0 <= lines_length ls.
Proof.
  induction ls as [|l ls IH]; simpl; [lia|]. pose proof (len_nonneg l). lia.
Qed.

Lemma len_join_nl ls : ls <> [] -> len (join nl ls) = lines_length ls - 1.
Proof.
  induction ls as [|l ls IH]; intros H; [contradiction|].
  destruct ls as [|l' ls].
  - simpl. lia.
  - change (join nl (l :: l' :: ls)) with (l ++ nl ++ join nl (l' :: ls)).
    rewrite !len_app, IH by discriminate.
    change (len nl) with 1. cbn [lines_length]. lia.
Qed.

Lemma len_footer_lower count date : 33 <= len (footer_template count date).
Proof.
  unfold footer_template. rewrite !len_app.
  pose proof (len_nonneg (str_int count)). pose proof (len_nonneg date).
  change (len FOOTER_COUNT) with 4. change (len FOOTER_UPDATED) with 25.
  change (len UTC_SUFFIX) with 4. lia.
Qed.

(** A line fits when a message that holds nothing else passes the test of
    the loop. *)
Definition line_fits (count : Z) (date : str) (line : str) : Prop :=
  len HEADER_CONT + (len line + 1) + len (footer_template count date) + len CHAIN_NOTE
  <= MAX_MSG_LENGTH.

Definition bounded (msg : str) : Prop := len msg <= MAX_MSG_LENGTH.

(** What the loop keeps true about lengths. *)
Definition packed (count : Z) (date : str) (st : loop_state) : Prop :=
  Forall bounded (messages st) /\
  (header st = HEADER \/ header st = HEADER_CONT) /\
  (exists base, len HEADER <= base /\
                current_length st = base + lines_length (current_lines st)) /\
  (current_lines st = [] \/
   current_length st + len (footer_template count date) + len CHAIN_NOTE <= MAX_MSG_LENGTH).

Lemma len_header_cases h : h = HEADER \/ h = HEADER_CONT -> 37 <= len h <= 42.
Proof. intros [-> | ->]; vm_compute; split; discriminate. Qed.

Lemma loop_body_packed count date st i p :
  packed count date st ->
  line_fits count date (format_profile_line i p) ->
  packed count date (loop_body count date st i p) /\
  current_lines (loop_body count date st i p) <> [].
Proof.
  intros (Hm & Hh & (base & Hb & Hc) & Hl) Hfit. unfold packed, loop_body, line_fits in *.
  set (line := format_profile_line i p) in *.
  pose proof (len_footer_lower count date) as HF.
  pose proof (len_header_cases _ Hh) as HH.
  change (len HEADER) with 37 in *. change (len HEADER_CONT) with 42 in *.
  change (len CHAIN_NOTE) with 47 in *. unfold MAX_MSG_LENGTH in *.
  destruct (_ >? 4000) eqn:E.
  - cbn [messages header current_lines current_length]. split; [|discriminate].
    split; [| split; [| split]].
    + apply Forall_app. split; [exact Hm|]. constructor; [|constructor].
      unfold bounded, MAX_MSG_LENGTH. rewrite !len_app. change (len CHAIN_NOTE) with 47.
      destruct (current_lines st) as [|l0 ls] eqn:El.
      * change (len (join nl [])) with 0. lia.
      * rewrite len_join_nl by discriminate.
        destruct Hl as [Hl | Hl]; [discriminate|]. lia.
    + right. reflexivity.
    + exists (len (header st)). split; [lia|]. cbn [app lines_length]. lia.
    + right. lia.
  - rewrite Z.gtb_ltb in E. apply Z.ltb_ge in E.
    cbn [messages header current_lines current_length]. split.
    + split; [exact Hm | split; [exact Hh | split]].
      * exists base. split; [lia|]. rewrite lines_length_app. cbn [lines_length]. lia.
      * right. lia.
    + destruct (current_lines st); discriminate.
Qed.

Lemma loop_packed count date ps : forall i st,
  packed count date st ->
  Forall (line_fits count date) (number_from i ps) ->
  packed count date (loop count date i ps st) /\
  (ps <> [] -> current_lines (loop count date i ps st) <> []).
Proof.
  induction ps as [|p ps IH]; intros i st Hst Hfit.
  - simpl. split; [exact Hst | congruence].
  - cbn [loop number_from] in *. inversion Hfit as [|? ? Hp Hps]; subst.
    destruct (loop_body_packed count date st i p Hst Hp) as (H1 & Hne).
    destruct (IH (i + 1) _ H1 Hps) as (H2 & Hne2).
    split; [exact H2|]. intros _.
    destruct ps as [|q ps]; [exact Hne | apply Hne2; discriminate].
Qed.

Lemma len_strftime t : len (strftime_dmY_HM t) = 16.
Proof. reflexivity. Qed.

(** The bound the packing does give: when every line of the directory fits
    in a message of its own, no message is longer than [MAX_MSG_LENGTH]. *)
Lemma build_directory_messages_at_bounded (t : datetime) (ps : list profile) (chat_id : Z) :
  Forall (line_fits (len ps) (strftime_dmY_HM t)) (number_from 1 ps) ->
  Forall bounded (build_directory_messages_at t ps chat_id).
Proof.
  intros Hfit. unfold build_directory_messages_at.
  destruct ps as [|p ps].
  - constructor; [|constructor]. unfold bounded. rewrite !len_app, len_strftime.
    vm_compute. discriminate.
  - set (count := len (p :: ps)) in *. set (date := strftime_dmY_HM t) in *.
    set (st0 := {| messages := []; current_lines := []; current_length := len HEADER;
                   header := HEADER |}).
    assert (H0 : packed count date st0).
    { repeat split; [constructor | left; reflexivity | | left; reflexivity].
      exists (len HEADER). split; [lia | simpl; lia]. }
    destruct (loop_packed count date (p :: ps) 1 st0 H0 Hfit)
      as ((Hm & Hh & (base & Hb & Hc) & Hl) & Hne).
    specialize (Hne ltac:(discriminate)).
    apply Forall_app. split; [exact Hm|]. constructor; [|constructor].
    destruct Hl as [Hl | Hl]; [contradiction|].
    pose proof (len_header_cases _ Hh) as HH.
    unfold bounded. rewrite !len_app, len_join_nl by exact Hne.
    change (len HEADER) with 37 in *. change (len CHAIN_NOTE) with 47 in *. lia.
Qed.

(** The same bound for the function that reads the clock. *)
Lemma build_directory_messages_bounded (ps : list profile) (chat_id : Z) (st : state) :
  Forall (line_fits (len ps) (strftime_dmY_HM (clock (world st)))) (number_from 1 ps) ->
  exists msgs,
    build_directory_messages ps chat_id st = (Ok msgs, st) /\ Forall bounded msgs.
Proof.
  intros H. exists (build_directory_messages_at (clock (world st)) ps chat_id).
  split; [reflexivity | apply build_directory_messages_at_bounded; exact H].
Qed.

(** ** The clock and the renderer *)

(** C5, as the code has it: the renderer reads the clock itself, and its
    messages are determined by the profiles and by the reading of the
    clock during the call, to the minute; it changes nothing, and the chat
    id plays no part. *)
Theorem build_directory_messages_deterministic (ps : list profile)
    (chat1 chat2 : Z) (st1 st2 : state) :
  strftime_dmY_HM (clock (world st1)) = strftime_dmY_HM (clock (world st2)) ->
  fst (build_directory_messages ps chat1 st1) = fst (build_directory_messages ps chat2 st2) /\
  snd (build_directory_messages ps chat1 st1) = st1.
Proof.
  intros H. unfold build_directory_messages, bind, now, ret, build_directory_messages_at.
  cbn [fst snd]. rewrite H. split; reflexivity.
Qed.

(** ** The ledger of pinned messages *)

(** The row of [chat_id] that [get_current_pinned] looks for. *)
Definition current_for (chat_id : Z) (r : pinned_message) : bool :=
  (pin_chat_id r =? chat_id) && (is_current r =? 1).

(** At most one current row for every chat. *)
Definition one_current_per_chat (rows : list pinned_message) : Prop :=
  forall chat_id, (List.length (filter (current_for chat_id) rows) <= 1)%nat.

(** A row is kept when nothing but its flag has changed, and the flag has
    only been cleared. *)
Definition kept (o n : pinned_message) : Prop :=
  pin_id n = pin_id o /\ pin_chat_id n = pin_chat_id o /\
  message_id n = message_id o /\ profile_count n = profile_count o /\
  created_at n = created_at o /\
  (is_current n = is_current o \/ is_current n = 0).

(** The ledger is a history: every row is still there, at its place. *)
Definition history (old new : list pinned_message) : Prop :=
  forall i o, nth_error old i = Some o ->
  exists n, nth_error new i = Some n /\ kept o n.

Lemma kept_refl r : kept r r.
Proof. unfold kept. tauto. Qed.

Lemma kept_trans a b c : kept a b -> kept b c -> kept a c.
Proof.
  unfold kept. intros (H1 & H2 & H3 & H4 & H5 & H6) (K1 & K2 & K3 & K4 & K5 & K6).
  repeat split; try congruence.
  destruct K6 as [K6 | K6]; [rewrite K6; exact H6 | right; exact K6].
Qed.

Lemma history_refl rows : history rows rows.
Proof. intros i o H. exists o. split; [exact H | apply kept_refl]. Qed.

Lemma history_trans a b c : history a b -> history b c -> history a c.
Proof.
  intros Hab Hbc i o H. destruct (Hab i o H) as (n & Hn & Kn).
  destruct (Hbc i n Hn) as (m & Hm & Km).
  exists m. split; [exact Hm | eapply kept_trans; eauto].
Qed.

Lemma kept_supersede chat_id r :
  kept r (if pin_chat_id r =? chat_id then Sql.set_not_current r else r).
Proof.
  destruct (_ =? _); [|apply kept_refl].
  unfold kept, Sql.set_not_current. simpl. tauto.
Qed.

(** What [save_pinned_message] makes of the table. *)
Definition saved (chat_id msg_id count : Z) (t : datetime)
    (rows : list pinned_message) : list pinned_message :=
  Sql.insert_pinned chat_id msg_id count (isoformat t) (Sql.supersede chat_id rows).

Lemma history_saved chat_id msg_id count t rows :
  history rows (saved chat_id msg_id count t rows).
Proof.
  intros i o H. unfold saved, Sql.insert_pinned, Sql.supersede.
  exists (if pin_chat_id o =? chat_id then Sql.set_not_current o else o).
  split; [|apply kept_supersede].
  rewrite nth_error_app1.
  - rewrite nth_error_map, H. reflexivity.
  - rewrite length_map. apply nth_error_Some. congruence.
Qed.

Lemma filter_current_supersede chat_id c rows :
  filter (current_for c) (Sql.supersede chat_id rows) =
  if c =? chat_id then [] else filter (current_for c) rows.
Proof.
  unfold Sql.supersede. induction rows as [|r rows IH].
  - simpl. destruct (c =? chat_id); reflexivity.
  - cbn [map filter]. rewrite IH. clear IH.
    destruct (pin_chat_id r =? chat_id) eqn:E1.
    + assert (H1 : current_for c (Sql.set_not_current r) = false).
      { unfold current_for. simpl. apply andb_false_r. }
      rewrite H1. destruct (c =? chat_id) eqn:E2; [reflexivity|].
      assert (H2 : current_for c r = false).
      { unfold current_for. apply Z.eqb_eq in E1. apply Z.eqb_neq in E2.
        replace (pin_chat_id r =? c) with false; [reflexivity|].
        symmetry. apply Z.eqb_neq. lia. }
      rewrite H2. reflexivity.
    + destruct (c =? chat_id) eqn:E2; [|reflexivity].
      apply Z.eqb_eq in E2. subst c.
      unfold current_for. rewrite E1. reflexivity.
Qed.

Lemma one_current_saved chat_id msg_id count t rows :
  one_current_per_chat rows ->
  one_current_per_chat (saved chat_id msg_id count t rows).
Proof.
  intros H c. unfold saved, Sql.insert_pinned.
  rewrite filter_app, length_app, filter_current_supersede.
  cbn [filter]. unfold current_for at 2. cbn [pin_chat_id is_current].
  destruct (c =? chat_id) eqn:E.
  - rewrite Z.eqb_sym, E. simpl. lia.
  - rewrite Z.eqb_sym, E. simpl. specialize (H c). lia.
Qed.

Lemma select_current_saved chat_id msg_id count t rows :
  Sql.select_current chat_id (saved chat_id msg_id count t rows) =
  Some {| pin_id := Sql.next_id (Sql.supersede chat_id rows);
          pin_chat_id := chat_id; message_id := msg_id; profile_count := count;
          is_current := 1; created_at := isoformat t |}.
Proof.
  unfold Sql.select_current, saved, Sql.insert_pinned.
  assert (H : forall l tail, filter (current_for chat_id) l = [] ->
              find (current_for chat_id) (l ++ tail) = find (current_for chat_id) tail).
  { induction l as [|r l IH]; intros tail Hf; [reflexivity|].
    simpl in *. destruct (current_for chat_id r); [discriminate | auto]. }
  change (fun r => (pin_chat_id r =? chat_id) && (is_current r =? 1))
    with (current_for chat_id).
  rewrite H.
  - simpl. unfold current_for. simpl. rewrite Z.eqb_refl. reflexivity.
  - rewrite filter_current_supersede, Z.eqb_refl. reflexivity.
Qed.


(** ** How the operations touch the database *)

Lemma save_pinned_message_eq chat_id msg_id count st :
  save_pinned_message chat_id msg_id count st =
  (Ok tt, {| world := world st;
             db := {| profiles := profiles (db st);
                      pinned_messages :=
                        saved chat_id msg_id count (clock (world st))
                              (pinned_messages (db st)) |};
             calls := calls st |}).
Proof. reflexivity. Qed.

Section Respects.

(** A relation between the database before and after that holds across
    doing nothing and across two steps in a row. *)
Variable R : database -> database -> Prop.
Hypothesis R_refl : forall d, R d d.
Hypothesis R_trans : forall a b c, R a b -> R b c -> R a c.

Definition respects {A} (m : M A) : Prop :=
  forall st, R (db st) (db (snd (m st))).

Lemma respects_ret {A} (a : A) : respects (ret a).
Proof. intros st. apply R_refl. Qed.

Lemma respects_raise {A} (e : exn) : respects (@raise A e).
Proof. intros st. apply R_refl. Qed.

Lemma respects_bind {A B} (m : M A) (k : A -> M B) :
  respects m -> (forall a, respects (k a)) -> respects (bind m k).
Proof.
  intros Hm Hk st. unfold bind. specialize (Hm st).
  destruct (m st) as [[a | e] st']; simpl in *.
  - eapply R_trans; [exact Hm | apply Hk].
  - exact Hm.
Qed.

Lemma respects_try {A} (body : M A) (handler : str -> M A) :
  respects body -> (forall e, respects (handler e)) ->
  respects (try_except_BadRequest body handler).
Proof.
  intros Hb Hh st. unfold try_except_BadRequest. specialize (Hb st).
  destruct (body st) as [[a | [e | | |]] st']; simpl in *; try exact Hb.
  eapply R_trans; [exact Hb | apply Hh].
Qed.

Lemma respects_transport {A} (f : World -> outcome A * World) record :
  respects (transport f record).
Proof. intros st. unfold transport. destruct (f (world st)). apply R_refl. Qed.

Lemma respects_now : respects now.
Proof. intros st. apply R_refl. Qed.

Lemma respects_get_profiles : respects get_profiles.
Proof. intros st. apply R_refl. Qed.

Lemma respects_get_pinned : respects get_pinned.
Proof. intros st. apply R_refl. Qed.

Lemma respects_read {A B} (m : M A) (f : A -> B) :
  respects m -> respects (bind m (fun a => ret (f a))).
Proof. intros H. apply respects_bind; [exact H | intros a; apply respects_ret]. Qed.

Lemma respects_send_loop chat_id cp texts : forall i last,
  respects (send_loop chat_id cp i texts last).
Proof.
  induction texts as [|txt rest IH]; intros i last; cbn [send_loop].
  - apply respects_ret.
  - destruct ((i =? 0) && is_some cp); [apply IH|].
    apply respects_bind; [apply respects_transport | intros sent; apply IH].
Qed.

Hypothesis R_save : forall chat_id msg_id count,
  respects (save_pinned_message chat_id msg_id count).

Lemma respects_pin_and_save chat_id msg_id count :
  respects (pin_and_save chat_id msg_id count).
Proof.
  unfold pin_and_save. apply respects_try; [|intros e; apply respects_ret].
  apply respects_bind; [apply respects_transport | intros _; apply R_save].
Qed.

Lemma respects_reconcile chat_id n texts cp :
  respects (reconcile chat_id n texts cp).
Proof.
  unfold reconcile. apply respects_bind.
  - unfold edit_in_place. destruct cp as [cp|]; [|apply respects_ret].
    destruct (len texts =? 1); [|apply respects_ret].
    apply respects_try.
    + apply respects_bind; [apply respects_transport | intros _; apply respects_ret].
    + intros e. destruct (contains _ _); apply respects_ret.
  - intros [|]; [apply respects_ret|].
    apply respects_bind.
    + unfold edit_first. destruct cp as [cp|]; [|apply respects_ret].
      destruct (len texts >? 1); [|apply respects_ret].
      apply respects_try; [apply respects_transport | intros e; apply respects_ret].
    + intros _. apply respects_bind; [apply respects_send_loop|].
      intros [last_id|]; [apply respects_pin_and_save|].
      destruct (is_some cp); [apply respects_ret|].
      destruct texts as [|first rest]; [apply respects_raise|].
      apply respects_bind; [apply respects_transport|].
      intros sent. apply respects_pin_and_save.
Qed.

Lemma respects_update_pinned_directory chat_id :
  respects (update_pinned_directory chat_id).
Proof.
  unfold update_pinned_directory.
  apply respects_bind; [apply respects_read, respects_get_profiles|]. intros profs.
  apply respects_bind; [apply respects_read, respects_now|]. intros texts.
  apply respects_bind; [apply respects_read, respects_get_pinned|]. intros cp.
  apply respects_reconcile.
Qed.

Lemma respects_save_web_json : respects save_web_json.
Proof.
  unfold save_web_json.
  apply respects_bind; [apply respects_read, respects_get_profiles|]. intros web.
  apply respects_transport.
Qed.

Hypothesis R_put_profiles : forall rows, respects (put_profiles rows).

Lemma respects_handle_message upd : respects (handle_message upd).
Proof.
  unfold handle_message.
  destruct (upd_message upd) as [msg|]; [|apply respects_ret].
  destruct (negb (truthy (text msg))); [apply respects_ret|].
  destruct (_ && _); [apply respects_ret|].
  destruct (_ && _); [apply respects_ret|].
  destruct (npub_findall _) as [|m0 more]; [apply respects_ret|].
  apply respects_bind.
  { apply respects_read, respects_get_profiles. }
  intros [ex|].
  - destruct (PyStr.eqb _ _); [apply respects_transport|].
    apply respects_bind; [apply respects_get_profiles|]. intros rows.
    destruct (Sql.update_npub _ _ rows) as [rows'|]; [|apply respects_raise].
    apply respects_bind; [apply R_put_profiles|]. intros _.
    apply respects_bind; [apply respects_transport|]. intros _.
    apply respects_bind; [apply respects_update_pinned_directory|]. intros _.
    apply respects_save_web_json.
  - apply respects_bind.
    { unfold add_profile. apply respects_bind; [apply respects_get_profiles|].
      intros rows. apply respects_bind; [apply respects_now|]. intros t.
      destruct (Sql.insert_profile _ _ _ _ _ rows) as [rows'|]; [|apply respects_ret].
      apply respects_bind; [apply R_put_profiles | intros _; apply respects_ret]. }
    intros added. destruct (negb added); [apply respects_transport|].
    apply respects_bind; [apply respects_transport|]. intros _.
    apply respects_bind; [apply respects_update_pinned_directory|]. intros _.
    apply respects_save_web_json.
Qed.

End Respects.


(** The ledger across an operation: the invariant is kept and no row is
    lost. *)
Definition ledger_step (d d' : database) : Prop :=
  one_current_per_chat (pinned_messages d) ->
  one_current_per_chat (pinned_messages d') /\
  history (pinned_messages d) (pinned_messages d').

Lemma ledger_step_refl d : ledger_step d d.
Proof. intros H. split; [exact H | apply history_refl]. Qed.

Lemma ledger_step_trans a b c : ledger_step a b -> ledger_step b c -> ledger_step a c.
Proof.
  intros Hab Hbc H. destruct (Hab H) as (H1 & K1). destruct (Hbc H1) as (H2 & K2).
  split; [exact H2 | eapply history_trans; eauto].
Qed.

Lemma ledger_step_save chat_id msg_id count :
  respects ledger_step (save_pinned_message chat_id msg_id count).
Proof.
  intros st H. rewrite save_pinned_message_eq. simpl.
  split; [apply one_current_saved; exact H | apply history_saved].
Qed.

Lemma ledger_step_put_profiles rows : respects ledger_step (put_profiles rows).
Proof. intros st H. simpl. split; [exact H | apply history_refl]. Qed.

(** C7. Every operation that can write the ledger leaves at most one
    current row for each chat and takes no row away: a row that was there
    is still there at its place with the same message, count and date, and
    its flag is either as it was or cleared.  This holds for
    [save_pinned_message] itself and for the handlers built on it, whatever
    the transport answers. *)
Theorem ledger_invariant (st : state) :
  one_current_per_chat (pinned_messages (db st)) ->
  (forall chat_id msg_id count,
     let st' := snd (save_pinned_message chat_id msg_id count st) in
     one_current_per_chat (pinned_messages (db st')) /\
     history (pinned_messages (db st)) (pinned_messages (db st'))) /\
  (forall chat_id,
     let st' := snd (update_pinned_directory chat_id st) in
     one_current_per_chat (pinned_messages (db st')) /\
     history (pinned_messages (db st)) (pinned_messages (db st'))) /\
  (forall upd,
     let st' := snd (handle_message upd st) in
     one_current_per_chat (pinned_messages (db st')) /\
     history (pinned_messages (db st)) (pinned_messages (db st'))).
Proof.
  intros H. split; [| split].
  - intros chat_id msg_id count. exact (ledger_step_save chat_id msg_id count st H).
  - intros chat_id.
    exact (respects_update_pinned_directory ledger_step ledger_step_refl
             ledger_step_trans ledger_step_save chat_id st H).
  - intros upd.
    exact (respects_handle_message ledger_step ledger_step_refl ledger_step_trans
             ledger_step_save ledger_step_put_profiles upd st H).
Qed.

(** ** Rebinding a token *)

(** Everything but the token is as it was. *)
Definition same_but_npub (o n : profile) : Prop :=
  telegram_user_id n = telegram_user_id o /\
  custom_name n = custom_name o /\
  web_consent n = web_consent o /\
  added_at n = added_at o /\
  telegram_username n = telegram_username o /\
  telegram_name n = telegram_name o.

Definition keeps_profiles (d d' : database) : Prop := profiles d' = profiles d.

Lemma keeps_profiles_refl d : keeps_profiles d d.
Proof. reflexivity. Qed.

Lemma keeps_profiles_trans a b c :
  keeps_profiles a b -> keeps_profiles b c -> keeps_profiles a c.
Proof. unfold keeps_profiles. congruence. Qed.

Lemma keeps_profiles_save chat_id msg_id count :
  respects keeps_profiles (save_pinned_message chat_id msg_id count).
Proof. intros st. reflexivity. Qed.

Lemma update_npub_frame new_npub uid rows rows' :
  Sql.update_npub new_npub uid rows = Some rows' ->
  Forall2 (fun o n => same_but_npub o n /\
                      (telegram_user_id o <> uid -> n = o) /\
                      (telegram_user_id o = uid -> npub n = new_npub))
          rows rows'.
Proof.
  unfold Sql.update_npub. destruct (Sql.distinct _); [|discriminate].
  intros H. injection H as <-.
  induction rows as [|r rows IH]; simpl; constructor; [|exact IH].
  destruct (telegram_user_id r =? uid) eqn:E.
  - apply Z.eqb_eq in E. unfold same_but_npub, Sql.set_npub. simpl.
    repeat split; try reflexivity. intros Hne. contradiction.
  - apply Z.eqb_neq in E. unfold same_but_npub.
    repeat split; try reflexivity. intros He. contradiction.
Qed.

Lemma Forall2_same_profiles rows :
  Forall2 (fun o n : profile => same_but_npub o n /\ n = o) rows rows.
Proof.
  induction rows; constructor; auto. unfold same_but_npub. tauto.
Qed.

(** The condition under which [handle_message] reads a token in a
    message: there is a text, the chat and the thread are the allowed
    ones. *)
Definition accepted (msg : message) : Prop :=
  truthy (text msg) = true /\
  (ALLOWED_CHAT_ID = 0 \/ msg_chat_id msg = ALLOWED_CHAT_ID) /\
  (ALLOWED_THREAD_ID = 0 \/ message_thread_id msg = Some ALLOWED_THREAD_ID).


(** ** One message, edited in place *)

(** The edit was accepted, or refused because nothing would change. *)
Definition edit_done (r : outcome unit) : Prop :=
  r = Ok tt \/
  exists e, r = Raise (BadRequest e) /\ contains NOT_MODIFIED (lower e) = true.

(** The edit was refused with a [BadRequest] for another reason. *)
Definition edit_refused (r : outcome unit) : Prop :=
  exists e, r = Raise (BadRequest e) /\ contains NOT_MODIFIED (lower e) = false.

(** With one message and a current row, an edit that is accepted or that
    changes nothing ends the reconciliation: the edit is the only call and
    the database is not written. *)
Lemma reconcile_edit_in_place chat_id n txt cp st :
  edit_done (fst (bot_edit_message_text chat_id (message_id cp) txt (world st))) ->
  reconcile chat_id n [txt] (Some cp) st =
  (Ok tt,
   {| world := snd (bot_edit_message_text chat_id (message_id cp) txt (world st));
      db := db st;
      calls := calls st ++
               [EditMessageText chat_id (message_id cp) txt
                  (fst (bot_edit_message_text chat_id (message_id cp) txt (world st)))] |}).
Proof.
  intros H. unfold reconcile, edit_in_place. cbn [len List.length Z.of_nat Z.eqb Pos.of_succ_nat Pos.eqb nth].
  unfold bind at 1. unfold try_except_BadRequest, bind, edit_message_text, transport.
  destruct (bot_edit_message_text chat_id (message_id cp) txt (world st)) as [r w].
  cbn [fst snd] in *. destruct H as [-> | (e & -> & He)].
  - reflexivity.
  - rewrite He. reflexivity.
Qed.

(** With one message and a current row, an edit refused for another reason
    is followed by nothing: the loop skips the only message, so none is
    sent, and the last branch is not taken because there is a current
    row. *)
Lemma reconcile_edit_refused chat_id n txt cp st :
  edit_refused (fst (bot_edit_message_text chat_id (message_id cp) txt (world st))) ->
  reconcile chat_id n [txt] (Some cp) st =
  (Ok tt,
   {| world := snd (bot_edit_message_text chat_id (message_id cp) txt (world st));
      db := db st;
      calls := calls st ++
               [EditMessageText chat_id (message_id cp) txt
                  (fst (bot_edit_message_text chat_id (message_id cp) txt (world st)))] |}).
Proof.
  intros (e & He & Hc). unfold reconcile, edit_in_place, edit_first.
  cbn [len List.length Z.of_nat Z.eqb Z.gtb Z.compare Pos.of_succ_nat Pos.eqb Pos.compare nth].
  unfold bind at 1. unfold try_except_BadRequest, bind, edit_message_text, transport.
  destruct (bot_edit_message_text chat_id (message_id cp) txt (world st)) as [r w].
  cbn [fst snd] in *. subst r. rewrite Hc. reflexivity.
Qed.

Lemma count_sends_app a b : count_sends (a ++ b) = (count_sends a + count_sends b)%nat.
Proof. unfold count_sends. rewrite filter_app, length_app. reflexivity. Qed.

Lemma count_pins_app a b : count_pins (a ++ b) = (count_pins a + count_pins b)%nat.
Proof. unfold count_pins. rewrite filter_app, length_app. reflexivity. Qed.

(** C2. Reconciling one message against a current row whose message
    already has that content sends nothing and pins nothing: the only call
    is the edit, and its answer "message is not modified" (like its
    success) ends the call normally. *)
Theorem reconcile_unchanged_is_noop (chat_id n : Z) (txt : str)
    (cp : pinned_message) (st : state) :
  edit_done (fst (bot_edit_message_text chat_id (message_id cp) txt (world st))) ->
  let res := reconcile chat_id n [txt] (Some cp) st in
  fst res = Ok tt /\
  count_sends (calls (snd res)) = count_sends (calls st) /\
  count_pins (calls (snd res)) = count_pins (calls st).
Proof.
  intros H res. subst res. rewrite (reconcile_edit_in_place _ _ _ _ _ H).
  cbn [fst snd calls]. rewrite count_sends_app, count_pins_app.
  cbn. repeat split; lia.
Qed.

(** C10. On the path where the single message is edited in place the
    database is not written: the ledger is the same table afterwards, and
    its current row still holds the message reference and the count of
    profiles recorded when it was created, whatever the count [n] of the
    directory now rendered. *)
Theorem reconcile_edit_in_place_keeps_ledger (chat_id n : Z) (txt : str)
    (cp : pinned_message) (st : state) :
  edit_done (fst (bot_edit_message_text chat_id (message_id cp) txt (world st))) ->
  Sql.select_current chat_id (pinned_messages (db st)) = Some cp ->
  let st' := snd (reconcile chat_id n [txt] (Some cp) st) in
  db st' = db st /\
  Sql.select_current chat_id (pinned_messages (db st')) = Some cp.
Proof.
  intros H Hcur st'. subst st'. rewrite (reconcile_edit_in_place _ _ _ _ _ H).
  cbn [snd db]. split; [reflexivity | exact Hcur].
Qed.


(** ** Several messages *)

(** The calls that send [texts] and get the message ids [ids] back. *)
Definition sent_calls (chat_id : Z) (texts : list str) (ids : list Z) : list call :=
  map (fun ti => SendMessage chat_id (fst ti) thread_kwargs (Ok (snd ti)))
      (combine texts ids).

(** [last_msg] after the messages [ids] have been sent. *)
Definition last_sent (ids : list Z) (last_msg : option Z) : option Z :=
  fold_left (fun _ m => Some m) ids last_msg.

Definition sends_succeed : Prop :=
  forall chat_id txt thread w, exists m, fst (bot_send_message chat_id txt thread w) = Ok m.

Definition pins_succeed : Prop :=
  forall chat_id msg_id w, fst (bot_pin_chat_message chat_id msg_id w) = Ok tt.

(** What [except BadRequest: pass] lets through. *)
Definition edit_swallowed (r : outcome unit) : Prop :=
  r = Ok tt \/ exists e, r = Raise (BadRequest e).

Lemma send_loop_sends chat_id cp (Hsend : sends_succeed) texts :
  forall i last_msg st, 0 < i ->
  exists ids w,
    List.length ids = List.length texts /\
    send_loop chat_id cp i texts last_msg st =
    (Ok (last_sent ids last_msg),
     {| world := w; db := db st; calls := calls st ++ sent_calls chat_id texts ids |}).
Proof.
  induction texts as [|txt rest IH]; intros i last_msg st Hi.
  - exists [], (world st). split; [reflexivity|].
    cbn. rewrite app_nil_r. destruct st; reflexivity.
  - cbn [send_loop]. replace (i =? 0) with false by (symmetry; apply Z.eqb_neq; lia).
    cbn [andb]. unfold bind at 1. unfold send_message, transport.
    destruct (Hsend chat_id txt thread_kwargs (world st)) as (m & Hm).
    destruct (bot_send_message chat_id txt thread_kwargs (world st)) as [r w1].
    cbn [fst] in Hm. subst r.
    destruct (IH (i + 1) (Some m)
                {| world := w1; db := db st;
                   calls := calls st ++ [SendMessage chat_id txt thread_kwargs (Ok m)] |}
                ltac:(lia)) as (ids & w2 & Hlen & Heq).
    exists (m :: ids), w2. split; [simpl; lia|].
    rewrite Heq. cbn [db calls]. rewrite <- app_assoc. reflexivity.
Qed.

Lemma last_sent_nonempty ids last_msg :
  ids <> [] -> last_sent ids last_msg = Some (List.last ids 0).
Proof.
  unfold last_sent. revert last_msg.
  induction ids as [|m ids IH]; intros last_msg H; [contradiction|].
  destruct ids as [|m' ids]; [reflexivity|].
  cbn [fold_left]. change (fold_left (fun _ m0 => Some m0) ids (Some m'))
    with (fold_left (fun (_ : option Z) m0 => Some m0) (m' :: ids) (Some m)).
  rewrite IH by discriminate. reflexivity.
Qed.

(** Every flag of the table is 0 or 1, as the code writes them. *)
Definition flags_ok (rows : list pinned_message) : Prop :=
  Forall (fun r => is_current r = 0 \/ is_current r = 1) rows.

Lemma set_not_current_id r : is_current r = 0 -> Sql.set_not_current r = r.
Proof. destruct r. simpl. intros ->. reflexivity. Qed.

Lemma supersede_none chat_id rows :
  flags_ok rows -> filter (current_for chat_id) rows = [] ->
  Sql.supersede chat_id rows = rows.
Proof.
  unfold Sql.supersede. induction rows as [|r rows IH]; intros Hf Hn; [reflexivity|].
  inversion Hf as [|? ? Hr Hrows]; subst. cbn [map filter] in *.
  unfold current_for in Hn at 1.
  destruct (pin_chat_id r =? chat_id) eqn:E; cbn [andb] in Hn.
  - destruct Hr as [Hr | Hr]; rewrite Hr in Hn; cbn in Hn; [|discriminate].
    rewrite set_not_current_id, IH by assumption. reflexivity.
  - rewrite IH by assumption. reflexivity.
Qed.

(** With at most one current row, superseding clears the flag of that row
    and changes nothing else. *)
Lemma supersede_exact chat_id rows cp :
  flags_ok rows -> one_current_per_chat rows ->
  Sql.select_current chat_id rows = Some cp ->
  exists before after,
    rows = before ++ cp :: after /\
    Sql.supersede chat_id rows = before ++ Sql.set_not_current cp :: after.
Proof.
  intros Hf Hone. specialize (Hone chat_id). unfold Sql.select_current.
  change (fun r => (pin_chat_id r =? chat_id) && (is_current r =? 1))
    with (current_for chat_id).
  induction rows as [|r rows IH]; intros Hsel; [discriminate|].
  inversion Hf as [|? ? Hr Hrows]; subst.
  cbn [find filter] in *. destruct (current_for chat_id r) eqn:E.
  - injection Hsel as <-. exists [], rows. split; [reflexivity|].
    cbn [List.length] in Hone.
    assert (Hnil : filter (current_for chat_id) rows = []).
    { destruct (filter (current_for chat_id) rows); [reflexivity | simpl in Hone; lia]. }
    unfold Sql.supersede. cbn [map app]. fold (Sql.supersede chat_id rows).
    rewrite supersede_none by assumption.
    unfold current_for in E. apply andb_prop in E. destruct E as (E & _).
    rewrite E. reflexivity.
  - destruct (IH Hrows Hone Hsel) as (before & after & H1 & H2).
    exists (r :: before), after. split; [rewrite H1; reflexivity|].
    unfold Sql.supersede. cbn [map]. fold (Sql.supersede chat_id rows). rewrite H2.
    destruct (pin_chat_id r =? chat_id) eqn:E1; [|reflexivity].
    unfold current_for in E. rewrite E1 in E. cbn [andb] in E.
    destruct Hr as [Hr | Hr]; [|rewrite Hr in E; discriminate].
    rewrite set_not_current_id by assumption. reflexivity.
Qed.

Lemma bind_ok {A B} (m : M A) (k : A -> M B) st a st' :
  m st = (Ok a, st') -> bind m k st = k a st'.
Proof. intros H. unfold bind. rewrite H. reflexivity. Qed.

Lemma edit_first_swallows chat_id (texts : list str) cp st :
  (len texts >? 1) = true ->
  edit_swallowed (fst (bot_edit_message_text chat_id (message_id cp) (nth 0 texts []) (world st))) ->
  edit_first chat_id texts (Some cp) st =
  (Ok tt,
   {| world := snd (bot_edit_message_text chat_id (message_id cp) (nth 0 texts []) (world st));
      db := db st;
      calls := calls st ++
        [EditMessageText chat_id (message_id cp) (nth 0 texts [])
           (fst (bot_edit_message_text chat_id (message_id cp) (nth 0 texts []) (world st)))] |}).
Proof.
  intros L H. unfold edit_first. rewrite L.
  unfold try_except_BadRequest, edit_message_text, transport.
  destruct (bot_edit_message_text chat_id (message_id cp) (nth 0 texts []) (world st)) as [r w].
  cbn [fst snd] in *. destruct H as [-> | (e & ->)]; reflexivity.
Qed.

Lemma pin_and_save_ok chat_id msg_id count st :
  fst (bot_pin_chat_message chat_id msg_id (world st)) = Ok tt ->
  pin_and_save chat_id msg_id count st =
  (Ok tt,
   {| world := snd (bot_pin_chat_message chat_id msg_id (world st));
      db := {| profiles := profiles (db st);
               pinned_messages :=
                 saved chat_id msg_id count
                       (clock (snd (bot_pin_chat_message chat_id msg_id (world st))))
                       (pinned_messages (db st)) |};
      calls := calls st ++ [PinChatMessage chat_id msg_id (Ok tt)] |}).
Proof.
  intros H. unfold pin_and_save, try_except_BadRequest, bind, pin_chat_message, transport.
  destruct (bot_pin_chat_message chat_id msg_id (world st)) as [r w].
  cbn [fst snd] in *. subst r. reflexivity.
Qed.

(** A pin refused with a [BadRequest] is only logged: nothing is saved. *)
Lemma pin_and_save_refused chat_id msg_id count st e :
  fst (bot_pin_chat_message chat_id msg_id (world st)) = Raise (BadRequest e) ->
  pin_and_save chat_id msg_id count st =
  (Ok tt,
   {| world := snd (bot_pin_chat_message chat_id msg_id (world st));
      db := db st;
      calls := calls st ++ [PinChatMessage chat_id msg_id (Raise (BadRequest e))] |}).
Proof.
  intros H. unfold pin_and_save, try_except_BadRequest, bind, pin_chat_message, transport.
  destruct (bot_pin_chat_message chat_id msg_id (world st)) as [r w].
  cbn [fst snd] in *. subst r. reflexivity.
Qed.


(** ** Links between the definitions *)

(** [update_pinned_directory] is [reconcile] on the rendered directory and
    the current row of the ledger. *)
Lemma update_pinned_directory_eq chat_id st :
  update_pinned_directory chat_id st =
  reconcile chat_id
    (len (Sql.select_profiles_ordered (profiles (db st))))
    (build_directory_messages_at (clock (world st))
       (Sql.select_profiles_ordered (profiles (db st))) chat_id)
    (Sql.select_current chat_id (pinned_messages (db st)))
    st.
Proof. reflexivity. Qed.

(** Between the two statements of [save_pinned_message] the chat has no
    current row. *)
Lemma one_current_supersede chat_id rows :
  one_current_per_chat rows -> one_current_per_chat (Sql.supersede chat_id rows).
Proof.
  intros H c. rewrite filter_current_supersede.
  destruct (c =? chat_id); [simpl; lia | apply H].
Qed.


(** * Further properties of the renderer *)

(** Everything a message made of all the [lines] would count in the test
    of the loop. *)
Definition total_length (count : Z) (date : str) (lines : list str) : Z :=
  len HEADER + lines_length lines + len (footer_template count date) + len CHAIN_NOTE.

Lemma loop_without_seal count date ps : forall i st,
  messages st = [] -> header st = HEADER ->
  current_length st + lines_length (number_from i ps)
    + len (footer_template count date) + len CHAIN_NOTE <= MAX_MSG_LENGTH ->
  loop count date i ps st =
  {| messages := [];
     current_lines := current_lines st ++ number_from i ps;
     current_length := current_length st + lines_length (number_from i ps);
     header := HEADER |}.
Proof.
  induction ps as [|p ps IH]; intros i st Hm Hh Hfit.
  - cbn [loop number_from lines_length]. rewrite app_nil_r, Z.add_0_r.
    destruct st; simpl in *; subst; reflexivity.
  - cbn [loop number_from lines_length] in *.
    pose proof (lines_length_nonneg (number_from (i + 1) ps)) as Hn.
    unfold loop_body.
    replace (current_length st + (len (format_profile_line i p) + 1)
             + len (footer_template count date) + len CHAIN_NOTE >? MAX_MSG_LENGTH)
      with false by (symmetry; rewrite Z.gtb_ltb; apply Z.ltb_ge; lia).
    rewrite IH; cbn [messages header current_lines current_length];
      [| assumption | assumption | lia].
    rewrite <- app_assoc. cbn [app]. f_equal. lia.
Qed.

Lemma loop_messages_grow count date ps : forall i st,
  (List.length (messages st) <= List.length (messages (loop count date i ps st)))%nat.
Proof.
  induction ps as [|p ps IH]; intros i st; cbn [loop]; [lia|].
  eapply Nat.le_trans; [|apply IH].
  unfold loop_body. destruct (_ >? _); cbn [messages]; [rewrite length_app; simpl|]; lia.
Qed.

Lemma loop_with_seal count date ps : forall i st,
  (ps = [] -> current_length st + len (footer_template count date) + len CHAIN_NOTE
              <= MAX_MSG_LENGTH) ->
  current_length st + lines_length (number_from i ps)
    + len (footer_template count date) + len CHAIN_NOTE > MAX_MSG_LENGTH ->
  (List.length (messages st) < List.length (messages (loop count date i ps st)))%nat.
Proof.
  induction ps as [|p ps IH]; intros i st Hnil Hbig.
  - specialize (Hnil eq_refl). cbn [number_from lines_length] in Hbig. lia.
  - cbn [loop number_from lines_length] in *.
    destruct (current_length st + (len (format_profile_line i p) + 1)
              + len (footer_template count date) + len CHAIN_NOTE >? MAX_MSG_LENGTH) eqn:E.
    + eapply Nat.lt_le_trans; [|apply loop_messages_grow].
      unfold loop_body. rewrite E. cbn [messages]. rewrite length_app. simpl. lia.
    + rewrite Z.gtb_ltb in E. apply Z.ltb_ge in E.
      assert (Hb : loop_body count date st i p =
                   {| messages := messages st;
                      current_lines := current_lines st ++ [format_profile_line i p];
                      current_length := current_length st + (len (format_profile_line i p) + 1);
                      header := header st |}).
      { unfold loop_body.
        replace (current_length st + (len (format_profile_line i p) + 1)
                 + len (footer_template count date) + len CHAIN_NOTE >? MAX_MSG_LENGTH)
          with false by (symmetry; rewrite Z.gtb_ltb; apply Z.ltb_ge; lia).
        reflexivity. }
      rewrite Hb.
      match goal with |- (_ < List.length (messages (loop _ _ _ _ ?s)))%nat =>
        change (List.length (messages st)) with (List.length (messages s)) end.
      apply IH; cbn [current_length]; [intros _; lia | lia].
Qed.

(** X1. A directory that is not empty is rendered as one message exactly
    when the header, all its lines with their newlines, the footer and the
    continuation note together are within [MAX_MSG_LENGTH]; the message is
    then the header, the lines and the footer.  Otherwise there are at
    least two messages. *)
Theorem build_directory_messages_single (p : profile) (ps : list profile)
    (chat_id : Z) (st : state) :
  let count := len (p :: ps) in
  let date := strftime_dmY_HM (clock (world st)) in
  let lines := number_from 1 (p :: ps) in
  (total_length count date lines <= MAX_MSG_LENGTH ->
   fst (build_directory_messages (p :: ps) chat_id st) =
     Ok [HEADER ++ join nl lines ++ footer_template count date]) /\
  (total_length count date lines > MAX_MSG_LENGTH ->
   exists m1 m2 more,
     fst (build_directory_messages (p :: ps) chat_id st) = Ok (m1 :: m2 :: more)).
Proof.
  intros count date lines. unfold total_length.
  unfold build_directory_messages, bind, now, ret. cbn [fst].
  unfold build_directory_messages_at. fold count. fold date.
  set (st0 := {| messages := []; current_lines := []; current_length := len HEADER;
                 header := HEADER |}).
  split; intros H.
  - assert (Hl : loop count date 1 (p :: ps) st0 =
                 {| messages := []; current_lines := lines;
                    current_length := len HEADER + lines_length lines;
                    header := HEADER |}).
    { apply (loop_without_seal count date (p :: ps) 1 st0); [reflexivity | reflexivity |].
      exact H. }
    rewrite Hl. reflexivity.
  - pose proof (loop_with_seal count date (p :: ps) 1 st0 ltac:(discriminate) H) as Hlt.
    cbn [messages st0 List.length] in Hlt.
    destruct (messages (loop count date 1 (p :: ps) st0)) as [|m1 rest] eqn:E;
      [simpl in Hlt; lia|].
    destruct rest as [|m2 more].
    + eexists _, _, []. reflexivity.
    + eexists _, _, _. reflexivity.
Qed.


(** X2. When every line of the directory fits in a message of its own
    (continuation header, the line and its newline, footer and
    continuation note within [MAX_MSG_LENGTH]), the renderer returns
    normally and none of its messages is longer than [MAX_MSG_LENGTH]. *)
Theorem build_directory_messages_within_limit (ps : list profile) (chat_id : Z)
    (st : state) :
  Forall (line_fits (len ps) (strftime_dmY_HM (clock (world st)))) (number_from 1 ps) ->
  exists msgs,
    build_directory_messages ps chat_id st = (Ok msgs, st) /\
    Forall (fun m => len m <= MAX_MSG_LENGTH) msgs.
Proof.
  intros H. destruct (build_directory_messages_bounded ps chat_id st H) as (msgs & E & B).
  exists msgs. split; [exact E | exact B].
Qed.

(** What the loop keeps true when the lines fit: no sealed message is
    without lines. *)
Definition filled (st : loop_state) (groups : list (list str)) : Prop :=
  Forall (fun g => g <> []) groups /\
  exists base, base <= len HEADER_CONT /\
               current_length st = base + lines_length (current_lines st).

Lemma len_chunk_header k : len (chunk_header k) <= len HEADER_CONT.
Proof. destruct k; vm_compute; discriminate. Qed.

Lemma loop_body_filled count date st groups done i p :
  grouped st groups done -> filled st groups ->
  line_fits count date (format_profile_line i p) ->
  exists groups',
    grouped (loop_body count date st i p) groups' (done ++ [format_profile_line i p]) /\
    filled (loop_body count date st i p) groups' /\
    current_lines (loop_body count date st i p) <> [].
Proof.
  intros (Hm & Hh & Hd) (Hne & base & Hb & Hc) Hfit.
  unfold loop_body, line_fits in *.
  pose proof (len_chunk_header (List.length groups)) as Hk. rewrite <- Hh in Hk.
  destruct (_ >? MAX_MSG_LENGTH) eqn:E.
  - rewrite Z.gtb_ltb in E. apply Z.ltb_lt in E.
    exists (groups ++ [current_lines st]). unfold grouped, filled.
    cbn [messages header current_lines current_length].
    split; [|split].
    + repeat split.
      * rewrite render_sealed_snoc, Hm, Hh. reflexivity.
      * rewrite length_app, Nat.add_comm. reflexivity.
      * rewrite concat_app. cbn [concat]. rewrite app_nil_r, Hd. reflexivity.
    + split.
      * apply Forall_app. split; [exact Hne|]. constructor; [|constructor].
        intros Hnil. rewrite Hnil in Hc. cbn [lines_length] in Hc. lia.
      * exists (len (header st)). split; [exact Hk|].
        cbn [app lines_length current_length current_lines]. lia.
    + discriminate.
  - exists groups. unfold grouped, filled.
    cbn [messages header current_lines current_length].
    split; [|split].
    + repeat split; auto. rewrite app_assoc, Hd. reflexivity.
    + split; [exact Hne|]. exists base. split; [exact Hb|].
      cbn [current_length current_lines].
      rewrite lines_length_app. cbn [lines_length]. lia.
    + destruct (current_lines st); discriminate.
Qed.

Lemma loop_filled count date ps : forall i st groups done,
  grouped st groups done -> filled st groups ->
  Forall (line_fits count date) (number_from i ps) ->
  exists groups',
    grouped (loop count date i ps st) groups' (done ++ number_from i ps) /\
    filled (loop count date i ps st) groups' /\
    (ps <> [] -> current_lines (loop count date i ps st) <> []).
Proof.
  induction ps as [|p ps IH]; intros i st groups done Hg Hf Hfit.
  - exists groups. cbn [loop number_from]. rewrite app_nil_r.
    split; [exact Hg | split; [exact Hf | congruence]].
  - cbn [loop number_from] in *. inversion Hfit as [|? ? Hp Hps]; subst.
    destruct (loop_body_filled count date st groups done i p Hg Hf Hp)
      as (g1 & Hg1 & Hf1 & Hne1).
    destruct (IH (i + 1) _ g1 _ Hg1 Hf1 Hps) as (g2 & Hg2 & Hf2 & Hne2).
    exists g2. rewrite <- app_assoc in Hg2.
    split; [exact Hg2 | split; [exact Hf2|]]. intros _.
    destruct ps as [|q ps]; [exact Hne1 | apply Hne2; discriminate].
Qed.

(** X3. When every line fits in a message of its own, every message of a
    directory that is not empty carries at least one line: no message is
    made of a header and a continuation note alone. *)
Theorem build_directory_messages_no_empty_message (p : profile) (ps : list profile)
    (chat_id : Z) (st : state) :
  Forall (line_fits (len (p :: ps)) (strftime_dmY_HM (clock (world st))))
         (number_from 1 (p :: ps)) ->
  exists groups : list (list str),
    Forall (fun g => g <> []) groups /\
    concat groups = number_from 1 (p :: ps) /\
    build_directory_messages (p :: ps) chat_id st =
      (Ok (render_groups
             (footer_template (len (p :: ps)) (strftime_dmY_HM (clock (world st))))
             0 groups),
       st).
Proof.
  intros Hfit.
  set (count := len (p :: ps)) in *. set (date := strftime_dmY_HM (clock (world st))) in *.
  set (st0 := {| messages := []; current_lines := []; current_length := len HEADER;
                 header := HEADER |}).
  assert (H0 : grouped st0 [] []) by (repeat split).
  assert (F0 : filled st0 []).
  { split; [constructor|]. exists (len HEADER). split; [vm_compute; discriminate|].
    simpl. lia. }
  destruct (loop_filled count date (p :: ps) 1 st0 [] [] H0 F0 Hfit)
    as (groups & (Hm & Hh & Hd) & (Hne & _) & Hcur).
  specialize (Hcur ltac:(discriminate)).
  exists (groups ++ [current_lines (loop count date 1 (p :: ps) st0)]).
  split; [|split].
  - apply Forall_app. split; [exact Hne|]. constructor; [exact Hcur | constructor].
  - rewrite concat_app. cbn [concat]. rewrite app_nil_r. exact Hd.
  - unfold build_directory_messages, bind, now, ret, build_directory_messages_at.
    fold count. fold date. fold st0.
    rewrite render_groups_snoc, Hm, Hh. reflexivity.
Qed.

(** * Further properties of the tables *)

(** The order of [ORDER BY added_at ASC]. *)
Definition added_before (a b : profile) : Prop :=
  PyStr.leb (added_at a) (added_at b) = true.

Lemma leb_total a b : PyStr.leb a b = false -> PyStr.leb b a = true.
Proof.
  revert b. induction a as [|x a IH]; intros [|y b]; simpl; try discriminate; auto.
  intros H. apply orb_false_iff in H. destruct H as (H1 & H2).
  apply Z.ltb_ge in H1.
  destruct (y <? x) eqn:E; [reflexivity|]. apply Z.ltb_ge in E.
  assert (x = y) by lia. subst y. rewrite Z.eqb_refl in *. simpl in *. auto.
Qed.

Lemma insert_by_added_at_perm p rows :
  Permutation (Sql.insert_by_added_at p rows) (p :: rows).
Proof.
  induction rows as [|q rows IH]; simpl; [reflexivity|].
  destruct (PyStr.leb _ _); [reflexivity|].
  rewrite IH. apply perm_swap.
Qed.

Lemma insert_by_added_at_sorted p rows :
  Sorted added_before rows -> Sorted added_before (Sql.insert_by_added_at p rows).
Proof.
  induction rows as [|q rows IH]; intros Hs; simpl.
  - repeat constructor.
  - destruct (PyStr.leb (added_at p) (added_at q)) eqn:E.
    + constructor; [exact Hs | constructor; exact E].
    + inversion Hs as [|? ? Hs' Hhd]; subst.
      constructor; [apply IH; exact Hs'|].
      destruct rows as [|r rows]; simpl.
      * constructor. apply leb_total. exact E.
      * destruct (PyStr.leb (added_at p) (added_at r)).
        -- constructor. apply leb_total. exact E.
        -- inversion Hhd; subst. constructor. assumption.
Qed.

Lemma select_profiles_ordered_perm rows :
  Permutation (Sql.select_profiles_ordered rows) rows.
Proof.
  unfold Sql.select_profiles_ordered. induction rows as [|p rows IH]; simpl; [reflexivity|].
  rewrite insert_by_added_at_perm. constructor. exact IH.
Qed.

(** X4. [get_all_profiles] changes nothing and returns every row of the
    table exactly once, in the order of their dates [added_at]. *)
Theorem get_all_profiles_sorted (st : state) :
  exists rows,
    get_all_profiles st = (Ok rows, st) /\
    Permutation rows (profiles (db st)) /\
    Sorted added_before rows.
Proof.
  exists (Sql.select_profiles_ordered (profiles (db st))).
  split; [reflexivity|]. split; [apply select_profiles_ordered_perm|].
  unfold Sql.select_profiles_ordered.
  induction (profiles (db st)) as [|p rows IH]; simpl; [constructor|].
  apply insert_by_added_at_sorted. exact IH.
Qed.


Lemma find_current_supersede_other chat_id other rows tail :
  other <> chat_id ->
  find (current_for other) tail = None ->
  find (current_for other) (Sql.supersede chat_id rows ++ tail) =
  find (current_for other) rows.
Proof.
  intros Hne Htail. unfold Sql.supersede.
  induction rows as [|r rows IH]; [exact Htail|].
  cbn [map app find]. rewrite IH.
  destruct (pin_chat_id r =? chat_id) eqn:E; [|reflexivity].
  apply Z.eqb_eq in E. unfold current_for.
  cbn [Sql.set_not_current pin_chat_id is_current].
  replace (pin_chat_id r =? other) with false by (symmetry; apply Z.eqb_neq; lia).
  reflexivity.
Qed.

Lemma select_current_saved_other chat_id msg_id count t other rows :
  other <> chat_id ->
  Sql.select_current other (saved chat_id msg_id count t rows) =
  Sql.select_current other rows.
Proof.
  intros Hne. unfold Sql.select_current, saved, Sql.insert_pinned.
  change (fun r => (pin_chat_id r =? other) && (is_current r =? 1))
    with (current_for other).
  apply find_current_supersede_other; [exact Hne|].
  cbn [find]. unfold current_for. cbn [pin_chat_id].
  replace (chat_id =? other) with false by (symmetry; apply Z.eqb_neq; lia).
  reflexivity.
Qed.

(** X5. After [save_pinned_message] for a chat, [get_current_pinned]
    of that chat returns the row just saved, with its message and count,
    and the current row of every other chat is the one it was. *)
Theorem save_pinned_message_then_get (chat_id msg_id count other : Z) (st : state) :
  other <> chat_id ->
  let st' := snd (save_pinned_message chat_id msg_id count st) in
  (exists row,
     fst (get_current_pinned chat_id st') = Ok (Some row) /\
     pin_chat_id row = chat_id /\ message_id row = msg_id /\
     profile_count row = count /\ is_current row = 1) /\
  fst (get_current_pinned other st') = fst (get_current_pinned other st).
Proof.
  intros Hne st'. subst st'. rewrite save_pinned_message_eq. cbn [snd].
  unfold get_current_pinned, bind, get_pinned, ret. cbn [fst db pinned_messages].
  split.
  - rewrite select_current_saved. eexists. split; [reflexivity|]. repeat split.
  - rewrite select_current_saved_other by exact Hne. reflexivity.
Qed.

(** * Further properties of the reconciliation *)

Definition is_bad_request (e : exn) : bool :=
  match e with BadRequest _ => true | _ => false end.

Lemma bind_raise {A B} (m : M A) (k : A -> M B) st e st' :
  m st = (Raise e, st') -> bind m k st = (Raise e, st').
Proof. intros H. unfold bind. rewrite H. reflexivity. Qed.

(** The state after a call of the transport has been logged. *)
Definition logged (st : state) (w : World) (cs : list call) : state :=
  {| world := w; db := db st; calls := calls st ++ cs |}.

(** What [pin_and_save] comes to, by the answer to the pin. *)
Inductive pin_result (chat_id n msg_id : Z) (st : state) : outcome unit * state -> Prop :=
| pin_accepted :
    fst (bot_pin_chat_message chat_id msg_id (world st)) = Ok tt ->
    pin_result chat_id n msg_id st
      (Ok tt,
       {| world := snd (bot_pin_chat_message chat_id msg_id (world st));
          db := {| profiles := profiles (db st);
                   pinned_messages :=
                     saved chat_id msg_id n
                       (clock (snd (bot_pin_chat_message chat_id msg_id (world st))))
                       (pinned_messages (db st)) |};
          calls := calls st ++ [PinChatMessage chat_id msg_id (Ok tt)] |})
| pin_refused e :
    fst (bot_pin_chat_message chat_id msg_id (world st)) = Raise (BadRequest e) ->
    pin_result chat_id n msg_id st
      (Ok tt,
       logged st (snd (bot_pin_chat_message chat_id msg_id (world st)))
              [PinChatMessage chat_id msg_id (Raise (BadRequest e))])
| pin_failed e :
    fst (bot_pin_chat_message chat_id msg_id (world st)) = Raise e ->
    is_bad_request e = false ->
    pin_result chat_id n msg_id st
      (Raise e,
       logged st (snd (bot_pin_chat_message chat_id msg_id (world st)))
              [PinChatMessage chat_id msg_id (Raise e)]).

Lemma pin_and_save_result chat_id msg_id n st :
  pin_result chat_id n msg_id st (pin_and_save chat_id msg_id n st).
Proof.
  destruct (fst (bot_pin_chat_message chat_id msg_id (world st))) as [[]|e] eqn:E.
  - rewrite pin_and_save_ok by exact E. apply pin_accepted. exact E.
  - destruct e as [msg| | |].
    + rewrite (pin_and_save_refused _ _ _ _ msg E). apply pin_refused. exact E.
    + assert (H : pin_and_save chat_id msg_id n st =
                  (Raise IntegrityError,
                   logged st (snd (bot_pin_chat_message chat_id msg_id (world st)))
                          [PinChatMessage chat_id msg_id (Raise IntegrityError)])).
      { unfold pin_and_save, try_except_BadRequest, bind, pin_chat_message, transport, logged.
        destruct (bot_pin_chat_message chat_id msg_id (world st)) as [r w].
        cbn [fst snd] in *. subst r. reflexivity. }
      rewrite H. apply pin_failed; [exact E | reflexivity].
    + assert (H : pin_and_save chat_id msg_id n st =
                  (Raise IndexError,
                   logged st (snd (bot_pin_chat_message chat_id msg_id (world st)))
                          [PinChatMessage chat_id msg_id (Raise IndexError)])).
      { unfold pin_and_save, try_except_BadRequest, bind, pin_chat_message, transport, logged.
        destruct (bot_pin_chat_message chat_id msg_id (world st)) as [r w].
        cbn [fst snd] in *. subst r. reflexivity. }
      rewrite H. apply pin_failed; [exact E | reflexivity].
    + assert (H : pin_and_save chat_id msg_id n st =
                  (Raise TelegramError,
                   logged st (snd (bot_pin_chat_message chat_id msg_id (world st)))
                          [PinChatMessage chat_id msg_id (Raise TelegramError)])).
      { unfold pin_and_save, try_except_BadRequest, bind, pin_chat_message, transport, logged.
        destruct (bot_pin_chat_message chat_id msg_id (world st)) as [r w].
        cbn [fst snd] in *. subst r. reflexivity. }
      rewrite H. apply pin_failed; [exact E | reflexivity].
Qed.

(** What the loop of sends comes to: all the texts sent, or the texts up
    to the first send that fails. *)
Inductive sends_result (chat_id : Z) (texts : list str) (last_msg : option Z)
    (st : state) : outcome (option Z) * state -> Prop :=
| sends_all ids w :
    List.length ids = List.length texts ->
    sends_result chat_id texts last_msg st
      (Ok (last_sent ids last_msg), logged st w (sent_calls chat_id texts ids))
| sends_until ids w w0 e :
    (List.length ids < List.length texts)%nat ->
    fst (bot_send_message chat_id (nth (List.length ids) texts []) thread_kwargs w0)
      = Raise e ->
    sends_result chat_id texts last_msg st
      (Raise e,
       logged st w
         (sent_calls chat_id (firstn (List.length ids) texts) ids
          ++ [SendMessage chat_id (nth (List.length ids) texts []) thread_kwargs (Raise e)])).

Lemma logged_logged st w1 cs1 w2 cs2 :
  logged (logged st w1 cs1) w2 cs2 = logged st w2 (cs1 ++ cs2).
Proof. unfold logged. cbn [db calls]. rewrite app_assoc. reflexivity. Qed.

Lemma send_loop_result chat_id cp texts : forall i last_msg st,
  0 < i \/ cp = None ->
  sends_result chat_id texts last_msg st (send_loop chat_id cp i texts last_msg st).
Proof.
  induction texts as [|txt rest IH]; intros i last_msg st Hi.
  - cbn [send_loop]. unfold ret.
    replace st with (logged st (world st) (sent_calls chat_id [] [])) at 2
      by (unfold logged, sent_calls; cbn; rewrite app_nil_r; destruct st; reflexivity).
    apply (sends_all chat_id [] last_msg st [] (world st)). reflexivity.
  - cbn [send_loop].
    replace ((i =? 0) && is_some cp) with false.
    2:{ destruct Hi as [Hi | ->]; [|symmetry; apply andb_false_r].
        replace (i =? 0) with false by (symmetry; apply Z.eqb_neq; lia). reflexivity. }
    unfold bind at 1. unfold send_message, transport.
    destruct (bot_send_message chat_id txt thread_kwargs (world st)) as [[m|e] w1] eqn:Es.
    + fold (logged st w1 [SendMessage chat_id txt thread_kwargs (Ok m)]).
      assert (Hi' : 0 < i + 1 \/ cp = None) by (destruct Hi; [left; lia | right; assumption]).
      destruct (IH (i + 1) (Some m)
                  (logged st w1 [SendMessage chat_id txt thread_kwargs (Ok m)]) Hi')
        as [ids w2 Hlen | ids w2 w0 e Hlen Hw0].
      * rewrite logged_logged.
        apply (sends_all chat_id (txt :: rest) last_msg st (m :: ids) w2).
        simpl. lia.
      * rewrite logged_logged.
        apply (sends_until chat_id (txt :: rest) last_msg st (m :: ids) w2 w0 e).
        -- simpl. lia.
        -- exact Hw0.
    + fold (logged st w1 [SendMessage chat_id txt thread_kwargs (Raise e)]).
      apply (sends_until chat_id (txt :: rest) last_msg st [] w1 (world st) e).
      * simpl. lia.
      * cbn [List.length nth]. rewrite Es. reflexivity.
Qed.


(** The texts are sent and the last message sent is pinned. *)
Definition after_sends (chat_id n : Z) (texts : list str) (st : state)
    (res : outcome unit * state) : Prop :=
  exists sres,
    sends_result chat_id texts None st sres /\
    match fst sres with
    | Raise e => res = (Raise e, snd sres)
    | Ok (Some msg_id) => pin_result chat_id n msg_id (snd sres) res
    | Ok None => False
    end.

(** The state after the edit of the message of the current row [c]. *)
Definition edit_logged (chat_id : Z) (c : pinned_message) (txt : str) (st : state) : state :=
  logged st (snd (bot_edit_message_text chat_id (message_id c) txt (world st)))
    [EditMessageText chat_id (message_id c) txt
       (fst (bot_edit_message_text chat_id (message_id c) txt (world st)))].

(** Every run of [reconcile], by the number of texts, the presence of a
    current row and the answers of the transport. *)
Definition reconcile_result (chat_id n : Z) (texts : list str)
    (cp : option pinned_message) (st : state) (res : outcome unit * state) : Prop :=
  match cp, texts with
  | Some c, [] => res = (Ok tt, st)
  | Some c, [txt] =>
      match fst (bot_edit_message_text chat_id (message_id c) txt (world st)) with
      | Ok _ => res = (Ok tt, edit_logged chat_id c txt st)
      | Raise e =>
          if is_bad_request e then res = (Ok tt, edit_logged chat_id c txt st)
          else res = (Raise e, edit_logged chat_id c txt st)
      end
  | Some c, txt :: rest =>
      match fst (bot_edit_message_text chat_id (message_id c) txt (world st)) with
      | Ok _ => after_sends chat_id n rest (edit_logged chat_id c txt st) res
      | Raise e =>
          if is_bad_request e
          then after_sends chat_id n rest (edit_logged chat_id c txt st) res
          else res = (Raise e, edit_logged chat_id c txt st)
      end
  | None, [] => res = (Raise IndexError, st)
  | None, _ :: _ => after_sends chat_id n texts st res
  end.

Lemma after_send_loop chat_id n cp i texts st (k : option Z -> M unit) :
  texts <> [] -> 0 < i \/ cp = None ->
  (forall msg_id, k (Some msg_id) = pin_and_save chat_id msg_id n) ->
  after_sends chat_id n texts st
    (bind (send_loop chat_id cp i texts None) k st).
Proof.
  intros Hne Hi Hk.
  pose proof (send_loop_result chat_id cp texts i None st Hi) as Hs.
  destruct (send_loop chat_id cp i texts None st) as [[[m|]|e] s2] eqn:E.
  - exists (Ok (Some m), s2). split; [exact Hs|]. cbn [fst snd].
    rewrite (bind_ok _ _ _ _ _ E), Hk. apply pin_and_save_result.
  - exfalso. inversion Hs as [ids w Hlen Hv | ids w w0 e Hlen Hw0]; subst.
    assert (Hids : ids <> []).
    { destruct ids; [|discriminate]. destruct texts; [contradiction | discriminate]. }
    rewrite (last_sent_nonempty ids None Hids) in Hv. discriminate.
  - exists (Raise e, s2). split; [exact Hs|]. cbn [fst snd].
    apply (bind_raise _ _ _ _ _ E).
Qed.

Lemma edit_first_result chat_id (texts : list str) c st :
  (len texts >? 1) = true ->
  edit_first chat_id texts (Some c) st =
  (match fst (bot_edit_message_text chat_id (message_id c) (nth 0 texts []) (world st)) with
   | Ok _ => Ok tt
   | Raise e => if is_bad_request e then Ok tt else Raise e
   end,
   edit_logged chat_id c (nth 0 texts []) st).
Proof.
  intros L. unfold edit_first. rewrite L.
  unfold try_except_BadRequest, edit_message_text, transport, edit_logged, logged.
  destruct (bot_edit_message_text chat_id (message_id c) (nth 0 texts []) (world st))
    as [[[]|[e| | |]] w]; reflexivity.
Qed.

Lemma reconcile_complete chat_id n texts cp st :
  reconcile_result chat_id n texts cp st (reconcile chat_id n texts cp st).
Proof.
  unfold reconcile_result.
  destruct cp as [c|]; destruct texts as [|t0 [|t1 rest]].
  - reflexivity.
  - unfold reconcile, edit_in_place, edit_first, edit_logged, logged.
    cbn [len List.length Z.of_nat Z.eqb Z.gtb Z.compare Pos.of_succ_nat Pos.eqb
         Pos.compare nth].
    unfold bind at 1. unfold try_except_BadRequest, bind, edit_message_text, transport.
    destruct (bot_edit_message_text chat_id (message_id c) t0 (world st))
      as [[[]|[e| | |]] w]; cbn [fst snd is_bad_request]; try reflexivity.
    destruct (contains NOT_MODIFIED (lower e)); reflexivity.
  - assert (L1 : (len (t0 :: t1 :: rest) =? 1) = false).
    { apply Z.eqb_neq. unfold len. cbn [List.length]. lia. }
    assert (L2 : (len (t0 :: t1 :: rest) >? 1) = true).
    { rewrite Z.gtb_ltb. apply Z.ltb_lt. unfold len. cbn [List.length]. lia. }
    unfold reconcile.
    rewrite (bind_ok _ _ st false st)
      by (unfold edit_in_place; rewrite L1; reflexivity).
    cbv beta iota.
    pose proof (edit_first_result chat_id (t0 :: t1 :: rest) c st L2) as He.
    cbn [nth] in He.
    destruct (fst (bot_edit_message_text chat_id (message_id c) t0 (world st)))
      as [u|e] eqn:Er.
    + rewrite (bind_ok _ _ _ _ _ He).
      change (send_loop chat_id (Some c) 0 (t0 :: t1 :: rest) None)
        with (send_loop chat_id (Some c) (0 + 1) (t1 :: rest) None).
      apply after_send_loop; [discriminate | left; lia | reflexivity].
    + destruct (is_bad_request e).
      * rewrite (bind_ok _ _ _ _ _ He).
        change (send_loop chat_id (Some c) 0 (t0 :: t1 :: rest) None)
          with (send_loop chat_id (Some c) (0 + 1) (t1 :: rest) None).
        apply after_send_loop; [discriminate | left; lia | reflexivity].
      * apply (bind_raise _ _ _ _ _ He).
  - reflexivity.
  - unfold reconcile.
    rewrite (bind_ok _ _ st false st) by reflexivity. cbv beta iota.
    rewrite (bind_ok _ _ st tt st) by reflexivity.
    apply after_send_loop; [discriminate | right; reflexivity | reflexivity].
  - unfold reconcile.
    rewrite (bind_ok _ _ st false st) by reflexivity. cbv beta iota.
    rewrite (bind_ok _ _ st tt st) by reflexivity.
    apply after_send_loop; [discriminate | right; reflexivity | reflexivity].
Qed.


(** What the sends and the pin after them come to, for texts that are
    not empty: the messages sent have the ids [ids]; a send fails and ends
    the run, or all the texts are sent and the last message is pinned,
    with the answer [pin]. *)
Lemma after_sends_outcome chat_id n (texts : list str) s0 res :
  texts <> [] ->
  after_sends chat_id n texts s0 res ->
  exists ids : list Z,
    ((List.length ids < List.length texts)%nat /\
     exists e,
       fst res = Raise e /\
       calls (snd res) =
         calls s0
         ++ sent_calls chat_id (firstn (List.length ids) texts) ids
         ++ [SendMessage chat_id (nth (List.length ids) texts []) thread_kwargs (Raise e)] /\
       db (snd res) = db s0)
    \/
    (List.length ids = List.length texts /\
     exists pin : outcome unit,
       calls (snd res) =
         calls s0 ++ sent_calls chat_id texts ids
         ++ [PinChatMessage chat_id (List.last ids 0) pin] /\
       match pin with
       | Ok _ =>
           fst res = Ok tt /\
           profiles (db (snd res)) = profiles (db s0) /\
           pinned_messages (db (snd res)) =
             saved chat_id (List.last ids 0) n (clock (world (snd res)))
                   (pinned_messages (db s0))
       | Raise e =>
           fst res = (if is_bad_request e then Ok tt else Raise e) /\
           db (snd res) = db s0
       end).
Proof.
  intros Hne (sres & Hs & Hres).
  inversion Hs as [ids w Hlen Hv | ids w w0 e Hlen Hw0]; subst sres; cbn [fst snd] in Hres.
  - assert (Hids : ids <> []).
    { destruct ids; [|discriminate]. destruct texts; [contradiction | discriminate]. }
    rewrite (last_sent_nonempty ids None Hids) in Hres.
    exists ids. right. split; [exact Hlen|].
    inversion Hres as [Hp Hr | e Hp Hr | e Hp Hb Hr]; subst res.
    + exists (Ok tt). unfold logged. cbn [fst snd calls db world profiles pinned_messages].
      split; [rewrite <- app_assoc; reflexivity|]. repeat split.
    + exists (Raise (BadRequest e)). unfold logged.
      cbn [fst snd calls db world is_bad_request].
      split; [rewrite <- app_assoc; reflexivity|]. split; reflexivity.
    + exists (Raise e). unfold logged. cbn [fst snd calls db world]. rewrite Hb.
      split; [rewrite <- app_assoc; reflexivity|]. split; reflexivity.
  - subst res. exists ids. left. split; [exact Hlen|]. exists e.
    unfold logged. cbn [fst snd calls db]. repeat split.
Qed.

(** C4, as the code has it.  With more than one text and a current row,
    the first call is the edit of the message of the current row to the
    first text.  An edit that fails with an error other than a
    [BadRequest] ends the run with that error, and nothing else is done.
    After an edit that succeeds or fails with a [BadRequest], the other
    texts are sent as new messages in input order, up to the first send
    that fails: a send that fails ends the run with its error, with nothing
    pinned and the database as it was.  When all the texts are sent, the
    last message sent is pinned.  If the pin succeeds, the run ends
    normally and the ledger is the old one with the flags of the rows of
    the chat cleared and a new row added: the new row is the current row
    of the chat, and refers to the last message sent, with the number of
    profiles given; in a ledger whose flags are 0 or 1, with at most one
    current row for a chat and the given row as current row of the chat,
    the flag of that row is the only thing cleared.  If the pin fails, the
    database is as it was: after a [BadRequest] the run ends normally,
    after another error it ends with that error. *)
Theorem reconcile_many_with_current (chat_id n : Z) (c0 c1 : str)
    (rest : list str) (cp : pinned_message) (st : state) :
  let res := reconcile chat_id n (c0 :: c1 :: rest) (Some cp) st in
  let edit := fst (bot_edit_message_text chat_id (message_id cp) c0 (world st)) in
  let edited := EditMessageText chat_id (message_id cp) c0 edit in
  (exists e,
     edit = Raise e /\ is_bad_request e = false /\
     fst res = Raise e /\
     calls (snd res) = calls st ++ [edited] /\
     db (snd res) = db st)
  \/
  (edit_swallowed edit /\
   exists ids : list Z,
     ((List.length ids < List.length (c1 :: rest))%nat /\
      exists e,
        fst res = Raise e /\
        calls (snd res) =
          calls st ++ [edited]
          ++ sent_calls chat_id (firstn (List.length ids) (c1 :: rest)) ids
          ++ [SendMessage chat_id (nth (List.length ids) (c1 :: rest) [])
                thread_kwargs (Raise e)] /\
        db (snd res) = db st)
     \/
     (List.length ids = List.length (c1 :: rest) /\
      exists pin : outcome unit,
        calls (snd res) =
          calls st ++ [edited]
          ++ sent_calls chat_id (c1 :: rest) ids
          ++ [PinChatMessage chat_id (List.last ids 0) pin] /\
        match pin with
        | Ok _ =>
            fst res = Ok tt /\
            profiles (db (snd res)) = profiles (db st) /\
            exists new_row : pinned_message,
              pinned_messages (db (snd res)) =
                Sql.supersede chat_id (pinned_messages (db st)) ++ [new_row] /\
              Sql.select_current chat_id (pinned_messages (db (snd res))) = Some new_row /\
              pin_chat_id new_row = chat_id /\
              message_id new_row = List.last ids 0 /\
              profile_count new_row = n /\
              is_current new_row = 1 /\
              (flags_ok (pinned_messages (db st)) ->
               one_current_per_chat (pinned_messages (db st)) ->
               Sql.select_current chat_id (pinned_messages (db st)) = Some cp ->
               exists before after : list pinned_message,
                 pinned_messages (db st) = before ++ cp :: after /\
                 pinned_messages (db (snd res)) =
                   before ++ Sql.set_not_current cp :: after ++ [new_row])
        | Raise e =>
            fst res = (if is_bad_request e then Ok tt else Raise e) /\
            db (snd res) = db st
        end)).
Proof.
  intros res edit edited.
  pose proof (reconcile_complete chat_id n (c0 :: c1 :: rest) (Some cp) st) as H.
  fold res in H. unfold reconcile_result in H. fold edit in H.
  assert (Hsends :
    after_sends chat_id n (c1 :: rest) (edit_logged chat_id cp c0 st) res ->
    edit_swallowed edit ->
    edit_swallowed edit /\
    exists ids : list Z,
      ((List.length ids < List.length (c1 :: rest))%nat /\
       exists e,
         fst res = Raise e /\
         calls (snd res) =
           calls st ++ [edited]
           ++ sent_calls chat_id (firstn (List.length ids) (c1 :: rest)) ids
           ++ [SendMessage chat_id (nth (List.length ids) (c1 :: rest) [])
                 thread_kwargs (Raise e)] /\
         db (snd res) = db st)
      \/
      (List.length ids = List.length (c1 :: rest) /\
       exists pin : outcome unit,
         calls (snd res) =
           calls st ++ [edited]
           ++ sent_calls chat_id (c1 :: rest) ids
           ++ [PinChatMessage chat_id (List.last ids 0) pin] /\
         match pin with
         | Ok _ =>
             fst res = Ok tt /\
             profiles (db (snd res)) = profiles (db st) /\
             exists new_row : pinned_message,
               pinned_messages (db (snd res)) =
                 Sql.supersede chat_id (pinned_messages (db st)) ++ [new_row] /\
               Sql.select_current chat_id (pinned_messages (db (snd res))) = Some new_row /\
               pin_chat_id new_row = chat_id /\
               message_id new_row = List.last ids 0 /\
               profile_count new_row = n /\
               is_current new_row = 1 /\
               (flags_ok (pinned_messages (db st)) ->
                one_current_per_chat (pinned_messages (db st)) ->
                Sql.select_current chat_id (pinned_messages (db st)) = Some cp ->
                exists before after : list pinned_message,
                  pinned_messages (db st) = before ++ cp :: after /\
                  pinned_messages (db (snd res)) =
                    before ++ Sql.set_not_current cp :: after ++ [new_row])
         | Raise e =>
             fst res = (if is_bad_request e then Ok tt else Raise e) /\
             db (snd res) = db st
         end)).
  { intros Ha Hsw. split; [exact Hsw|].
    destruct (after_sends_outcome chat_id n (c1 :: rest) _ res ltac:(discriminate) Ha)
      as (ids & [(Hlen & e & Hr & Hc & Hd) | (Hlen & pin & Hc & Hpin)]);
      exists ids; unfold edit_logged, logged in *; cbn [calls db] in *.
    - left. split; [exact Hlen|]. exists e. split; [exact Hr|].
      split; [|exact Hd]. rewrite Hc, <- app_assoc. reflexivity.
    - right. split; [exact Hlen|]. exists pin.
      split; [rewrite Hc, <- app_assoc; reflexivity|].
      destruct pin as [u|e]; [|exact Hpin].
      destruct Hpin as (Hr & Hp & Hs). split; [exact Hr|]. split; [exact Hp|].
      exists {| pin_id := Sql.next_id (Sql.supersede chat_id (pinned_messages (db st)));
                pin_chat_id := chat_id; message_id := List.last ids 0;
                profile_count := n; is_current := 1;
                created_at := isoformat (clock (world (snd res))) |}.
      split; [rewrite Hs; reflexivity|].
      split; [rewrite Hs; apply select_current_saved|].
      repeat (split; [reflexivity|]).
      intros Hflags Hone Hcur.
      destruct (supersede_exact chat_id _ cp Hflags Hone Hcur)
        as (before & after & Hrows & Hsup).
      exists before, after. split; [exact Hrows|].
      rewrite Hs. unfold saved, Sql.insert_pinned. rewrite Hsup, <- app_assoc.
      reflexivity. }
  destruct edit as [u|e] eqn:Ee.
  - right. apply Hsends; [exact H|]. left. destruct u. reflexivity.
  - destruct (is_bad_request e) eqn:Eb.
    + right. apply Hsends; [exact H|]. right.
      destruct e as [m| | |]; try discriminate. exists m. reflexivity.
    + left. exists e. rewrite H. unfold edit_logged, logged. cbn [fst snd calls db].
      fold edit. rewrite Ee. repeat split. exact Eb.
Qed.

(** The texts of the messages that were sent, in the order of the log. *)
Definition sent_texts (cs : list call) : list str :=
  flat_map (fun c => match c with
                     | SendMessage _ txt _ (Ok _) => [txt]
                     | _ => []
                     end) cs.

(** The exception a call ended with, if it did. *)
Definition raised (c : call) : option exn :=
  match c with
  | EditMessageText _ _ _ (Raise e) => Some e
  | SendMessage _ _ _ (Raise e) => Some e
  | PinChatMessage _ _ (Raise e) => Some e
  | ReplyText _ _ (Raise e) => Some e
  | SaveWebJson _ (Raise e) => Some e
  | _ => None
  end.

(** The texts [reconcile] has to send as new messages: all of them, or
    all but the first when there is a current row. *)
Definition to_send (cp : option pinned_message) (texts : list str) : list str :=
  if is_some cp then tl texts else texts.

Lemma sent_texts_app a b : sent_texts (a ++ b) = sent_texts a ++ sent_texts b.
Proof. unfold sent_texts. apply flat_map_app. Qed.

Lemma sent_texts_sent_calls chat_id texts : forall ids,
  sent_texts (sent_calls chat_id texts ids) = firstn (List.length ids) texts.
Proof.
  unfold sent_calls. induction texts as [|t texts IH]; intros [|m ids]; try reflexivity.
  simpl. rewrite <- IH. reflexivity.
Qed.

Lemma count_pins_sent_calls chat_id texts : forall ids,
  count_pins (sent_calls chat_id texts ids) = 0%nat.
Proof.
  unfold sent_calls, count_pins.
  induction texts as [|t texts IH]; intros [|m ids]; try reflexivity.
  simpl. apply IH.
Qed.

(** What a run that starts in [s0] has done: the calls [cs] it has added
    to the log, the texts sent, and whether the ledger was written. *)
Definition run_shape (chat_id n : Z) (expected : list str) (s0 : state)
    (res : outcome unit * state) (cs : list call) : Prop :=
  calls (snd res) = calls s0 ++ cs /\
  profiles (db (snd res)) = profiles (db s0) /\
  (exists k, sent_texts cs = firstn k expected) /\
  (count_pins cs <= 1)%nat /\
  ((db (snd res) = db s0 /\
    (fst res = Ok tt \/
     exists e pre c, fst res = Raise e /\ cs = pre ++ [c] /\ raised c = Some e))
   \/
   (exists msg_id pre,
      fst res = Ok tt /\
      cs = pre ++ [PinChatMessage chat_id msg_id (Ok tt)] /\
      pinned_messages (db (snd res)) =
        saved chat_id msg_id n (clock (world (snd res))) (pinned_messages (db s0)))).

Lemma after_sends_shape chat_id n texts s0 res :
  after_sends chat_id n texts s0 res ->
  exists cs, run_shape chat_id n texts s0 res cs.
Proof.
  intros (sres & Hs & Hres).
  inversion Hs as [ids w Hlen Hv | ids w w0 e Hlen Hw0]; subst sres; cbn [fst snd] in Hres.
  - destruct (last_sent ids None) as [m|] eqn:El; [|contradiction].
    inversion Hres as [Hp Hr | e Hp Hr | e Hp Hb Hr]; subst res.
    + exists (sent_calls chat_id texts ids ++ [PinChatMessage chat_id m (Ok tt)]).
      unfold run_shape, logged. cbn [fst snd calls db world profiles pinned_messages].
      split; [rewrite app_assoc; reflexivity|]. split; [reflexivity|].
      split. { exists (List.length ids). rewrite sent_texts_app, sent_texts_sent_calls.
               cbn. apply app_nil_r. }
      split. { rewrite count_pins_app, count_pins_sent_calls. cbn. lia. }
      right. exists m, (sent_calls chat_id texts ids). repeat split.
    + exists (sent_calls chat_id texts ids
              ++ [PinChatMessage chat_id m (Raise (BadRequest e))]).
      unfold run_shape, logged. cbn [fst snd calls db world profiles pinned_messages].
      split; [rewrite app_assoc; reflexivity|]. split; [reflexivity|].
      split. { exists (List.length ids). rewrite sent_texts_app, sent_texts_sent_calls.
               cbn. apply app_nil_r. }
      split. { rewrite count_pins_app, count_pins_sent_calls. cbn. lia. }
      left. split; [reflexivity | left; reflexivity].
    + exists (sent_calls chat_id texts ids ++ [PinChatMessage chat_id m (Raise e)]).
      unfold run_shape, logged. cbn [fst snd calls db world profiles pinned_messages].
      split; [rewrite app_assoc; reflexivity|]. split; [reflexivity|].
      split. { exists (List.length ids). rewrite sent_texts_app, sent_texts_sent_calls.
               cbn. apply app_nil_r. }
      split. { rewrite count_pins_app, count_pins_sent_calls. cbn. lia. }
      left. split; [reflexivity|]. right.
      exists e, (sent_calls chat_id texts ids), (PinChatMessage chat_id m (Raise e)).
      repeat split.
  - subst res.
    exists (sent_calls chat_id (firstn (List.length ids) texts) ids
            ++ [SendMessage chat_id (nth (List.length ids) texts []) thread_kwargs (Raise e)]).
    unfold run_shape, logged. cbn [fst snd calls db world profiles pinned_messages].
    split; [reflexivity|]. split; [reflexivity|].
    split. { exists (List.length ids). rewrite sent_texts_app, sent_texts_sent_calls.
             cbn. rewrite app_nil_r, firstn_firstn, Nat.min_id. reflexivity. }
    split. { rewrite count_pins_app, count_pins_sent_calls. cbn. lia. }
    left. split; [reflexivity|]. right.
    exists e, (sent_calls chat_id (firstn (List.length ids) texts) ids),
      (SendMessage chat_id (nth (List.length ids) texts []) thread_kwargs (Raise e)).
    repeat split.
Qed.

Lemma run_shape_after_edit chat_id n expected st c txt res cs :
  run_shape chat_id n expected (edit_logged chat_id c txt st) res cs ->
  run_shape chat_id n expected st res
    (EditMessageText chat_id (message_id c) txt
       (fst (bot_edit_message_text chat_id (message_id c) txt (world st))) :: cs).
Proof.
  unfold run_shape, edit_logged, logged. cbn [calls db].
  intros (Hc & Hp & Hk & Hn & Hd). split; [rewrite Hc, <- app_assoc; reflexivity|].
  split; [exact Hp|]. split.
  { destruct Hk as (k & Hk). exists k.
    change (sent_texts (?c0 :: cs)) with (sent_texts [c0] ++ sent_texts cs).
    cbn. exact Hk. }
  split; [exact Hn|].
  destruct Hd as [(Hdb & Hr) | (m & pre & Hr & Hcs & Hsaved)].
  - left. split; [exact Hdb|]. destruct Hr as [Hr | (e & pre & c0 & Hr & Hcs & Hraised)].
    + left. exact Hr.
    + right. exists e, (EditMessageText chat_id (message_id c) txt
                          (fst (bot_edit_message_text chat_id (message_id c) txt (world st)))
                        :: pre), c0.
      rewrite Hcs. repeat split; assumption.
  - right. exists m, (EditMessageText chat_id (message_id c) txt
                        (fst (bot_edit_message_text chat_id (message_id c) txt (world st)))
                      :: pre).
    rewrite Hcs. repeat split; assumption.
Qed.

Lemma run_shape_edit_only chat_id n expected st c txt :
  (forall e, fst (bot_edit_message_text chat_id (message_id c) txt (world st)) = Raise e ->
             is_bad_request e = true) ->
  run_shape chat_id n expected st (Ok tt, edit_logged chat_id c txt st)
    [EditMessageText chat_id (message_id c) txt
       (fst (bot_edit_message_text chat_id (message_id c) txt (world st)))].
Proof.
  intros _. unfold run_shape, edit_logged, logged. cbn [fst snd calls db].
  split; [reflexivity|]. split; [reflexivity|].
  split; [exists 0%nat; reflexivity|]. split; [cbn; lia|].
  left. split; [reflexivity | left; reflexivity].
Qed.

Lemma run_shape_edit_raised chat_id n expected st c txt e :
  fst (bot_edit_message_text chat_id (message_id c) txt (world st)) = Raise e ->
  run_shape chat_id n expected st (Raise e, edit_logged chat_id c txt st)
    [EditMessageText chat_id (message_id c) txt
       (fst (bot_edit_message_text chat_id (message_id c) txt (world st)))].
Proof.
  intros He. unfold run_shape, edit_logged, logged. cbn [fst snd calls db].
  split; [reflexivity|]. split; [reflexivity|].
  split; [exists 0%nat; reflexivity|]. split; [cbn; lia|].
  left. split; [reflexivity|]. right.
  exists e, [], (EditMessageText chat_id (message_id c) txt
                   (fst (bot_edit_message_text chat_id (message_id c) txt (world st)))).
  split; [reflexivity|]. split; [reflexivity|]. rewrite He. reflexivity.
Qed.

(** The shape of every run of [reconcile] that has something to work on:
    a current row or at least one text. *)
Lemma reconcile_shape chat_id n texts cp st :
  cp <> None \/ texts <> [] ->
  exists cs,
    run_shape chat_id n (to_send cp texts) st (reconcile chat_id n texts cp st) cs.
Proof.
  intros Hin. pose proof (reconcile_complete chat_id n texts cp st) as H.
  unfold reconcile_result in H.
  destruct cp as [c|]; destruct texts as [|t0 [|t1 rest]]; cbn [to_send is_some tl].
  - rewrite H. exists []. unfold run_shape. cbn [fst snd]. rewrite app_nil_r.
    split; [reflexivity|]. split; [reflexivity|]. split; [exists 0%nat; reflexivity|].
    split; [cbn; lia|]. left. split; [reflexivity | left; reflexivity].
  - destruct (fst (bot_edit_message_text chat_id (message_id c) t0 (world st)))
      as [u|e] eqn:E.
    + rewrite H. eexists. apply run_shape_edit_only.
      intros e He. rewrite E in He. discriminate.
    + destruct (is_bad_request e) eqn:Eb; rewrite H; eexists.
      * apply run_shape_edit_only. intros e' He. rewrite E in He.
        injection He as <-. exact Eb.
      * apply run_shape_edit_raised. exact E.
  - destruct (fst (bot_edit_message_text chat_id (message_id c) t0 (world st)))
      as [u|e] eqn:E.
    + destruct (after_sends_shape _ _ _ _ _ H) as (cs & Hcs).
      eexists. apply run_shape_after_edit. exact Hcs.
    + destruct (is_bad_request e) eqn:Eb.
      * destruct (after_sends_shape _ _ _ _ _ H) as (cs & Hcs).
        eexists. apply run_shape_after_edit. exact Hcs.
      * rewrite H. eexists. apply run_shape_edit_raised. exact E.
  - destruct Hin as [Hin | Hin]; contradiction.
  - apply after_sends_shape. exact H.
  - apply after_sends_shape. exact H.
Qed.


Lemma build_directory_messages_at_nonempty t ps chat_id :
  build_directory_messages_at t ps chat_id <> [].
Proof.
  unfold build_directory_messages_at. destruct ps as [|p ps]; [discriminate|].
  intros H. apply app_eq_nil in H. destruct H as (_ & H). discriminate.
Qed.

(** X6. Without a current row, when the sends and the pin succeed,
    [reconcile] sends every text as a new message in input order, pins the
    last message sent and records it: the new row is the current row of
    the chat, with the number of profiles given, and the rows the chat had
    are kept with their flags cleared. *)
Theorem reconcile_without_current (chat_id n : Z) (t0 : str) (rest : list str)
    (st : state) :
  sends_succeed -> pins_succeed ->
  let res := reconcile chat_id n (t0 :: rest) None st in
  exists (ids : list Z) (new_row : pinned_message),
    List.length ids = List.length (t0 :: rest) /\
    fst res = Ok tt /\
    calls (snd res) =
      calls st ++ sent_calls chat_id (t0 :: rest) ids
      ++ [PinChatMessage chat_id (List.last ids 0) (Ok tt)] /\
    pinned_messages (db (snd res)) =
      Sql.supersede chat_id (pinned_messages (db st)) ++ [new_row] /\
    pin_chat_id new_row = chat_id /\ message_id new_row = List.last ids 0 /\
    profile_count new_row = n /\ is_current new_row = 1 /\
    Sql.select_current chat_id (pinned_messages (db (snd res))) = Some new_row.
Proof.
  intros Hsend Hpin res. subst res.
  pose proof (reconcile_complete chat_id n (t0 :: rest) None st) as H.
  cbn [reconcile_result] in H. destruct H as (sres & Hs & Hres).
  inversion Hs as [ids w Hlen Hv | ids w w0 e Hlen Hw0]; subst sres; cbn [fst snd] in Hres.
  2:{ destruct (Hsend chat_id (nth (List.length ids) (t0 :: rest) []) thread_kwargs w0)
        as (m & Hm). rewrite Hm in Hw0. discriminate. }
  assert (Hids : ids <> []) by (destruct ids; [discriminate Hlen | discriminate]).
  rewrite (last_sent_nonempty ids None Hids) in Hres.
  inversion Hres as [Hp Hr | e Hp Hr | e Hp Hb Hr];
    try (rewrite Hpin in Hp; discriminate).
  exists ids. eexists. unfold logged. cbn [fst snd calls db world pinned_messages].
  split; [exact Hlen|]. split; [reflexivity|].
  split; [rewrite <- app_assoc; reflexivity|].
  split; [unfold saved, Sql.insert_pinned; reflexivity|].
  repeat (split; [reflexivity|]).
  apply select_current_saved.
Qed.

(** X7. Whatever the transport answers, [reconcile] writes the
    database only in one way: after a pin that succeeded, which is then the
    last call, it saves the pinned message as the current row of the chat.
    In every other run the database is the one it was. *)
Theorem reconcile_writes_only_after_pin (chat_id n : Z) (texts : list str)
    (cp : option pinned_message) (st : state) :
  let res := reconcile chat_id n texts cp st in
  db (snd res) = db st \/
  exists msg_id pre,
    fst res = Ok tt /\
    calls (snd res) = calls st ++ pre ++ [PinChatMessage chat_id msg_id (Ok tt)] /\
    profiles (db (snd res)) = profiles (db st) /\
    pinned_messages (db (snd res)) =
      saved chat_id msg_id n (clock (world (snd res))) (pinned_messages (db st)).
Proof.
  intros res. subst res.
  destruct cp as [c|] eqn:Ec; [|destruct texts as [|t0 rest] eqn:Et].
  2:{ left. reflexivity. }
  all: rewrite <- ?Ec, <- ?Et.
  all: match goal with |- context [reconcile _ _ ?tx ?c0 _] =>
         destruct (reconcile_shape chat_id n tx c0 st) as (cs & Hc & Hp & _ & _ & Hd);
           [subst; first [left; discriminate | right; discriminate]|] end.
  all: destruct Hd as [(Hdb & _) | (m & pre & Hr & Hcs & Hsaved)];
         [left; exact Hdb | right].
  all: exists m, pre; rewrite Hc, Hcs; repeat split; assumption.
Qed.

(** X8. Whatever the transport answers, the messages [reconcile] sends
    are the texts it has to send, taken from the first on in input order
    and none twice: all the texts, or all but the first when there is a
    current row, whose message stands for the first text.  It pins at most
    once. *)
Theorem reconcile_sends_in_order (chat_id n : Z) (texts : list str)
    (cp : option pinned_message) (st : state) :
  let res := reconcile chat_id n texts cp st in
  exists cs k,
    calls (snd res) = calls st ++ cs /\
    sent_texts cs = firstn k (to_send cp texts) /\
    (count_pins cs <= 1)%nat.
Proof.
  intros res. subst res.
  destruct cp as [c|] eqn:Ec; [|destruct texts as [|t0 rest] eqn:Et].
  2:{ exists [], 0%nat. cbn. rewrite app_nil_r. repeat split. lia. }
  all: rewrite <- ?Ec, <- ?Et.
  all: match goal with |- context [reconcile _ _ ?tx ?c0 _] =>
         destruct (reconcile_shape chat_id n tx c0 st) as (cs & Hc & _ & (k & Hk) & Hn & _);
           [subst; first [left; discriminate | right; discriminate]|] end.
  all: exists cs, k; repeat split; assumption.
Qed.

(** X9. When [update_pinned_directory] ends with an exception, that
    exception is the one its last call on the transport ended with, and
    the database is the one it was: the function raises nothing of its own
    and writes nothing before failing. *)
Theorem update_pinned_directory_raises (chat_id : Z) (st : state) (e : exn) :
  fst (update_pinned_directory chat_id st) = Raise e ->
  db (snd (update_pinned_directory chat_id st)) = db st /\
  exists pre c,
    calls (snd (update_pinned_directory chat_id st)) = calls st ++ pre ++ [c] /\
    raised c = Some e.
Proof.
  rewrite update_pinned_directory_eq. intros He.
  match goal with |- context [reconcile _ ?n0 ?tx ?c0 _] =>
    destruct (reconcile_shape chat_id n0 tx c0 st) as (cs & Hc & _ & _ & _ & Hd) end.
  { right. apply build_directory_messages_at_nonempty. }
  destruct Hd as [(Hdb & Hr) | (m & pre & Hr & _)]; [|rewrite Hr in He; discriminate].
  split; [exact Hdb|].
  destruct Hr as [Hr | (e' & pre & c & Hr & Hcs & Hraised)]; [rewrite Hr in He; discriminate|].
  rewrite Hr in He. injection He as ->.
  exists pre, c. rewrite Hc, Hcs. split; [reflexivity | exact Hraised].
Qed.

Lemma after_sends_completes chat_id n texts s0 res :
  sends_succeed ->
  (forall m w e, fst (bot_pin_chat_message chat_id m w) = Raise e -> is_bad_request e = true) ->
  after_sends chat_id n texts s0 res -> fst res = Ok tt.
Proof.
  intros Hsend Hpin (sres & Hs & Hres).
  inversion Hs as [ids w Hlen Hv | ids w w0 e Hlen Hw0]; subst sres; cbn [fst snd] in Hres.
  - destruct (last_sent ids None) as [m|]; [|contradiction].
    inversion Hres as [Hp Hr | e Hp Hr | e Hp Hb Hr]; try reflexivity.
    rewrite (Hpin _ _ _ Hp) in Hb. discriminate.
  - destruct (Hsend chat_id (nth (List.length ids) texts []) thread_kwargs w0) as (m & Hm).
    rewrite Hm in Hw0. discriminate.
Qed.

(** X10. When the sends succeed and an edit or a pin fails only with a
    [BadRequest], [update_pinned_directory] ends normally: a refused edit
    or pin is never passed on to the caller. *)
Theorem update_pinned_directory_completes (chat_id : Z) (st : state) :
  sends_succeed ->
  (forall m txt w e,
     fst (bot_edit_message_text chat_id m txt w) = Raise e -> is_bad_request e = true) ->
  (forall m w e,
     fst (bot_pin_chat_message chat_id m w) = Raise e -> is_bad_request e = true) ->
  fst (update_pinned_directory chat_id st) = Ok tt.
Proof.
  intros Hsend Hedit Hpin. rewrite update_pinned_directory_eq.
  match goal with |- context [reconcile _ ?n0 ?tx ?c0 _] =>
    pose proof (reconcile_complete chat_id n0 tx c0 st) as H;
    pose proof (build_directory_messages_at_nonempty (clock (world st))
                  (Sql.select_profiles_ordered (profiles (db st))) chat_id) as Hne;
    destruct tx as [|t0 [|t1 rest]]; [contradiction | |];
    destruct c0 as [c|] end;
    unfold reconcile_result in H.
  - destruct (fst (bot_edit_message_text chat_id (message_id c) t0 (world st))) eqn:E.
    + rewrite H. reflexivity.
    + rewrite (Hedit _ _ _ _ E) in H. rewrite H. reflexivity.
  - eapply after_sends_completes; eassumption.
  - destruct (fst (bot_edit_message_text chat_id (message_id c) t0 (world st))) eqn:E.
    + eapply after_sends_completes; eassumption.
    + rewrite (Hedit _ _ _ _ E) in H. eapply after_sends_completes; eassumption.
  - eapply after_sends_completes; eassumption.
Qed.

(** X11. With a current row, an edit that fails with an error other
    than a [BadRequest] (a timeout, say) ends [reconcile] at once with that
    error, also when there are several texts: nothing is sent, nothing is
    pinned and the database is not written. *)
Theorem reconcile_edit_error_propagates (chat_id n : Z) (t0 : str) (rest : list str)
    (c : pinned_message) (st : state) (e : exn) :
  fst (bot_edit_message_text chat_id (message_id c) t0 (world st)) = Raise e ->
  is_bad_request e = false ->
  let res := reconcile chat_id n (t0 :: rest) (Some c) st in
  fst res = Raise e /\
  db (snd res) = db st /\
  calls (snd res) =
    calls st ++ [EditMessageText chat_id (message_id c) t0 (Raise e)].
Proof.
  intros He Hb res. subst res.
  pose proof (reconcile_complete chat_id n (t0 :: rest) (Some c) st) as H.
  unfold reconcile_result in H.
  assert (Hres : reconcile chat_id n (t0 :: rest) (Some c) st
                 = (Raise e, edit_logged chat_id c t0 st)).
  { destruct rest; rewrite He, Hb in H; exact H. }
  rewrite Hres. unfold edit_logged, logged. cbn [fst snd db calls]. rewrite He.
  repeat split.
Qed.


(** * Further properties of the profiles *)

Lemma existsb_eqb_In k l : existsb (PyStr.eqb k) l = true <-> In k l.
Proof.
  rewrite existsb_exists. split.
  - intros (x & Hx & He). apply PyStr.eqb_eq in He. subst. exact Hx.
  - intros H. exists k. split; [exact H | apply PyStr.eqb_eq; reflexivity].
Qed.

Lemma distinct_NoDup l : Sql.distinct l = true -> NoDup l.
Proof.
  induction l as [|k l IH]; intros H; [constructor|].
  simpl in H. apply andb_prop in H. destruct H as (H1 & H2).
  constructor; [|apply IH; exact H2].
  intros Hin. apply existsb_eqb_In in Hin. rewrite Hin in H1. discriminate.
Qed.

Lemma find_snoc {A} (f : A -> bool) l x :
  find f (l ++ [x]) =
  match find f l with
  | Some y => Some y
  | None => if f x then Some x else None
  end.
Proof.
  induction l as [|y l IH]; simpl; [reflexivity|]. destruct (f y); [reflexivity | exact IH].
Qed.

Lemma find_none_not_in uid rows :
  Sql.select_profile_by_user uid rows = None -> ~ In uid (map telegram_user_id rows).
Proof.
  unfold Sql.select_profile_by_user. intros H Hin.
  apply in_map_iff in Hin. destruct Hin as (p & Hp & Hin).
  pose proof (find_none _ _ H p Hin) as Hf. simpl in Hf.
  rewrite Hp, Z.eqb_refl in Hf. discriminate.
Qed.

Lemma rowcount_by_user_pos uid rows :
  (Store.rowcount_by_user uid rows >? 0) = is_some (Sql.select_profile_by_user uid rows).
Proof.
  unfold Store.rowcount_by_user, Sql.select_profile_by_user, Store.owned_by, len.
  induction rows as [|p rows IH]; [reflexivity|].
  cbn [filter find]. destruct (telegram_user_id p =? uid); [|exact IH].
  cbn [List.length is_some]. rewrite Z.gtb_ltb. apply Z.ltb_lt. lia.
Qed.

(** The state with another table of profiles. *)
Definition with_profiles (st : state) (rows : list profile) : state :=
  {| world := world st;
     db := {| profiles := rows; pinned_messages := pinned_messages (db st) |};
     calls := calls st |}.

(** X12. [add_profile] for a user without a profile and a token that is
    not in the table returns [True]; the profile is then the one
    [get_profile_by_user] returns for that user, with the token and names
    given, the date of the clock, no consent for the web and no custom
    name, and the profile of every other user is the one it was. *)
Theorem add_profile_then_lookup (new_npub : str) (uid other : Z)
    (uname : option str) (name : str) (st : state) :
  Sql.select_profile_by_user uid (profiles (db st)) = None ->
  ~ In new_npub (map npub (profiles (db st))) ->
  other <> uid ->
  let res := add_profile new_npub uid uname name st in
  fst res = Ok true /\
  fst (get_profile_by_user uid (snd res)) =
    Ok (Some {| npub := new_npub; telegram_user_id := uid;
                telegram_username := uname; telegram_name := Some name;
                added_at := isoformat (clock (world st));
                web_consent := 0; custom_name := None |}) /\
  fst (get_profile_by_user other (snd res)) = fst (get_profile_by_user other st).
Proof.
  intros Hnone Hfree Hne res. subst res.
  unfold add_profile. rewrite (bind_ok _ _ st (profiles (db st)) st) by reflexivity.
  rewrite (bind_ok _ _ st (clock (world st)) st) by reflexivity.
  unfold Sql.insert_profile.
  destruct (existsb (PyStr.eqb new_npub) (map npub (profiles (db st)))) eqn:E.
  { apply existsb_eqb_In in E. contradiction. }
  unfold get_profile_by_user, put_profiles, get_profiles. unfold bind, ret.
  cbn [fst snd db profiles]. unfold Sql.select_profile_by_user in *.
  rewrite !find_snoc, Hnone. cbn [telegram_user_id]. rewrite Z.eqb_refl.
  split; [reflexivity|]. split; [reflexivity|].
  replace (uid =? other) with false by (symmetry; apply Z.eqb_neq; lia).
  destruct (find (fun p : profile => telegram_user_id p =? other) (profiles (db st)));
    reflexivity.
Qed.

(** X13. [remove_profile] returns whether the user had a profile;
    afterwards the user has none, the other profiles are all there, in
    their order, and the ledger and the log are untouched. *)
Theorem remove_profile_removes (uid : Z) (st : state) :
  let res := remove_profile uid st in
  fst res = Ok (is_some (Sql.select_profile_by_user uid (profiles (db st)))) /\
  fst (get_profile_by_user uid (snd res)) = Ok None /\
  profiles (db (snd res)) =
    filter (fun p => negb (telegram_user_id p =? uid)) (profiles (db st)) /\
  pinned_messages (db (snd res)) = pinned_messages (db st) /\
  calls (snd res) = calls st.
Proof.
  intros res. subst res. unfold remove_profile, get_profile_by_user, get_profiles, put_profiles.
  unfold bind, ret. cbn [fst snd db profiles pinned_messages calls].
  rewrite rowcount_by_user_pos.
  split; [reflexivity|]. split; [|repeat split].
  f_equal. unfold Sql.select_profile_by_user, Store.delete_by_user, Store.owned_by.
  induction (profiles (db st)) as [|p rows IH]; [reflexivity|].
  cbn [filter]. destruct (telegram_user_id p =? uid) eqn:E; cbn [negb]; [exact IH|].
  cbn [find]. rewrite E. exact IH.
Qed.

Lemma in_select_profiles_ordered p rows :
  In p (Sql.select_profiles_ordered rows) <-> In p rows.
Proof.
  split; apply Permutation_in;
    [apply select_profiles_ordered_perm | symmetry; apply select_profiles_ordered_perm].
Qed.

(** X14. After [set_web_consent] a profile of the user is in the list of
    [get_web_profiles] exactly when the consent given is [True]; whether
    the profile of another user is in that list is not changed. *)
Theorem set_web_consent_web_profiles (uid : Z) (consent : bool) (st : state) (p : profile) :
  let st' := snd (set_web_consent uid consent st) in
  forall web web', fst (get_web_profiles st) = Ok web ->
                   fst (get_web_profiles st') = Ok web' ->
  (In p (profiles (db st')) -> telegram_user_id p = uid ->
   (In p web' <-> consent = true)) /\
  (telegram_user_id p <> uid -> (In p web' <-> In p web)).
Proof.
  intros st' web web' Hweb Hweb'. subst st'.
  unfold set_web_consent, get_web_profiles, bind, get_profiles, put_profiles, ret in *.
  cbn [fst snd db profiles] in *. injection Hweb as <-. injection Hweb' as <-.
  rewrite !in_select_profiles_ordered, !filter_In.
  unfold Store.update_consent, Store.owned_by. split.
  - intros Hin Hu. split.
    + intros (_ & Hc). apply in_map_iff in Hin. destruct Hin as (o & Ho & _).
      destruct (telegram_user_id o =? uid) eqn:E.
      * subst p. cbn [Store.set_consent web_consent] in Hc.
        destruct consent; [reflexivity | discriminate].
      * subst p. apply Z.eqb_neq in E. contradiction.
    + intros ->. split; [exact Hin|].
      apply in_map_iff in Hin. destruct Hin as (o & Ho & _).
      destruct (telegram_user_id o =? uid) eqn:E.
      * subst p. reflexivity.
      * subst p. apply Z.eqb_neq in E. contradiction.
  - intros Hne. split; intros (Hin & Hc); (split; [|exact Hc]).
    + apply in_map_iff in Hin. destruct Hin as (o & Ho & Hin).
      destruct (telegram_user_id o =? uid) eqn:E.
      * subst p. apply Z.eqb_eq in E. cbn [Store.set_consent telegram_user_id] in Hne.
        contradiction.
      * subst p. exact Hin.
    + apply in_map_iff. exists p. split; [|exact Hin].
      replace (telegram_user_id p =? uid) with false by (symmetry; apply Z.eqb_neq; lia).
      reflexivity.
Qed.

(** X15. After [set_custom_name_by_npub] with a name that is not empty,
    the profile with that token is shown under that name, in the directory
    and in the exported document, and is otherwise as it was; every other
    profile is untouched.  The function returns whether the token was in
    the table. *)
Theorem set_custom_name_by_npub_renames (key name : str) (st : state) :
  name <> [] ->
  let res := set_custom_name_by_npub key (Some name) st in
  fst res = Ok (existsb (fun p => PyStr.eqb (npub p) key) (profiles (db st))) /\
  Forall2 (fun o n =>
             (npub o = key ->
              get_display_name n = name /\ get_display_name_clean n = name /\
              npub n = npub o /\ telegram_user_id n = telegram_user_id o /\
              web_consent n = web_consent o /\ added_at n = added_at o) /\
             (npub o <> key -> n = o))
          (profiles (db st)) (profiles (db (snd res))).
Proof.
  intros Hname res. subst res.
  unfold set_custom_name_by_npub, bind, get_profiles, put_profiles, ret.
  cbn [fst snd db profiles]. split.
  - f_equal. unfold Store.rowcount_by_npub, Store.has_npub, len.
    induction (profiles (db st)) as [|p rows IH]; [reflexivity|].
    cbn [filter existsb]. destruct (PyStr.eqb (npub p) key); [|exact IH].
    cbn [List.length orb]. rewrite Z.gtb_ltb. apply Z.ltb_lt. lia.
  - unfold Store.update_custom_name, Store.has_npub.
    induction (profiles (db st)) as [|p rows IH]; cbn [map]; constructor; [|exact IH].
    destruct (PyStr.eqb (npub p) key) eqn:E.
    + split; [|intros Hne; apply PyStr.eqb_eq in E; contradiction].
      intros _. unfold get_display_name, get_display_name_clean.
      cbn [Store.set_custom custom_name npub telegram_user_id web_consent added_at].
      destruct name as [|c name]; [contradiction|]. cbn [truthy or_empty]. repeat split.
    + split; [|reflexivity]. intros He. subst key.
      assert (PyStr.eqb (npub p) (npub p) = true) by (apply PyStr.eqb_eq; reflexivity).
      congruence.
Qed.


(** * Further properties of the handler of messages *)

(** What follows a write of the table in [handle_message]: the reply, the
    update of the pinned directory and the export. *)
Definition tail_after (reply_to : Z) (r : reply) (chat_id : Z) : M unit :=
  reply_text reply_to r ;;; update_pinned_directory chat_id ;;; save_web_json.

Lemma tail_after_keeps_profiles reply_to r chat_id st :
  profiles (db (snd (tail_after reply_to r chat_id st))) = profiles (db st).
Proof.
  assert (H : respects keeps_profiles (tail_after reply_to r chat_id)).
  { unfold tail_after.
    repeat first [ exact keeps_profiles_refl
                 | exact keeps_profiles_trans
                 | exact keeps_profiles_save
                 | apply respects_update_pinned_directory
                 | apply respects_save_web_json
                 | apply respects_transport
                 | apply respects_bind
                 | intros _ ]. }
  apply H.
Qed.

Lemma add_profile_eq new_npub uid uname name st :
  add_profile new_npub uid uname name st =
  match Sql.insert_profile new_npub uid uname name (isoformat (clock (world st)))
          (profiles (db st)) with
  | Some rows' => (Ok true, with_profiles st rows')
  | None => (Ok false, st)
  end.
Proof.
  unfold add_profile. rewrite (bind_ok _ _ st (profiles (db st)) st) by reflexivity.
  rewrite (bind_ok _ _ st (clock (world st)) st) by reflexivity.
  destruct (Sql.insert_profile _ _ _ _ _ _); reflexivity.
Qed.

(** [handle_message] on a message it reads a token in. *)
Lemma handle_message_accepted upd msg m0 more st :
  upd_message upd = Some msg ->
  accepted msg ->
  npub_findall (or_empty (text msg)) = m0 :: more ->
  handle_message upd st =
  match Sql.select_profile_by_user (user_id (from_user msg)) (profiles (db st)) with
  | Some ex =>
      if PyStr.eqb (npub ex) (lower m0)
      then reply_text (msg_message_id msg) ReplyAlreadyRegistered st
      else
        match Sql.update_npub (lower m0) (user_id (from_user msg)) (profiles (db st)) with
        | None => (Raise IntegrityError, st)
        | Some rows' =>
            tail_after (msg_message_id msg) ReplyNpubUpdated (msg_chat_id msg)
                       (with_profiles st rows')
        end
  | None =>
      match Sql.insert_profile (lower m0) (user_id (from_user msg))
              (username (from_user msg)) (full_name (from_user msg))
              (isoformat (clock (world st))) (profiles (db st)) with
      | None => reply_text (msg_message_id msg) ReplyNpubTaken st
      | Some rows' =>
          tail_after (msg_message_id msg) (ReplyProfileAdded (lower m0)) (msg_chat_id msg)
                     (with_profiles st rows')
      end
  end.
Proof.
  intros Hmsg (Htext & Hchat & Hthread) Hfind.
  unfold handle_message. rewrite Hmsg, Htext. cbn [negb].
  replace (negb (ALLOWED_CHAT_ID =? 0) && negb (msg_chat_id msg =? ALLOWED_CHAT_ID))
    with false.
  2:{ destruct Hchat as [-> | ->]; [reflexivity|].
      rewrite Z.eqb_refl, andb_false_r. reflexivity. }
  match goal with |- context [if ?b then ret tt else _] =>
    replace b with false end.
  2:{ destruct Hthread as [-> | ->]; [reflexivity|].
      rewrite Z.eqb_refl, andb_false_r. reflexivity. }
  rewrite Hfind.
  rewrite (bind_ok _ _ st
             (Sql.select_profile_by_user (user_id (from_user msg)) (profiles (db st))) st)
    by reflexivity.
  destruct (Sql.select_profile_by_user _ _) as [ex|].
  - destruct (PyStr.eqb (npub ex) (lower m0)); [reflexivity|].
    rewrite (bind_ok _ _ st (profiles (db st)) st) by reflexivity.
    destruct (Sql.update_npub _ _ _) as [rows'|]; [|reflexivity].
    rewrite (bind_ok _ _ st tt (with_profiles st rows')) by reflexivity.
    reflexivity.
  - pose proof (add_profile_eq (lower m0) (user_id (from_user msg))
                  (username (from_user msg)) (full_name (from_user msg)) st) as Ha.
    destruct (Sql.insert_profile _ _ _ _ _ _) as [rows'|].
    + rewrite (bind_ok _ _ _ _ _ Ha). reflexivity.
    + rewrite (bind_ok _ _ _ _ _ Ha). reflexivity.
Qed.

(** The messages [handle_message] passes over. *)
Definition ignored (upd : update) : Prop :=
  match upd_message upd with
  | None => True
  | Some msg =>
      truthy (text msg) = false \/
      (ALLOWED_CHAT_ID <> 0 /\ msg_chat_id msg <> ALLOWED_CHAT_ID) \/
      (ALLOWED_THREAD_ID <> 0 /\ message_thread_id msg <> Some ALLOWED_THREAD_ID) \/
      npub_findall (or_empty (text msg)) = []
  end.

Lemma handle_message_cases upd :
  ignored upd \/
  exists msg m0 more,
    upd_message upd = Some msg /\ accepted msg /\
    npub_findall (or_empty (text msg)) = m0 :: more.
Proof.
  unfold ignored, accepted. destruct (upd_message upd) as [msg|]; [|left; exact I].
  destruct (truthy (text msg)) eqn:Et; [|left; left; reflexivity].
  destruct (Z.eq_dec ALLOWED_CHAT_ID 0) as [Hc0 | Hc0];
    destruct (Z.eq_dec (msg_chat_id msg) ALLOWED_CHAT_ID) as [Hc | Hc];
    try (left; right; left; split; assumption).
  all: destruct (Z.eq_dec ALLOWED_THREAD_ID 0) as [Ht0 | Ht0].
  all: try (destruct (message_thread_id msg) as [t|] eqn:Em;
            [destruct (Z.eq_dec t ALLOWED_THREAD_ID) as [Ht | Ht]
            | left; right; right; left; split; [assumption | discriminate]];
            [subst t | left; right; right; left; split; [assumption | congruence]]).
  all: destruct (npub_findall (or_empty (text msg))) as [|m0 more] eqn:Ef;
         [left; right; right; right; reflexivity|].
  all: right; exists msg, m0, more; repeat split; auto.
Qed.

Lemma handle_message_ignored_eq (upd : update) (st : state) :
  ignored upd -> handle_message upd st = (Ok tt, st).
Proof.
  unfold ignored, handle_message. destruct (upd_message upd) as [msg|]; [|reflexivity].
  intros [Ht | [(Hc0 & Hc) | [(Ht0 & Ht) | Hf]]].
  - rewrite Ht. reflexivity.
  - destruct (negb (truthy (text msg))); [reflexivity|].
    replace (negb (ALLOWED_CHAT_ID =? 0) && negb (msg_chat_id msg =? ALLOWED_CHAT_ID))
      with true; [reflexivity|].
    symmetry. apply andb_true_iff. split; apply negb_true_iff, Z.eqb_neq; assumption.
  - destruct (negb (truthy (text msg))); [reflexivity|].
    destruct (negb (ALLOWED_CHAT_ID =? 0) && negb (msg_chat_id msg =? ALLOWED_CHAT_ID));
      [reflexivity|].
    match goal with |- context [if ?b then ret tt else _] =>
      replace b with true; [reflexivity|] end.
    symmetry. apply andb_true_iff. split; [apply negb_true_iff, Z.eqb_neq; assumption|].
    apply negb_true_iff. destruct (message_thread_id msg) as [t|]; [|reflexivity].
    apply Z.eqb_neq. congruence.
  - destruct (negb (truthy (text msg))); [reflexivity|].
    destruct (negb (ALLOWED_CHAT_ID =? 0) && negb (msg_chat_id msg =? ALLOWED_CHAT_ID));
      [reflexivity|].
    match goal with |- context [if ?b then ret tt else _] =>
      destruct b; [reflexivity|] end.
    rewrite Hf. reflexivity.
Qed.

(** X16. [handle_message] passes over an update without a message, a
    message without text, a message of another chat or thread when one is
    configured, and a text in which no token is found: it ends normally,
    makes no call and changes nothing. *)
Theorem handle_message_ignores (upd : update) (st : state) :
  ignored upd ->
  handle_message upd st = (Ok tt, st).
Proof. intros H. apply handle_message_ignored_eq. exact H. Qed.

(** The table of profiles has one row for a token and one row for a
    user. *)
Definition store_ok (rows : list profile) : Prop :=
  NoDup (map npub rows) /\ NoDup (map telegram_user_id rows).

Lemma NoDup_snoc {A} (l : list A) x : NoDup l -> ~ In x l -> NoDup (l ++ [x]).
Proof.
  induction l as [|y l IH]; intros Hn Hx.
  - constructor; [intros [] | constructor].
  - inversion Hn; subst. cbn [app]. constructor.
    + rewrite in_app_iff. intros [H | [H | []]]; [contradiction|].
      subst. apply Hx. left. reflexivity.
    + apply IH; [assumption|]. intros H. apply Hx. right. exact H.
Qed.

Lemma store_ok_update_npub key uid rows rows' :
  store_ok rows -> Sql.update_npub key uid rows = Some rows' -> store_ok rows'.
Proof.
  unfold Sql.update_npub. intros (_ & Hu) H.
  destruct (Sql.distinct _) eqn:E; [|discriminate]. injection H as <-.
  split; [apply distinct_NoDup; exact E|].
  rewrite map_map.
  replace (map (fun p => telegram_user_id
                           (if telegram_user_id p =? uid then Sql.set_npub key p else p)) rows)
    with (map telegram_user_id rows); [exact Hu|].
  apply map_ext. intros p. destruct (_ =? _); reflexivity.
Qed.

Lemma store_ok_insert_profile key uid uname name t rows rows' :
  store_ok rows -> Sql.select_profile_by_user uid rows = None ->
  Sql.insert_profile key uid uname name t rows = Some rows' -> store_ok rows'.
Proof.
  unfold Sql.insert_profile. intros (Hk & Hu) Hnone H.
  destruct (existsb _ _) eqn:E; [discriminate|]. injection H as <-.
  split; rewrite map_app; cbn [map npub telegram_user_id]; apply NoDup_snoc; try assumption.
  - intros Hin. apply existsb_eqb_In in Hin. rewrite Hin in E. discriminate.
  - apply find_none_not_in. exact Hnone.
Qed.

Lemma NoDup_distinct l : NoDup l -> Sql.distinct l = true.
Proof.
  induction 1 as [|k l Hk Hl IH]; [reflexivity|].
  cbn [Sql.distinct]. rewrite IH, andb_true_r.
  destruct (existsb (PyStr.eqb k) l) eqn:E; [|reflexivity].
  apply existsb_eqb_In in E. contradiction.
Qed.

(** The UPDATE of the token goes through when the table has one row for
    a token and one row for a user, and the new token is in no row. *)
Lemma update_npub_free key uid rows :
  store_ok rows -> ~ In key (map npub rows) ->
  exists rows', Sql.update_npub key uid rows = Some rows'.
Proof.
  intros (Hn & Hu) Hk. unfold Sql.update_npub.
  rewrite NoDup_distinct; [eexists; reflexivity|].
  induction rows as [|r rows IH]; [constructor|].
  cbn [map] in *. inversion Hn as [|? ? Hr Hn']; inversion Hu as [|? ? Hur Hu']; subst.
  assert (Hk' : ~ In key (map npub rows)) by (intros H; apply Hk; right; exact H).
  constructor; [|apply IH; assumption].
  rewrite map_map. intros Hin. apply in_map_iff in Hin. destruct Hin as (q & Hq & Hin).
  destruct (telegram_user_id r =? uid) eqn:Er; destruct (telegram_user_id q =? uid) eqn:Eq;
    cbn [npub Sql.set_npub] in Hq.
  - apply Z.eqb_eq in Er, Eq. apply Hur. apply in_map_iff. exists q.
    split; [congruence | exact Hin].
  - apply Hk'. apply in_map_iff. exists q. split; [exact Hq | exact Hin].
  - apply Hk. left. symmetry. exact Hq.
  - apply Hr. apply in_map_iff. exists q. split; [exact Hq | exact Hin].
Qed.

(** C9. When a user who has a profile sends a different token, the table
    of profiles afterwards is the one the UPDATE of the token gives, or the
    old one when the UPDATE is refused because the token is the key of
    another row.  Every row keeps its owner, custom name, consent, date
    and Telegram names; the rows of other users are untouched; and the row
    of the sender has the new token, in lower case, unless the UPDATE was
    refused.  The UPDATE goes through when the table has one row for a
    token and one row for a user, and the new token is in no row. *)
Theorem handle_message_rebind_frame (upd : update) (msg : message)
    (m0 : str) (more : list str) (ex : profile) (st : state) :
  upd_message upd = Some msg ->
  accepted msg ->
  npub_findall (or_empty (text msg)) = m0 :: more ->
  Sql.select_profile_by_user (user_id (from_user msg)) (profiles (db st)) = Some ex ->
  npub ex <> lower m0 ->
  let st' := snd (handle_message upd st) in
  let updated :=
    Sql.update_npub (lower m0) (user_id (from_user msg)) (profiles (db st)) in
  profiles (db st') =
    match updated with
    | Some rows' => rows'
    | None => profiles (db st)
    end /\
  Forall2 (fun o n => same_but_npub o n /\
                      (telegram_user_id o <> user_id (from_user msg) -> n = o) /\
                      (telegram_user_id o = user_id (from_user msg) ->
                       match updated with
                       | Some _ => npub n = lower m0
                       | None => n = o
                       end))
          (profiles (db st)) (profiles (db st')) /\
  (store_ok (profiles (db st)) ->
   ~ In (lower m0) (map npub (profiles (db st))) ->
   updated <> None).
Proof.
  intros Hmsg (Htext & Hchat & Hthread) Hfind Hsel Hne st' updated.
  assert (Hp : profiles (db st') =
    match updated with
    | Some rows' => rows'
    | None => profiles (db st)
    end).
  { subst st' updated. unfold handle_message. rewrite Hmsg, Htext. cbn [negb].
    replace (negb (ALLOWED_CHAT_ID =? 0) && negb (msg_chat_id msg =? ALLOWED_CHAT_ID))
      with false.
    2:{ destruct Hchat as [-> | ->]; [reflexivity|].
        rewrite Z.eqb_refl, andb_false_r. reflexivity. }
    match goal with |- context [if ?b then ret tt else _] =>
      replace b with false end.
    2:{ destruct Hthread as [-> | ->]; [reflexivity|].
        rewrite Z.eqb_refl, andb_false_r. reflexivity. }
    rewrite Hfind.
    unfold bind at 1. unfold get_profile_by_user. unfold bind at 1.
    cbn [get_profiles ret]. rewrite Hsel.
    destruct (PyStr.eqb (npub ex) (lower m0)) eqn:Eq.
    { apply PyStr.eqb_eq in Eq. contradiction. }
    unfold bind at 1. cbn [get_profiles].
    destruct (Sql.update_npub _ _ _) as [rows'|]; [|reflexivity].
    unfold bind at 1. cbn [put_profiles].
    match goal with |- profiles (db (snd (?k ?s))) = _ =>
      assert (Hk : respects keeps_profiles k) end.
    { repeat first [ exact keeps_profiles_refl
                   | exact keeps_profiles_trans
                   | exact keeps_profiles_save
                   | apply respects_update_pinned_directory
                   | apply respects_save_web_json
                   | apply respects_transport
                   | apply respects_bind
                   | intros _ ]. }
    rewrite (Hk _). reflexivity. }
  split; [exact Hp|]. split.
  - rewrite Hp. subst updated.
    destruct (Sql.update_npub _ _ _) as [rows'|] eqn:Eu.
    + eapply Forall2_impl; [|apply (update_npub_frame _ _ _ _ Eu)].
      simpl. intros o n (H1 & H2 & H3). split; [exact H1 | split; [exact H2 | exact H3]].
    + eapply Forall2_impl; [|apply Forall2_same_profiles].
      simpl. intros o n (H & ->). split; [exact H | split; intros _; reflexivity].
  - intros Hok Hfree. subst updated.
    destruct (update_npub_free (lower m0) (user_id (from_user msg)) _ Hok Hfree) as (rows' & ->).
    discriminate.
Qed.

Lemma reply_text_keeps_db reply_to r st :
  db (snd (reply_text reply_to r st)) = db st.
Proof.
  unfold reply_text, transport. destruct (bot_reply_text reply_to r (world st)). reflexivity.
Qed.

(** X17. [handle_message] keeps the table of profiles well formed: when
    no token and no user has two rows before, none has after, whatever the
    message and whatever the transport answers. *)
Theorem handle_message_keeps_store (upd : update) (st : state) :
  store_ok (profiles (db st)) ->
  store_ok (profiles (db (snd (handle_message upd st)))).
Proof.
  intros Hok. destruct (handle_message_cases upd) as [Hi | (msg & m0 & more & Hm & Ha & Hf)].
  - rewrite (handle_message_ignored_eq upd st Hi). exact Hok.
  - rewrite (handle_message_accepted upd msg m0 more st Hm Ha Hf).
    destruct (Sql.select_profile_by_user _ _) as [ex|] eqn:Es.
    + destruct (PyStr.eqb _ _); [rewrite reply_text_keeps_db; exact Hok|].
      destruct (Sql.update_npub _ _ _) as [rows'|] eqn:Eu; [|exact Hok].
      rewrite tail_after_keeps_profiles. cbn [with_profiles db profiles].
      eapply store_ok_update_npub; eassumption.
    + destruct (Sql.insert_profile _ _ _ _ _ _) as [rows'|] eqn:Ei;
        [|rewrite reply_text_keeps_db; exact Hok].
      rewrite tail_after_keeps_profiles. cbn [with_profiles db profiles].
      eapply store_ok_insert_profile; eassumption.
Qed.

(** X18. A user without a profile who sends a token that is not in the
    table is registered: one row is added at the end of the table, with the
    token in lower case, the user and the names of the sender, no custom
    name and no consent for the web, so that the list of
    [get_web_profiles] is the one it was. *)
Theorem handle_message_registers (upd : update) (msg : message) (m0 : str)
    (more : list str) (st : state) :
  upd_message upd = Some msg ->
  accepted msg ->
  npub_findall (or_empty (text msg)) = m0 :: more ->
  Sql.select_profile_by_user (user_id (from_user msg)) (profiles (db st)) = None ->
  ~ In (lower m0) (map npub (profiles (db st))) ->
  let st' := snd (handle_message upd st) in
  profiles (db st') =
    profiles (db st)
    ++ [{| npub := lower m0;
           telegram_user_id := user_id (from_user msg);
           telegram_username := username (from_user msg);
           telegram_name := Some (full_name (from_user msg));
           added_at := isoformat (clock (world st));
           web_consent := 0;
           custom_name := None |}] /\
  fst (get_web_profiles st') = fst (get_web_profiles st).
Proof.
  intros Hm Ha Hf Hnone Hfree st'.
  assert (Hp : profiles (db st') =
    profiles (db st)
    ++ [{| npub := lower m0;
           telegram_user_id := user_id (from_user msg);
           telegram_username := username (from_user msg);
           telegram_name := Some (full_name (from_user msg));
           added_at := isoformat (clock (world st));
           web_consent := 0;
           custom_name := None |}]).
  { subst st'. rewrite (handle_message_accepted upd msg m0 more st Hm Ha Hf), Hnone.
    unfold Sql.insert_profile.
    destruct (existsb _ _) eqn:E; [apply existsb_eqb_In in E; contradiction|].
    rewrite tail_after_keeps_profiles. reflexivity. }
  split; [exact Hp|].
  unfold get_web_profiles, bind, get_profiles, ret. cbn [fst]. rewrite Hp.
  rewrite filter_app. cbn [filter web_consent Z.eqb]. rewrite app_nil_r. reflexivity.
Qed.

(** X19. A token that is already in the table is not taken over: when
    the sender has no profile and the token is registered by someone, the
    only effect is the reply that the token is taken; when the sender's own
    profile has that token, the only effect is the reply that it is
    registered.  The database is not written and no message of the
    directory is edited, sent or pinned. *)
Theorem handle_message_known_token (upd : update) (msg : message) (m0 : str)
    (more : list str) (r : reply) (st : state) :
  upd_message upd = Some msg ->
  accepted msg ->
  npub_findall (or_empty (text msg)) = m0 :: more ->
  (Sql.select_profile_by_user (user_id (from_user msg)) (profiles (db st)) = None /\
   In (lower m0) (map npub (profiles (db st))) /\ r = ReplyNpubTaken)
  \/
  (exists ex,
     Sql.select_profile_by_user (user_id (from_user msg)) (profiles (db st)) = Some ex /\
     npub ex = lower m0 /\ r = ReplyAlreadyRegistered) ->
  let res := handle_message upd st in
  db (snd res) = db st /\
  calls (snd res) = calls st ++ [ReplyText (msg_message_id msg) r (fst res)].
Proof.
  intros Hm Ha Hf Hcase res.
  assert (Hres : res = reply_text (msg_message_id msg) r st).
  { subst res. rewrite (handle_message_accepted upd msg m0 more st Hm Ha Hf).
    destruct Hcase as [(Hs & Hin & ->) | (ex & Hs & He & ->)]; rewrite Hs.
    - unfold Sql.insert_profile.
      apply existsb_eqb_In in Hin. rewrite Hin. reflexivity.
    - apply PyStr.eqb_eq in He. rewrite He. reflexivity. }
  rewrite Hres. unfold reply_text, transport.
  destruct (bot_reply_text (msg_message_id msg) r (world st)). split; reflexivity.
Qed.


(** * Further properties of the export *)

(** X20. The document that [export_web_json] serialises holds one entry
    for every profile whose owner has consented, and none for any other
    profile; each entry carries the token, the display name without [@],
    the link and the date of its profile; the count of the document is the
    number of its entries and its date is the reading of the clock.
    Nothing is changed. *)
Theorem export_web_json_data_consented (st : state) :
  exists doc,
    export_web_json_data st = (Ok doc, st) /\
    doc_updated_at doc = isoformat (clock (world st)) /\
    doc_total_profiles doc = len (doc_profiles doc) /\
    forall e,
      In e (doc_profiles doc) <->
      exists p, In p (profiles (db st)) /\ web_consent p = 1 /\
                e = {| entry_npub := npub p;
                       entry_display_name := get_display_name_clean p;
                       entry_njump_url := lit "https://njump.me/" ++ npub p;
                       entry_added_at := added_at p |}.
Proof.
  eexists. split; [reflexivity|]. cbn [doc_updated_at doc_total_profiles doc_profiles].
  split; [reflexivity|]. split.
  { unfold len. rewrite length_map. reflexivity. }
  intros e. rewrite in_map_iff. split.
  - intros (p & He & Hin). apply (proj1 (in_select_profiles_ordered _ _)) in Hin.
    apply filter_In in Hin. destruct Hin as (Hin & Hc). apply Z.eqb_eq in Hc.
    exists p. split; [exact Hin|]. split; [exact Hc|]. subst e. reflexivity.
  - intros (p & Hin & Hc & He). exists p. split; [subst e; reflexivity|].
    apply (proj2 (in_select_profiles_ordered _ _)). apply filter_In. split; [exact Hin|].
    apply Z.eqb_eq. exact Hc.
Qed.

(** ** The commands *)

(** [context.bot.get_chat_member(chat_id, user_id)], of which only
    [status] is read, and [update.message.reply_text] of a command.  These
    calls act on the world; the log [calls] keeps the calls of the
    directory engine only. *)
Variable bot_get_chat_member : Z -> Z -> World -> outcome str * World.
Variable bot_reply_notice : notice -> World -> outcome unit * World.

Definition unlogged {A} (f : World -> outcome A * World) : M A :=
  fun st =>
    let (r, w) := f (world st) in
    (r, {| world := w; db := db st; calls := calls st |}).

Definition get_chat_member (chat_id uid : Z) : M str :=
  unlogged (bot_get_chat_member chat_id uid).

Definition reply_notice (n : notice) : M unit := unlogged (bot_reply_notice n).

Definition ADMINISTRATOR : str := Eval vm_compute in lit "administrator".
Definition CREATOR : str := Eval vm_compute in lit "creator".

(** [status in ("administrator", "creator")] *)
Definition is_admin_status (status : str) : bool :=
  PyStr.eqb status ADMINISTRATOR || PyStr.eqb status CREATOR.

(** The check at the head of [cmd_renombrar] and [cmd_directorio]:
    [try: member = ...; if member.status not in (...): reply; return
     except BadRequest: pass].  The result says whether the command has
    returned. *)
Definition refuse_non_admin (chat_id uid : Z) : M bool :=
  try_except_BadRequest
    (status <- get_chat_member chat_id uid ;;
     if negb (is_admin_status status)
     then reply_notice NoticeOnlyAdmins ;;; ret true
     else ret false)
    (fun _ => ret false).

(** [cmd_borrarme] *)
Definition cmd_borrarme (msg : message) : M unit :=
  deleted <- remove_profile (user_id (from_user msg)) ;;
  if deleted then
    reply_notice NoticeRemoved ;;;
    (if negb (ALLOWED_CHAT_ID =? 0) && (msg_chat_id msg =? ALLOWED_CHAT_ID)
     then update_pinned_directory (msg_chat_id msg)
     else ret tt) ;;;
    save_web_json
  else reply_notice NoticeNoProfile.

(** [cmd_websi] *)
Definition cmd_websi (msg : message) : M unit :=
  updated <- set_web_consent (user_id (from_user msg)) true ;;
  if updated then reply_notice NoticeWebOn ;;; save_web_json
  else reply_notice NoticeRegisterFirst.

(** [cmd_webno] *)
Definition cmd_webno (msg : message) : M unit :=
  updated <- set_web_consent (user_id (from_user msg)) false ;;
  if updated then reply_notice NoticeWebOff ;;; save_web_json
  else reply_notice NoticeRegisterFirst.

Definition RESET : str := Eval vm_compute in lit "--reset".

(** [(p.get("telegram_username") or "").lower() == username] *)
Definition username_is (username : str) (p : profile) : bool :=
  PyStr.eqb (lower (if truthy (telegram_username p)
                    then or_empty (telegram_username p) else []))
            username.

(** The search of [cmd_renombrar]: by [@username], or by the beginning of
    the token; the first profile found.  The term and the user names are
    lowered with [lower], which is [str.lower] on the alphabet given
    there. *)
Definition find_profile (search_term : str) (all_profiles : list profile)
  : option profile :=
  if startswith (lit "@") search_term
  then find (username_is (lower (skipn 1 search_term))) all_profiles
  else find (fun p => startswith (lower search_term) (npub p)) all_profiles.

(** [profile.get("telegram_username") or profile.get("telegram_name") or "Anónimo"] *)
Definition original_name (p : profile) : str :=
  if truthy (telegram_username p) then or_empty (telegram_username p)
  else if truthy (telegram_name p) then or_empty (telegram_name p)
  else ANONIMO.

(** [cmd_renombrar]; [args] is [context.args]. *)
Definition cmd_renombrar (msg : message) (args : list str) : M unit :=
  let chat_id := msg_chat_id msg in
  returned <- refuse_non_admin chat_id (user_id (from_user msg)) ;;
  if returned then ret tt else
  match args with
  | [] | [_] => reply_notice NoticeRenameUsage
  | search_term :: rest =>
      let new_name := join (lit " ") rest in
      all_profiles <- get_all_profiles ;;
      match find_profile search_term all_profiles with
      | None => reply_notice (NoticeNotFound search_term)
      | Some prof =>
          (if PyStr.eqb new_name RESET then
             set_custom_name_by_npub (npub prof) None ;;;
             reply_notice (NoticeNameReset (original_name prof))
           else
             set_custom_name_by_npub (npub prof) (Some new_name) ;;;
             reply_notice (NoticeNameUpdated new_name (prefix 20 (npub prof)))) ;;;
          update_pinned_directory chat_id ;;;
          save_web_json
      end
  end.

(** [cmd_directorio] *)
Definition cmd_directorio (msg : message) : M unit :=
  let chat_id := msg_chat_id msg in
  returned <- refuse_non_admin chat_id (user_id (from_user msg)) ;;
  if returned then ret tt else
  update_pinned_directory chat_id ;;;
  save_web_json ;;;
  reply_notice NoticeDirectoryUpdated.


(** * Properties of the commands *)

Lemma respects_unlogged (R : database -> database -> Prop) {A}
    (f : World -> outcome A * World) :
  (forall d, R d d) -> respects R (unlogged f).
Proof. intros Hr st. unfold unlogged. destruct (f (world st)). apply Hr. Qed.

Lemma set_custom_name_by_npub_eq key name st :
  set_custom_name_by_npub key name st =
  (Ok (Store.rowcount_by_npub key (profiles (db st)) >? 0),
   with_profiles st (Store.update_custom_name name key (profiles (db st)))).
Proof. reflexivity. Qed.

Lemma set_web_consent_eq uid consent st :
  set_web_consent uid consent st =
  (Ok (Store.rowcount_by_user uid (profiles (db st)) >? 0),
   with_profiles st (Store.update_consent (if consent then 1 else 0) uid (profiles (db st)))).
Proof. reflexivity. Qed.

Lemma remove_profile_eq uid st :
  remove_profile uid st =
  (Ok (Store.rowcount_by_user uid (profiles (db st)) >? 0),
   with_profiles st (Store.delete_by_user uid (profiles (db st)))).
Proof. reflexivity. Qed.

(** The state in another world of the transport. *)
Definition in_world (st : state) (w : World) : state :=
  {| world := w; db := db st; calls := calls st |}.

(** What the check of the administrator comes to.  It lets the command go
    on when the user is an administrator or the creator, when the check is
    refused with a [BadRequest], and also when the user is neither but the
    notice to the user is refused with a [BadRequest]. *)
Lemma refuse_non_admin_result chat_id uid st :
  exists r w,
    refuse_non_admin chat_id uid st = (r, in_world st w) /\
    (r = Ok true ->
     exists status,
       fst (bot_get_chat_member chat_id uid (world st)) = Ok status /\
       is_admin_status status = false).
Proof.
  unfold refuse_non_admin, try_except_BadRequest, get_chat_member, reply_notice, unlogged.
  unfold bind, ret. cbn [world db calls].
  destruct (bot_get_chat_member chat_id uid (world st)) as [[status|e] w1] eqn:E1;
    cbn [fst world db calls].
  - destruct (is_admin_status status) eqn:Ea; cbn [negb world db calls].
    + exists (Ok false), w1. split; [reflexivity | discriminate].
    + destruct (bot_reply_notice NoticeOnlyAdmins w1) as [[u|e] w2].
      * exists (Ok true), w2. split; [reflexivity|]. intros _. exists status. auto.
      * destruct e; eexists _, w2; (split; [reflexivity | discriminate]).
  - destruct e; eexists _, w1; (split; [reflexivity | discriminate]).
Qed.


Lemma reply_notice_result n st :
  reply_notice n st =
  (fst (bot_reply_notice n (world st)), in_world st (snd (bot_reply_notice n (world st)))).
Proof.
  unfold reply_notice, unlogged, in_world. destruct (bot_reply_notice n (world st)).
  reflexivity.
Qed.

Lemma bind_then_keeps {A B} (m : M A) (k : A -> M B) st :
  (forall a, respects keeps_profiles (k a)) ->
  profiles (db (snd (bind m k st))) = profiles (db (snd (m st))).
Proof.
  intros Hk. unfold bind. destruct (m st) as [[a|e] s1]; [apply Hk | reflexivity].
Qed.

Lemma keeps_profiles_update_pinned_directory chat_id :
  respects keeps_profiles (update_pinned_directory chat_id).
Proof.
  apply respects_update_pinned_directory;
    [exact keeps_profiles_refl | exact keeps_profiles_trans | exact keeps_profiles_save].
Qed.

Lemma keeps_profiles_save_web_json : respects keeps_profiles save_web_json.
Proof.
  apply respects_save_web_json; [exact keeps_profiles_refl | exact keeps_profiles_trans].
Qed.

Lemma keeps_profiles_reply_notice n : respects keeps_profiles (reply_notice n).
Proof. apply respects_unlogged. exact keeps_profiles_refl. Qed.

Lemma keeps_profiles_bind {A B} (m : M A) (k : A -> M B) :
  respects keeps_profiles m -> (forall a, respects keeps_profiles (k a)) ->
  respects keeps_profiles (bind m k).
Proof. apply respects_bind. exact keeps_profiles_trans. Qed.

Lemma select_deleted uid rows :
  Sql.select_profile_by_user uid (Store.delete_by_user uid rows) = None.
Proof.
  unfold Sql.select_profile_by_user, Store.delete_by_user, Store.owned_by.
  induction rows as [|p rows IH]; [reflexivity|].
  cbn [filter]. destruct (telegram_user_id p =? uid) eqn:E; cbn [negb]; [exact IH|].
  cbn [find]. rewrite E. exact IH.
Qed.

Lemma save_web_json_result st :
  exists web r w,
    save_web_json st = (r, {| world := w; db := db st; calls := calls st ++ [SaveWebJson web r] |}).
Proof.
  unfold save_web_json, get_web_profiles, get_profiles, transport. unfold bind, ret.
  cbn [world db calls].
  match goal with |- context [sink_save_web_json ?web ?w] =>
    exists web; destruct (sink_save_web_json web w) as [r w'] end.
  exists r, w'. reflexivity.
Qed.

(** A reply and then the export: the only call logged, if any, is the
    export, and the database is not written. *)
Lemma notice_then_export n st :
  let res := (reply_notice n ;;; save_web_json) st in
  db (snd res) = db st /\
  (calls (snd res) = calls st \/
   exists web r, calls (snd res) = calls st ++ [SaveWebJson web r]).
Proof.
  intros res. subst res. pose proof (reply_notice_result n st) as Hn.
  destruct (fst (bot_reply_notice n (world st))) as [u|e].
  - rewrite (bind_ok _ _ _ _ _ Hn).
    destruct (save_web_json_result (in_world st (snd (bot_reply_notice n (world st)))))
      as (web & r & w & Hs).
    rewrite Hs. cbn [snd db calls in_world]. split; [reflexivity|]. right.
    exists web, r. reflexivity.
  - rewrite (bind_raise _ _ _ _ _ Hn). cbn [snd db calls in_world].
    split; [reflexivity | left; reflexivity].
Qed.

(** X21. After [cmd_borrarme] the sender has no profile, whatever the
    transport answers: the rows of the sender are gone from the table and
    the rows of the other users are all there, in their order. *)
Theorem cmd_borrarme_removes (msg : message) (st : state) :
  let res := cmd_borrarme msg st in
  profiles (db (snd res)) =
    filter (fun p => negb (telegram_user_id p =? user_id (from_user msg)))
           (profiles (db st)) /\
  fst (get_profile_by_user (user_id (from_user msg)) (snd res)) = Ok None.
Proof.
  intros res.
  assert (Hp : profiles (db (snd res)) =
               Store.delete_by_user (user_id (from_user msg)) (profiles (db st))).
  { subst res. unfold cmd_borrarme.
    rewrite (bind_ok _ _ _ _ _ (remove_profile_eq (user_id (from_user msg)) st)).
    destruct (Store.rowcount_by_user _ _ >? 0).
    - match goal with |- profiles (db (snd (?m ?s))) = _ =>
        assert (Hk : respects keeps_profiles m) end.
      { apply keeps_profiles_bind; [apply keeps_profiles_reply_notice|]. intros _.
        apply keeps_profiles_bind; [|intros _; apply keeps_profiles_save_web_json].
        destruct (_ && _);
          [apply keeps_profiles_update_pinned_directory | apply respects_ret].
        exact keeps_profiles_refl. }
      rewrite (Hk _). reflexivity.
    - rewrite (keeps_profiles_reply_notice NoticeNoProfile _). reflexivity. }
  split; [exact Hp|].
  unfold get_profile_by_user, bind, get_profiles, ret. cbn [fst]. rewrite Hp.
  rewrite select_deleted. reflexivity.
Qed.

(** X22. [cmd_borrarme] updates the pinned directory only in the
    configured chat.  When no chat is configured ([ALLOWED_CHAT_ID] is 0)
    or the command comes from another chat, the ledger is not written and
    no message is edited, sent or pinned: the only call in the log, if any,
    is the export. *)
Theorem cmd_borrarme_outside_chat (msg : message) (st : state) :
  ALLOWED_CHAT_ID = 0 \/ msg_chat_id msg <> ALLOWED_CHAT_ID ->
  let res := cmd_borrarme msg st in
  pinned_messages (db (snd res)) = pinned_messages (db st) /\
  (calls (snd res) = calls st \/
   exists web r, calls (snd res) = calls st ++ [SaveWebJson web r]).
Proof.
  intros Hchat res. subst res. unfold cmd_borrarme.
  rewrite (bind_ok _ _ _ _ _ (remove_profile_eq (user_id (from_user msg)) st)).
  replace (negb (ALLOWED_CHAT_ID =? 0) && (msg_chat_id msg =? ALLOWED_CHAT_ID)) with false.
  2:{ destruct Hchat as [-> | Hne]; [reflexivity|].
      replace (msg_chat_id msg =? ALLOWED_CHAT_ID) with false
        by (symmetry; apply Z.eqb_neq; exact Hne).
      symmetry. apply andb_false_r. }
  set (s1 := with_profiles st _).
  destruct (Store.rowcount_by_user _ _ >? 0).
  - assert (He : (reply_notice NoticeRemoved ;;; ret tt ;;; save_web_json) s1
                 = (reply_notice NoticeRemoved ;;; save_web_json) s1).
    { unfold bind. destruct (reply_notice NoticeRemoved s1) as [[u|e] s2]; reflexivity. }
    rewrite He. destruct (notice_then_export NoticeRemoved s1) as (Hdb & Hc).
    rewrite Hdb. split; [reflexivity | exact Hc].
  - rewrite reply_notice_result. cbn [snd in_world db calls].
    split; [reflexivity | left; reflexivity].
Qed.

(** The consent commands: [cmd_websi] with [true], [cmd_webno] with
    [false]. *)
Definition cmd_web (consent : bool) : message -> M unit :=
  if consent then cmd_websi else cmd_webno.

(** X23. [cmd_websi] and [cmd_webno] set the consent of the sender's
    profile and never touch the pinned directory: the ledger is not
    written and no message is edited, sent or pinned; the only call in the
    log, if any, is the export. *)
Theorem cmd_web_consent_only (consent : bool) (msg : message) (st : state) :
  let res := cmd_web consent msg st in
  profiles (db (snd res)) =
    Store.update_consent (if consent then 1 else 0) (user_id (from_user msg))
                         (profiles (db st)) /\
  pinned_messages (db (snd res)) = pinned_messages (db st) /\
  (calls (snd res) = calls st \/
   exists web r, calls (snd res) = calls st ++ [SaveWebJson web r]).
Proof.
  intros res. subst res.
  destruct consent; unfold cmd_web, cmd_websi, cmd_webno.
  all: rewrite (bind_ok _ _ _ _ _ (set_web_consent_eq (user_id (from_user msg)) _ st)).
  all: set (s1 := with_profiles st _).
  all: destruct (Store.rowcount_by_user _ _ >? 0).
  all: try (rewrite reply_notice_result; cbn [snd in_world db calls];
            repeat split; left; reflexivity).
  all: match goal with |- context [(reply_notice ?n ;;; save_web_json) ?s] =>
         destruct (notice_then_export n s) as (Hdb & Hc) end.
  all: rewrite Hdb; repeat split; exact Hc.
Qed.

(** X24. A user who is neither administrator nor creator cannot use
    [cmd_renombrar] or [cmd_directorio], provided the check and the notice
    go through: when [get_chat_member] answers with another status and the
    notice to the user is not refused with a [BadRequest], the database and
    the log of calls are the ones they were. *)
Theorem commands_refuse_non_admin (msg : message) (args : list str) (st : state)
    (status : str) :
  fst (bot_get_chat_member (msg_chat_id msg) (user_id (from_user msg)) (world st))
    = Ok status ->
  is_admin_status status = false ->
  (forall e,
     fst (bot_reply_notice NoticeOnlyAdmins
            (snd (bot_get_chat_member (msg_chat_id msg) (user_id (from_user msg)) (world st))))
     <> Raise (BadRequest e)) ->
  (db (snd (cmd_renombrar msg args st)) = db st /\
   calls (snd (cmd_renombrar msg args st)) = calls st) /\
  (db (snd (cmd_directorio msg st)) = db st /\
   calls (snd (cmd_directorio msg st)) = calls st).
Proof.
  intros Hs Ha Hn.
  assert (Hr : exists r w,
             refuse_non_admin (msg_chat_id msg) (user_id (from_user msg)) st
               = (r, in_world st w) /\
             (r = Ok true \/ exists e, r = Raise e)).
  { unfold refuse_non_admin, try_except_BadRequest, get_chat_member, reply_notice, unlogged.
    unfold bind, ret. cbn [world db calls].
    destruct (bot_get_chat_member (msg_chat_id msg) (user_id (from_user msg)) (world st))
      as [r0 w1]. cbn [fst snd] in *. subst r0. rewrite Ha. cbn [negb world db calls].
    destruct (bot_reply_notice NoticeOnlyAdmins w1) as [[u|e] w2]; cbn [fst] in Hn.
    - exists (Ok true), w2. split; [reflexivity | left; reflexivity].
    - destruct e as [m| | |]; [exfalso; apply (Hn m); reflexivity | | |];
        eexists _, w2; (split; [reflexivity | right; eexists; reflexivity]). }
  destruct Hr as (r & w & Hr & [-> | (e & ->)]).
  - unfold cmd_renombrar, cmd_directorio. rewrite !(bind_ok _ _ _ _ _ Hr).
    repeat split.
  - unfold cmd_renombrar, cmd_directorio. rewrite !(bind_raise _ _ _ _ _ Hr).
    repeat split.
Qed.

(** X25. The check of the administrator fails open.  When
    [get_chat_member] is refused with a [BadRequest], or when the user is
    no administrator but the notice to the user is refused with a
    [BadRequest], [cmd_directorio] goes on as for an administrator: it
    updates the pinned directory, exports and answers. *)
Theorem cmd_directorio_fails_open (msg : message) (st : state) :
  let chat_id := msg_chat_id msg in
  let member := bot_get_chat_member chat_id (user_id (from_user msg)) (world st) in
  (exists e, fst member = Raise (BadRequest e)) \/
  (exists status e,
     fst member = Ok status /\ is_admin_status status = false /\
     fst (bot_reply_notice NoticeOnlyAdmins (snd member)) = Raise (BadRequest e)) ->
  exists w,
    cmd_directorio msg st =
    (update_pinned_directory chat_id ;;; save_web_json ;;;
     reply_notice NoticeDirectoryUpdated) (in_world st w).
Proof.
  intros chat_id member H. subst chat_id member.
  assert (Hr : exists w,
             refuse_non_admin (msg_chat_id msg) (user_id (from_user msg)) st
               = (Ok false, in_world st w)).
  { unfold refuse_non_admin, try_except_BadRequest, get_chat_member, reply_notice, unlogged.
    unfold bind, ret. cbn [world db calls].
    destruct (bot_get_chat_member (msg_chat_id msg) (user_id (from_user msg)) (world st))
      as [r0 w1]. cbn [fst snd] in *.
    destruct H as [(e & ->) | (status & e & -> & Ha & Hn)].
    - exists w1. reflexivity.
    - rewrite Ha. cbn [negb world db calls].
      destruct (bot_reply_notice NoticeOnlyAdmins w1) as [r1 w2]. cbn [fst] in Hn. subst r1.
      exists w2. reflexivity. }
  destruct Hr as (w & Hr). exists w.
  unfold cmd_directorio. rewrite (bind_ok _ _ _ _ _ Hr). reflexivity.
Qed.

Lemma find_profile_in search_term rows prof :
  find_profile search_term rows = Some prof -> In prof rows.
Proof.
  unfold find_profile. destruct (startswith _ _); intros H; apply find_some in H; apply H.
Qed.

(** X26. [cmd_renombrar] writes nothing but one custom name: whatever
    the arguments and whatever the transport answers, the table of profiles
    afterwards is the one it was, or the one it was with the custom name of
    the rows that have the token of one of its profiles set or reset. *)
Theorem cmd_renombrar_writes_custom_name (msg : message) (args : list str) (st : state) :
  let rows := profiles (db st) in
  let rows' := profiles (db (snd (cmd_renombrar msg args st))) in
  rows' = rows \/
  exists prof name,
    In prof rows /\ rows' = Store.update_custom_name name (npub prof) rows.
Proof.
  intros rows rows'. subst rows rows'. unfold cmd_renombrar.
  destruct (refuse_non_admin_result (msg_chat_id msg) (user_id (from_user msg)) st)
    as (r & w & Hr & _).
  destruct r as [[|]|e].
  - rewrite (bind_ok _ _ _ _ _ Hr). left. reflexivity.
  - rewrite (bind_ok _ _ _ _ _ Hr). cbv iota.
    destruct args as [|a0 [|a1 rest]];
      try (left; apply (keeps_profiles_reply_notice NoticeRenameUsage (in_world st w))).
    rewrite (bind_ok _ _ (in_world st w)
               (Sql.select_profiles_ordered (profiles (db st))) (in_world st w))
      by reflexivity.
    destruct (find_profile a0 _) as [prof|] eqn:Ef;
      [|left; apply (keeps_profiles_reply_notice (NoticeNotFound a0) (in_world st w))].
    right. apply find_profile_in in Ef.
    apply (proj1 (in_select_profiles_ordered _ _)) in Ef.
    exists prof.
    rewrite bind_then_keeps.
    2:{ intros _. apply keeps_profiles_bind;
          [apply keeps_profiles_update_pinned_directory
          | intros _; apply keeps_profiles_save_web_json]. }
    destruct (PyStr.eqb _ RESET).
    + exists None. split; [exact Ef|].
      rewrite (bind_ok _ _ _ _ _ (set_custom_name_by_npub_eq (npub prof) None (in_world st w))).
      rewrite (keeps_profiles_reply_notice _ _). reflexivity.
    + eexists (Some _). split; [exact Ef|].
      rewrite (bind_ok _ _ _ _ _ (set_custom_name_by_npub_eq (npub prof) _ (in_world st w))).
      rewrite (keeps_profiles_reply_notice _ _). reflexivity.
  - rewrite (bind_raise _ _ _ _ _ Hr). left. reflexivity.
Qed.

End Bot.

Arguments world {World} s.
Arguments db {World} s.
Arguments calls {World} s.
Arguments mk_state {World} world db calls.

(** * The bot on the simulated chat *)

Definition sim_reconcile := reconcile Sim.chat Sim.time Sim.edit Sim.send Sim.pin 0.

Definition sim_build_directory_messages := build_directory_messages Sim.chat Sim.time.

Definition sim_update_pinned_directory :=
  update_pinned_directory Sim.chat Sim.time Sim.edit Sim.send Sim.pin 0.

Definition sim_handle_message :=
  handle_message Sim.chat Sim.time Sim.edit Sim.send Sim.pin Sim.reply Sim.sink
                 Sim.findall 0 0.

(** A group with one profile, an empty chat and an empty ledger. *)
Definition fresh_state : state Sim.chat :=
  {| world := {| Sim.time := sample_time; Sim.next_message_id := 10;
                 Sim.chat_messages := []; Sim.pinned := None |};
     db := {| profiles := [named_profile]; pinned_messages := [] |};
     calls := [] |}.

(** The same group after the directory has been pinned once. *)
Definition pinned_state : state Sim.chat :=
  Eval vm_compute in snd (sim_update_pinned_directory 1 fresh_state).

Definition directory_text : str :=
  Eval vm_compute in nth 0 (build_directory_messages_at sample_time [named_profile] 1) [].

Definition pinned_row : pinned_message :=
  Eval vm_compute in
    match Sql.select_current 1 (pinned_messages (db pinned_state)) with
    | Some r => r
    | None => mk_pinned 0 0 0 0 0 []
    end.


(** The pinned message has been deleted from the chat by hand; the ledger
    still refers to it. *)
Definition deleted_state : state Sim.chat :=
  {| world := {| Sim.time := sample_time; Sim.next_message_id := 11;
                 Sim.chat_messages := []; Sim.pinned := None |};
     db := db pinned_state;
     calls := [] |}.

(** The bot in a chat where it may not pin. *)
Definition sim_reconcile_no_pin :=
  reconcile Sim.chat Sim.time Sim.edit Sim.send Sim.pin_refused 0.

(** A transport on which every send, or every edit, times out. *)
Definition sim_send_timeout (chat_id : Z) (txt : str) (thread : option Z) (w : Sim.chat)
  : outcome Z * Sim.chat := (Raise TelegramError, w).

Definition sim_edit_timeout (chat_id msg_id : Z) (txt : str) (w : Sim.chat)
  : outcome unit * Sim.chat := (Raise TelegramError, w).

Definition first_text : str := Eval vm_compute in lit "first part".
Definition second_text : str := Eval vm_compute in lit "second part".
Definition third_text : str := Eval vm_compute in lit "third part".

Definition other_npub : str := Eval vm_compute in lit "npub1" ++ repeat 122 58.

(** The owner of [named_profile] sends another token. *)
Definition rebind_message : message :=
  {| msg_message_id := 42; msg_chat_id := 1; message_thread_id := None;
     text := Some other_npub;
     from_user := {| user_id := 7; username := Some (lit "satoshi");
                     first_name := lit "Satoshi"; last_name := Some (lit "N") |} |}.

(** The fresh group later in the same minute, and a minute later. *)
Definition fresh_state_later : state Sim.chat :=
  {| world := {| Sim.time := mk_datetime 2024 3 9 7 5 59 0; Sim.next_message_id := 10;
                 Sim.chat_messages := []; Sim.pinned := None |};
     db := {| profiles := [named_profile]; pinned_messages := [] |};
     calls := [] |}.

Definition fresh_state_next_minute : state Sim.chat :=
  {| world := {| Sim.time := mk_datetime 2024 3 9 7 6 0 0; Sim.next_message_id := 10;
                 Sim.chat_messages := []; Sim.pinned := None |};
     db := {| profiles := [named_profile]; pinned_messages := [] |};
     calls := [] |}.

Lemma one_current_pinned_state :
  one_current_per_chat (pinned_messages (db pinned_state)).
Proof.
  intros c. cbn [pinned_state db pinned_messages filter].
  destruct (current_for c _); simpl; lia.
Qed.

(** ** Concrete runs *)

Lemma reconcile_unchanged_is_noop_witness :
  edit_done (fst (Sim.edit 1 (message_id pinned_row) directory_text (world pinned_state))) /\
  (let res := sim_reconcile 1 1 [directory_text] (Some pinned_row) pinned_state in
   fst res = Ok tt /\
   count_sends (calls (snd res)) = count_sends (calls pinned_state) /\
   count_pins (calls (snd res)) = count_pins (calls pinned_state)).
Proof.
  assert (H : edit_done
                (fst (Sim.edit 1 (message_id pinned_row) directory_text (world pinned_state)))).
  { right. exists Sim.NOT_MODIFIED_ERROR. split; vm_compute; reflexivity. }
  split; [exact H|].
  exact (reconcile_unchanged_is_noop Sim.chat Sim.time Sim.edit Sim.send Sim.pin 0
           1 1 directory_text pinned_row pinned_state H).
Defined.

Lemma reconcile_edit_in_place_keeps_ledger_witness :
  edit_done (fst (Sim.edit 1 (message_id pinned_row) first_text (world pinned_state))) /\
  Sql.select_current 1 (pinned_messages (db pinned_state)) = Some pinned_row /\
  (let st' := snd (sim_reconcile 1 25 [first_text] (Some pinned_row) pinned_state) in
   db st' = db pinned_state /\
   Sql.select_current 1 (pinned_messages (db st')) = Some pinned_row).
Proof.
  assert (H : edit_done
                (fst (Sim.edit 1 (message_id pinned_row) first_text (world pinned_state)))).
  { left. vm_compute. reflexivity. }
  assert (Hc : Sql.select_current 1 (pinned_messages (db pinned_state)) = Some pinned_row).
  { vm_compute. reflexivity. }
  split; [exact H|]. split; [exact Hc|].
  exact (reconcile_edit_in_place_keeps_ledger Sim.chat Sim.time Sim.edit Sim.send Sim.pin 0
           1 25 first_text pinned_row pinned_state H Hc).
Defined.

(** C3, on the code.  The pinned message has been deleted, so the edit is
    refused with "Message to edit not found".  The code logs that it is
    creating a new message and then creates none: the edit is the only
    call, no message is sent or pinned, and the ledger still points at the
    deleted message. *)
Theorem update_pinned_directory_edit_refused_sends_nothing :
  let res := sim_update_pinned_directory 1 deleted_state in
  fst res = Ok tt /\
  calls (snd res) =
    [EditMessageText 1 10 directory_text (Raise (BadRequest Sim.NOT_FOUND_ERROR))] /\
  count_sends (calls (snd res)) = 0%nat /\
  count_pins (calls (snd res)) = 0%nat /\
  Sim.chat_messages (world (snd res)) = [] /\
  db (snd res) = db deleted_state /\
  Sql.select_current 1 (pinned_messages (db (snd res))) = Some pinned_row.
Proof. vm_compute. repeat split. Qed.

(** C4, as stated, fails in three ways.  When the pin is refused, the
    second message is sent as message 11 and the ledger is not written, so
    its current row still refers to message 10.  When the edit fails with
    an error that is no [BadRequest], that error is not swallowed: it ends
    the run, and nothing is sent.  When a send fails, nothing is pinned
    and the ledger is not written. *)
Theorem reconcile_failures_keep_old_current :
  (let res := sim_reconcile_no_pin 1 2 [first_text; second_text] (Some pinned_row)
                pinned_state in
   fst res = Ok tt /\
   calls (snd res) =
     calls pinned_state
     ++ [EditMessageText 1 10 first_text (Ok tt);
         SendMessage 1 second_text None (Ok 11);
         PinChatMessage 1 11 (Raise (BadRequest Sim.NO_RIGHTS_ERROR))] /\
   pinned_messages (db (snd res)) = pinned_messages (db pinned_state) /\
   (exists cur, Sql.select_current 1 (pinned_messages (db (snd res))) = Some cur /\
                message_id cur = 10 /\ message_id cur <> 11)) /\
  (let res := reconcile Sim.chat Sim.time sim_edit_timeout Sim.send Sim.pin 0
                1 2 [first_text; second_text] (Some pinned_row) pinned_state in
   fst res = Raise TelegramError /\
   calls (snd res) =
     calls pinned_state ++ [EditMessageText 1 10 first_text (Raise TelegramError)] /\
   db (snd res) = db pinned_state) /\
  (let res := reconcile Sim.chat Sim.time Sim.edit sim_send_timeout Sim.pin 0
                1 2 [first_text; second_text] (Some pinned_row) pinned_state in
   fst res = Raise TelegramError /\
   calls (snd res) =
     calls pinned_state
     ++ [EditMessageText 1 10 first_text (Ok tt);
         SendMessage 1 second_text None (Raise TelegramError)] /\
   db (snd res) = db pinned_state).
Proof.
  split; [|split].
  - vm_compute. repeat split. eexists. repeat split. discriminate.
  - vm_compute. repeat split.
  - vm_compute. repeat split.
Qed.

Lemma flags_ok_pinned_state : flags_ok (pinned_messages (db pinned_state)).
Proof. constructor; [right; reflexivity | constructor]. Qed.

Lemma reconcile_many_with_current_witness :
  flags_ok (pinned_messages (db pinned_state)) /\
  one_current_per_chat (pinned_messages (db pinned_state)) /\
  Sql.select_current 1 (pinned_messages (db pinned_state)) = Some pinned_row /\
  (let res := sim_reconcile 1 40 [first_text; second_text; third_text] (Some pinned_row)
                pinned_state in
   exists (new_row : pinned_message) (before after : list pinned_message),
     fst res = Ok tt /\
     calls (snd res) =
       calls pinned_state
       ++ [EditMessageText 1 10 first_text (Ok tt);
           SendMessage 1 second_text None (Ok 11);
           SendMessage 1 third_text None (Ok 12);
           PinChatMessage 1 12 (Ok tt)] /\
     Sql.select_current 1 (pinned_messages (db (snd res))) = Some new_row /\
     message_id new_row = 12 /\
     profile_count new_row = 40 /\
     pinned_messages (db pinned_state) = before ++ pinned_row :: after /\
     pinned_messages (db (snd res)) =
       before ++ Sql.set_not_current pinned_row :: after ++ [new_row]).
Proof.
  assert (Hcur : Sql.select_current 1 (pinned_messages (db pinned_state)) = Some pinned_row)
    by (vm_compute; reflexivity).
  split; [exact flags_ok_pinned_state|].
  split; [exact one_current_pinned_state|].
  split; [exact Hcur|].
  assert (Hcalls :
    calls (snd (sim_reconcile 1 40 [first_text; second_text; third_text] (Some pinned_row)
                  pinned_state)) =
    calls pinned_state
    ++ [EditMessageText 1 10 first_text (Ok tt);
        SendMessage 1 second_text None (Ok 11);
        SendMessage 1 third_text None (Ok 12);
        PinChatMessage 1 12 (Ok tt)]) by (vm_compute; reflexivity).
  destruct (reconcile_many_with_current Sim.chat Sim.time Sim.edit Sim.send Sim.pin 0
              1 40 first_text second_text [third_text] pinned_row pinned_state)
    as [(e & He & _) | (_ & ids & [(_ & e & Hr & _) | (Hlen & pin & Hc & Hpin)])].
  - vm_compute in He. discriminate He.
  - vm_compute in Hr. discriminate Hr.
  - destruct ids as [|a [|b [|c ids]]]; try discriminate Hlen.
    fold sim_reconcile in Hc, Hpin. rewrite Hcalls in Hc.
    apply app_inv_head in Hc. vm_compute in Hc.
    injection Hc as Ha Hb Hp. subst a b pin.
    destruct Hpin as (Hr & _ & new_row & _ & Hsel & _ & Hm & Hn & _ & Hex).
    destruct (Hex flags_ok_pinned_state one_current_pinned_state Hcur)
      as (before & after & Hrows & Hnew).
    exists new_row, before, after.
    split; [exact Hr|]. split; [exact Hcalls|]. split; [exact Hsel|].
    split; [exact Hm|]. split; [exact Hn|]. split; [exact Hrows | exact Hnew].
Defined.

(** A profile an administrator has renamed with [/renombrar] to a name of
    3900 letters. *)
Definition long_named_profile : profile :=
  mk_profile sample_npub 7 (Some (lit "satoshi")) (Some (lit "Satoshi N"))
             (lit "2024-03-09T07:05:01+00:00") 0 (Some (repeat 65 3900)).

(** C1, on the code: a line longer than a message is put in a message all
    the same.  The directory of the single profile [long_named_profile] is
    rendered as two messages, the second of which is 4112 characters long,
    above [MAX_MSG_LENGTH] and above Telegram's limit of 4096. *)
Theorem build_directory_messages_overflow :
  exists msgs,
    sim_build_directory_messages [long_named_profile] 1 fresh_state = (Ok msgs, fresh_state) /\
    map len msgs = [84; 4112] /\
    ~ Forall bounded msgs.
Proof.
  exists (build_directory_messages_at sample_time [long_named_profile] 1).
  split; [reflexivity|]. split; [vm_compute; reflexivity|].
  intros H.
  apply Forall_forall
    with (x := nth 1 (build_directory_messages_at sample_time [long_named_profile] 1) []) in H.
  - unfold bounded in H. apply Z.leb_le in H. vm_compute in H. discriminate.
  - vm_compute. right. left. reflexivity.
Qed.

(** C5, as stated, fails: the renderer reads the clock, so the same
    profiles and the same chat give different messages a minute later. *)
Lemma build_directory_messages_reads_clock :
  fst (sim_build_directory_messages [named_profile] 1 fresh_state) <>
  fst (sim_build_directory_messages [named_profile] 1 fresh_state_next_minute).
Proof.
  intros H.
  assert (E : match fst (sim_build_directory_messages [named_profile] 1 fresh_state),
                    fst (sim_build_directory_messages [named_profile] 1 fresh_state_next_minute)
              with
              | Ok a, Ok b => PyStr.eqb (nth 0 a []) (nth 0 b [])
              | _, _ => false
              end = true).
  { rewrite <- H. vm_compute. reflexivity. }
  vm_compute in E. discriminate.
Qed.

Lemma build_directory_messages_deterministic_witness :
  strftime_dmY_HM (Sim.time (world fresh_state))
    = strftime_dmY_HM (Sim.time (world fresh_state_later)) /\
  fst (sim_build_directory_messages [named_profile] 1 fresh_state)
    = fst (sim_build_directory_messages [named_profile] 2 fresh_state_later) /\
  snd (sim_build_directory_messages [named_profile] 1 fresh_state) = fresh_state.
Proof.
  assert (H : strftime_dmY_HM (Sim.time (world fresh_state))
              = strftime_dmY_HM (Sim.time (world fresh_state_later))) by reflexivity.
  split; [exact H|].
  exact (build_directory_messages_deterministic Sim.chat Sim.time [named_profile] 1 2
           fresh_state fresh_state_later H).
Defined.

Lemma ledger_invariant_witness :
  one_current_per_chat (pinned_messages (db pinned_state)) /\
  (let st' := snd (sim_update_pinned_directory 1 pinned_state) in
   one_current_per_chat (pinned_messages (db st')) /\
   history (pinned_messages (db pinned_state)) (pinned_messages (db st'))) /\
  (let st' := snd (sim_handle_message (mk_update (Some rebind_message)) pinned_state) in
   one_current_per_chat (pinned_messages (db st')) /\
   history (pinned_messages (db pinned_state)) (pinned_messages (db st'))).
Proof.
  split; [exact one_current_pinned_state|].
  pose proof (ledger_invariant Sim.chat Sim.time Sim.edit Sim.send Sim.pin Sim.reply
                Sim.sink Sim.findall 0 0 pinned_state one_current_pinned_state)
    as (_ & Hu & Hh).
  split; [exact (Hu 1) | exact (Hh (mk_update (Some rebind_message)))].
Defined.

Lemma handle_message_rebind_frame_witness :
  accepted 0 0 rebind_message /\
  Sim.findall (or_empty (text rebind_message)) = [other_npub] /\
  Sql.select_profile_by_user 7 (profiles (db pinned_state)) = Some named_profile /\
  npub named_profile <> lower other_npub /\
  (let st' := snd (sim_handle_message (mk_update (Some rebind_message)) pinned_state) in
   let updated := Sql.update_npub (lower other_npub) 7 (profiles (db pinned_state)) in
   profiles (db st') =
     match updated with
     | Some rows' => rows'
     | None => profiles (db pinned_state)
     end /\
   Forall2 (fun o n => same_but_npub o n /\
                       (telegram_user_id o <> 7 -> n = o) /\
                       (telegram_user_id o = 7 ->
                        match updated with
                        | Some _ => npub n = lower other_npub
                        | None => n = o
                        end))
           (profiles (db pinned_state)) (profiles (db st')) /\
   (store_ok (profiles (db pinned_state)) ->
    ~ In (lower other_npub) (map npub (profiles (db pinned_state))) ->
    updated <> None)).
Proof.
  assert (H1 : accepted 0 0 rebind_message).
  { repeat split; left; reflexivity. }
  assert (H2 : Sim.findall (or_empty (text rebind_message)) = [other_npub]).
  { vm_compute. reflexivity. }
  assert (H3 : Sql.select_profile_by_user 7 (profiles (db pinned_state)) = Some named_profile).
  { vm_compute. reflexivity. }
  assert (H4 : npub named_profile <> lower other_npub).
  { intros H. apply PyStr.eqb_eq in H. vm_compute in H. discriminate. }
  repeat (split; [assumption|]).
  exact (handle_message_rebind_frame Sim.chat Sim.time Sim.edit Sim.send Sim.pin Sim.reply
           Sim.sink Sim.findall 0 0 (mk_update (Some rebind_message)) rebind_message
           other_npub [] named_profile pinned_state eq_refl H1 H2 H3 H4).
Defined.

(** After the rebind the profile has the new token and its custom name. *)
Example rebind_keeps_custom_name :
  map (fun p => (npub p, custom_name p))
      (profiles (db (snd (sim_handle_message (mk_update (Some rebind_message)) pinned_state))))
  = [(other_npub, Some (lit "El Jefe"))].
Proof. vm_compute. reflexivity. Qed.

(** * Further concrete runs *)

(** Answers of the membership check and of the notices used below. *)
Definition sim_member (status : str) (chat_id uid : Z) (w : Sim.chat)
  : outcome str * Sim.chat := (Ok status, w).

Definition sim_member_refused (chat_id uid : Z) (w : Sim.chat)
  : outcome str * Sim.chat := (Raise (BadRequest (lit "User not found")), w).

Definition sim_notice (n : notice) (w : Sim.chat) : outcome unit * Sim.chat := (Ok tt, w).

(** Two profiles with names of 1900 letters: each line fits in a message,
    the two together do not. *)
Definition wide_profile (uid : Z) (key : str) : profile :=
  mk_profile key uid None None (lit "2024-03-09T07:05:01+00:00") 0 (Some (repeat 66 1900)).

Definition wide_profiles : list profile :=
  [wide_profile 7 sample_npub; wide_profile 8 other_npub].

Lemma build_directory_messages_single_witness :
  fst (sim_build_directory_messages [named_profile] 1 fresh_state) = Ok [directory_text] /\
  exists m1 m2 more,
    fst (sim_build_directory_messages wide_profiles 1 fresh_state) = Ok (m1 :: m2 :: more).
Proof.
  split.
  - apply (proj1 (build_directory_messages_single Sim.chat Sim.time named_profile [] 1
                    fresh_state)).
    vm_compute. discriminate.
  - apply (proj2 (build_directory_messages_single Sim.chat Sim.time
                    (wide_profile 7 sample_npub) [wide_profile 8 other_npub] 1 fresh_state)).
    vm_compute. reflexivity.
Defined.

Lemma wide_profiles_fit :
  Forall (line_fits (len wide_profiles) (strftime_dmY_HM (Sim.time (world fresh_state))))
         (number_from 1 wide_profiles).
Proof. repeat constructor; vm_compute; discriminate. Qed.

Lemma build_directory_messages_within_limit_witness :
  Forall (line_fits (len wide_profiles) (strftime_dmY_HM (Sim.time (world fresh_state))))
         (number_from 1 wide_profiles) /\
  exists msgs,
    sim_build_directory_messages wide_profiles 1 fresh_state = (Ok msgs, fresh_state) /\
    Forall (fun m => len m <= MAX_MSG_LENGTH) msgs.
Proof.
  split; [exact wide_profiles_fit|].
  exact (build_directory_messages_within_limit Sim.chat Sim.time wide_profiles 1 fresh_state
           wide_profiles_fit).
Defined.

Lemma build_directory_messages_lines_witness :
  nth_error wide_profiles 1 = Some (wide_profile 8 other_npub) /\
  exists (groups : list (list str)) (index : str),
    sim_build_directory_messages wide_profiles 1 fresh_state =
      (Ok (render_groups
             (footer_template 2 (strftime_dmY_HM (Sim.time (world fresh_state)))) 0 groups),
       fresh_state) /\
    digits_value index = Some 2 /\
    hd_error index <> Some 48 /\
    nth_error (concat groups) 1 =
      Some (index ++ lit ". " ++ get_display_name (wide_profile 8 other_npub) ++ lit " → "
            ++ lit "<a href='" ++ lit "https://njump.me/" ++ other_npub ++ lit "'>"
            ++ prefix 16 other_npub ++ lit "..." ++ lit "</a>").
Proof.
  assert (H : nth_error wide_profiles 1 = Some (wide_profile 8 other_npub)) by reflexivity.
  split; [exact H|].
  destruct (build_directory_messages_lines Sim.chat Sim.time (wide_profile 7 sample_npub)
              [wide_profile 8 other_npub] 1 fresh_state) as (groups & Hm & _ & Hl).
  destruct (Hl 1%nat _ H) as (index & Hv & Hz & Hn).
  exists groups, index.
  split; [exact Hm|]. split; [exact Hv|]. split; [exact Hz | exact Hn].
Defined.

Lemma build_directory_messages_no_empty_message_witness :
  Forall (line_fits (len wide_profiles) (strftime_dmY_HM (Sim.time (world fresh_state))))
         (number_from 1 wide_profiles) /\
  exists groups : list (list str),
    Forall (fun g => g <> []) groups /\
    concat groups = number_from 1 wide_profiles /\
    sim_build_directory_messages wide_profiles 1 fresh_state =
      (Ok (render_groups
             (footer_template (len wide_profiles)
                (strftime_dmY_HM (Sim.time (world fresh_state))))
             0 groups),
       fresh_state).
Proof.
  split; [exact wide_profiles_fit|].
  exact (build_directory_messages_no_empty_message Sim.chat Sim.time
           (wide_profile 7 sample_npub) [wide_profile 8 other_npub] 1 fresh_state
           wide_profiles_fit).
Defined.

Lemma sim_sends_succeed : sends_succeed Sim.chat Sim.send.
Proof. intros c t th w. eexists. reflexivity. Qed.

Lemma sim_pins_succeed : pins_succeed Sim.chat Sim.pin.
Proof. intros c m w. reflexivity. Qed.

Lemma save_pinned_message_then_get_witness :
  2 <> 1 /\
  (let st' := snd (save_pinned_message Sim.chat Sim.time 1 11 3 pinned_state) in
   (exists row,
      fst (get_current_pinned Sim.chat 1 st') = Ok (Some row) /\
      pin_chat_id row = 1 /\ message_id row = 11 /\
      profile_count row = 3 /\ is_current row = 1) /\
   fst (get_current_pinned Sim.chat 2 st') = fst (get_current_pinned Sim.chat 2 pinned_state)).
Proof.
  assert (H : 2 <> 1) by lia.
  split; [exact H|].
  exact (save_pinned_message_then_get Sim.chat Sim.time 1 11 3 2 pinned_state H).
Defined.

Lemma reconcile_without_current_witness :
  sends_succeed Sim.chat Sim.send /\
  pins_succeed Sim.chat Sim.pin /\
  (let res := sim_reconcile 1 30 [first_text; second_text] None fresh_state in
   exists (ids : list Z) (new_row : pinned_message),
     List.length ids = List.length [first_text; second_text] /\
     fst res = Ok tt /\
     calls (snd res) =
       calls fresh_state ++ sent_calls 0 1 [first_text; second_text] ids
       ++ [PinChatMessage 1 (List.last ids 0) (Ok tt)] /\
     pinned_messages (db (snd res)) =
       Sql.supersede 1 (pinned_messages (db fresh_state)) ++ [new_row] /\
     pin_chat_id new_row = 1 /\ message_id new_row = List.last ids 0 /\
     profile_count new_row = 30 /\ is_current new_row = 1 /\
     Sql.select_current 1 (pinned_messages (db (snd res))) = Some new_row).
Proof.
  split; [exact sim_sends_succeed|]. split; [exact sim_pins_succeed|].
  exact (reconcile_without_current Sim.chat Sim.time Sim.edit Sim.send Sim.pin 0 1 30
           first_text [second_text] fresh_state sim_sends_succeed sim_pins_succeed).
Defined.

(** The bot in a chat where every send times out. *)
Definition sim_update_pinned_directory_timeout :=
  update_pinned_directory Sim.chat Sim.time Sim.edit sim_send_timeout Sim.pin 0.

Lemma update_pinned_directory_raises_witness :
  fst (sim_update_pinned_directory_timeout 1 fresh_state) = Raise TelegramError /\
  db (snd (sim_update_pinned_directory_timeout 1 fresh_state)) = db fresh_state /\
  exists pre c,
    calls (snd (sim_update_pinned_directory_timeout 1 fresh_state))
      = calls fresh_state ++ pre ++ [c] /\
    raised c = Some TelegramError.
Proof.
  assert (H : fst (sim_update_pinned_directory_timeout 1 fresh_state) = Raise TelegramError).
  { vm_compute. reflexivity. }
  split; [exact H|].
  exact (update_pinned_directory_raises Sim.chat Sim.time Sim.edit sim_send_timeout Sim.pin 0
           1 fresh_state TelegramError H).
Defined.

Lemma sim_edit_only_bad_requests :
  forall m txt w e, fst (Sim.edit 1 m txt w) = Raise e -> is_bad_request e = true.
Proof.
  intros m txt w e. unfold Sim.edit.
  destruct (Sim.lookup m (Sim.chat_messages w)) as [old|];
    [destruct (PyStr.eqb old txt)|]; cbn [fst]; intros H;
    try discriminate; injection H as <-; reflexivity.
Qed.

Lemma sim_pin_refused_only_bad_requests :
  forall m w e, fst (Sim.pin_refused 1 m w) = Raise e -> is_bad_request e = true.
Proof. intros m w e H. injection H as <-. reflexivity. Qed.

Lemma update_pinned_directory_completes_witness :
  sends_succeed Sim.chat Sim.send /\
  (forall m txt w e, fst (Sim.edit 1 m txt w) = Raise e -> is_bad_request e = true) /\
  (forall m w e, fst (Sim.pin_refused 1 m w) = Raise e -> is_bad_request e = true) /\
  fst (update_pinned_directory Sim.chat Sim.time Sim.edit Sim.send Sim.pin_refused 0
         1 deleted_state) = Ok tt.
Proof.
  split; [exact sim_sends_succeed|]. split; [exact sim_edit_only_bad_requests|].
  split; [exact sim_pin_refused_only_bad_requests|].
  exact (update_pinned_directory_completes Sim.chat Sim.time Sim.edit Sim.send
           Sim.pin_refused 0 1 deleted_state sim_sends_succeed sim_edit_only_bad_requests
           sim_pin_refused_only_bad_requests).
Defined.

Lemma reconcile_edit_error_propagates_witness :
  fst (sim_edit_timeout 1 (message_id pinned_row) first_text (world pinned_state))
    = Raise TelegramError /\
  is_bad_request TelegramError = false /\
  (let res := reconcile Sim.chat Sim.time sim_edit_timeout Sim.send Sim.pin 0 1 2
                [first_text; second_text] (Some pinned_row) pinned_state in
   fst res = Raise TelegramError /\
   db (snd res) = db pinned_state /\
   calls (snd res) =
     calls pinned_state
     ++ [EditMessageText 1 (message_id pinned_row) first_text (Raise TelegramError)]).
Proof.
  split; [reflexivity|]. split; [reflexivity|].
  exact (reconcile_edit_error_propagates Sim.chat Sim.time sim_edit_timeout Sim.send Sim.pin
           0 1 2 first_text [second_text] pinned_row pinned_state TelegramError
           eq_refl eq_refl).
Defined.

Lemma other_npub_is_free : ~ In other_npub (map npub (profiles (db pinned_state))).
Proof.
  intros [H | []]. apply PyStr.eqb_eq in H. vm_compute in H. discriminate.
Qed.

Lemma add_profile_then_lookup_witness :
  Sql.select_profile_by_user 8 (profiles (db pinned_state)) = None /\
  ~ In other_npub (map npub (profiles (db pinned_state))) /\
  7 <> 8 /\
  (let res := add_profile Sim.chat Sim.time other_npub 8 None (lit "Hal") pinned_state in
   fst res = Ok true /\
   fst (get_profile_by_user Sim.chat 8 (snd res)) =
     Ok (Some {| npub := other_npub; telegram_user_id := 8;
                 telegram_username := None; telegram_name := Some (lit "Hal");
                 added_at := isoformat (Sim.time (world pinned_state));
                 web_consent := 0; custom_name := None |}) /\
   fst (get_profile_by_user Sim.chat 7 (snd res))
     = fst (get_profile_by_user Sim.chat 7 pinned_state)).
Proof.
  assert (H1 : Sql.select_profile_by_user 8 (profiles (db pinned_state)) = None)
    by reflexivity.
  assert (H3 : 7 <> 8) by lia.
  split; [exact H1|]. split; [exact other_npub_is_free|]. split; [exact H3|].
  exact (add_profile_then_lookup Sim.chat Sim.time other_npub 8 7 None (lit "Hal")
           pinned_state H1 other_npub_is_free H3).
Defined.

(** [named_profile] after its owner has consented. *)
Definition consenting_profile : profile := Store.set_consent 1 named_profile.

Lemma set_web_consent_web_profiles_witness :
  fst (get_web_profiles Sim.chat pinned_state) = Ok [] /\
  fst (get_web_profiles Sim.chat (snd (set_web_consent Sim.chat 7 true pinned_state)))
    = Ok [consenting_profile] /\
  (In consenting_profile
      (profiles (db (snd (set_web_consent Sim.chat 7 true pinned_state)))) ->
   telegram_user_id consenting_profile = 7 ->
   (In consenting_profile [consenting_profile] <-> true = true)) /\
  (telegram_user_id consenting_profile <> 7 ->
   (In consenting_profile [consenting_profile] <-> In consenting_profile [])).
Proof.
  assert (H1 : fst (get_web_profiles Sim.chat pinned_state) = Ok []) by reflexivity.
  assert (H2 : fst (get_web_profiles Sim.chat
                      (snd (set_web_consent Sim.chat 7 true pinned_state)))
               = Ok [consenting_profile]) by reflexivity.
  split; [exact H1|]. split; [exact H2|].
  exact (set_web_consent_web_profiles Sim.chat 7 true pinned_state consenting_profile
           [] [consenting_profile] H1 H2).
Defined.

Lemma set_custom_name_by_npub_renames_witness :
  lit "Satoshi Nakamoto" <> [] /\
  (let res := set_custom_name_by_npub Sim.chat sample_npub (Some (lit "Satoshi Nakamoto"))
                pinned_state in
   fst res = Ok (existsb (fun p => PyStr.eqb (npub p) sample_npub)
                         (profiles (db pinned_state))) /\
   Forall2 (fun o n =>
              (npub o = sample_npub ->
               get_display_name n = lit "Satoshi Nakamoto" /\
               get_display_name_clean n = lit "Satoshi Nakamoto" /\
               npub n = npub o /\ telegram_user_id n = telegram_user_id o /\
               web_consent n = web_consent o /\ added_at n = added_at o) /\
              (npub o <> sample_npub -> n = o))
           (profiles (db pinned_state)) (profiles (db (snd res)))).
Proof.
  assert (H : lit "Satoshi Nakamoto" <> []) by (vm_compute; discriminate).
  split; [exact H|].
  exact (set_custom_name_by_npub_renames Sim.chat sample_npub (lit "Satoshi Nakamoto")
           pinned_state H).
Defined.

(** A user without a profile, and a message of that user with a token
    that is in no row. *)
Definition newcomer : user :=
  {| user_id := 8; username := None; first_name := lit "Hal"; last_name := None |}.

Definition fresh_message : message :=
  {| msg_message_id := 44; msg_chat_id := 1; message_thread_id := None;
     text := Some other_npub; from_user := newcomer |}.

Lemma accepted_any_chat (msg : message) : truthy (text msg) = true -> accepted 0 0 msg.
Proof. intros H. split; [exact H|]. split; left; reflexivity. Qed.

Lemma handle_message_ignores_witness :
  ignored Sim.findall 0 0 (mk_update None) /\
  sim_handle_message (mk_update None) pinned_state = (Ok tt, pinned_state).
Proof.
  assert (H : ignored Sim.findall 0 0 (mk_update None)) by exact I.
  split; [exact H|].
  exact (handle_message_ignores Sim.chat Sim.time Sim.edit Sim.send Sim.pin Sim.reply
           Sim.sink Sim.findall 0 0 (mk_update None) pinned_state H).
Defined.

Lemma store_ok_pinned_state : store_ok (profiles (db pinned_state)).
Proof. split; repeat constructor; intros []. Qed.

Lemma handle_message_keeps_store_witness :
  store_ok (profiles (db pinned_state)) /\
  store_ok (profiles (db (snd (sim_handle_message (mk_update (Some fresh_message))
                                 pinned_state)))).
Proof.
  split; [exact store_ok_pinned_state|].
  exact (handle_message_keeps_store Sim.chat Sim.time Sim.edit Sim.send Sim.pin Sim.reply
           Sim.sink Sim.findall 0 0 (mk_update (Some fresh_message)) pinned_state
           store_ok_pinned_state).
Defined.

Lemma other_npub_is_lower : lower other_npub = other_npub.
Proof. vm_compute. reflexivity. Qed.

Lemma handle_message_registers_witness :
  accepted 0 0 fresh_message /\
  Sim.findall (or_empty (text fresh_message)) = [other_npub] /\
  Sql.select_profile_by_user 8 (profiles (db pinned_state)) = None /\
  ~ In (lower other_npub) (map npub (profiles (db pinned_state))) /\
  (let st' := snd (sim_handle_message (mk_update (Some fresh_message)) pinned_state) in
   profiles (db st') =
     profiles (db pinned_state)
     ++ [{| npub := lower other_npub;
            telegram_user_id := 8;
            telegram_username := None;
            telegram_name := Some (full_name newcomer);
            added_at := isoformat (Sim.time (world pinned_state));
            web_consent := 0;
            custom_name := None |}] /\
   fst (get_web_profiles Sim.chat st') = fst (get_web_profiles Sim.chat pinned_state)).
Proof.
  assert (H1 : accepted 0 0 fresh_message) by (apply accepted_any_chat; reflexivity).
  assert (H2 : Sim.findall (or_empty (text fresh_message)) = [other_npub])
    by (vm_compute; reflexivity).
  assert (H3 : Sql.select_profile_by_user 8 (profiles (db pinned_state)) = None)
    by reflexivity.
  assert (H4 : ~ In (lower other_npub) (map npub (profiles (db pinned_state)))).
  { rewrite other_npub_is_lower. exact other_npub_is_free. }
  repeat (split; [assumption|]).
  exact (handle_message_registers Sim.chat Sim.time Sim.edit Sim.send Sim.pin Sim.reply
           Sim.sink Sim.findall 0 0 (mk_update (Some fresh_message)) fresh_message
           other_npub [] pinned_state eq_refl H1 H2 H3 H4).
Defined.

(** A token written with KELVIN SIGN (U+212A) for its first [k], as
    [NPUB_REGEX] finds it under [re.IGNORECASE], and the token it is in
    lower case, registered by user 7. *)
Definition kelvin_npub : str := Eval vm_compute in lit "npub1" ++ [8490] ++ repeat 57 57.

Definition k_npub : str := Eval vm_compute in lit "npub1k" ++ repeat 57 57.

Definition k_state : state Sim.chat :=
  {| world := world pinned_state;
     db := {| profiles := [mk_profile k_npub 7 (Some (lit "satoshi")) (Some (lit "Satoshi N"))
                                      (lit "2024-03-09T07:05:01+00:00") 0 None];
              pinned_messages := pinned_messages (db pinned_state) |};
     calls := [] |}.

Definition kelvin_message (u : user) : message :=
  {| msg_message_id := 45; msg_chat_id := 1; message_thread_id := None;
     text := Some kelvin_npub; from_user := u |}.

Lemma handle_message_known_token_witness :
  accepted 0 0 (kelvin_message newcomer) /\
  Sim.findall (or_empty (text (kelvin_message newcomer))) = [kelvin_npub] /\
  Sql.select_profile_by_user 8 (profiles (db k_state)) = None /\
  In (lower kelvin_npub) (map npub (profiles (db k_state))) /\
  (let res := sim_handle_message (mk_update (Some (kelvin_message newcomer))) k_state in
   db (snd res) = db k_state /\
   calls (snd res) = calls k_state ++ [ReplyText 45 ReplyNpubTaken (fst res)]).
Proof.
  assert (H1 : accepted 0 0 (kelvin_message newcomer))
    by (apply accepted_any_chat; reflexivity).
  assert (H2 : Sim.findall (or_empty (text (kelvin_message newcomer))) = [kelvin_npub])
    by (vm_compute; reflexivity).
  assert (H3 : Sql.select_profile_by_user 8 (profiles (db k_state)) = None)
    by reflexivity.
  assert (H4 : In (lower kelvin_npub) (map npub (profiles (db k_state)))).
  { left. vm_compute. reflexivity. }
  repeat (split; [assumption|]).
  exact (handle_message_known_token Sim.chat Sim.time Sim.edit Sim.send Sim.pin Sim.reply
           Sim.sink Sim.findall 0 0 (mk_update (Some (kelvin_message newcomer)))
           (kelvin_message newcomer) kelvin_npub [] ReplyNpubTaken k_state eq_refl H1 H2
           (or_introl (conj H3 (conj H4 eq_refl)))).
Defined.

(** The token with the KELVIN SIGN is the token with [k]: its owner is
    told that it is registered, and in a table without it a newcomer is
    registered under the token with [k].  LATIN CAPITAL LETTER I WITH DOT
    ABOVE is lowered to two code points. *)
Example handle_message_kelvin_sign :
  lower kelvin_npub = k_npub /\
  lower [304] = [105; 775] /\
  (let owner := {| user_id := 7; username := Some (lit "satoshi");
                   first_name := lit "Satoshi"; last_name := Some (lit "N") |} in
   let res := sim_handle_message (mk_update (Some (kelvin_message owner))) k_state in
   db (snd res) = db k_state /\
   calls (snd res) = [ReplyText 45 ReplyAlreadyRegistered (Ok tt)]) /\
  (let res := sim_handle_message (mk_update (Some (kelvin_message newcomer))) pinned_state in
   map npub (profiles (db (snd res))) = [sample_npub; k_npub]).
Proof. vm_compute. repeat split. Qed.

(** The commands on the simulated chat, with no chat configured. *)
Definition sim_cmd_borrarme :=
  cmd_borrarme Sim.chat Sim.time Sim.edit Sim.send Sim.pin Sim.sink 0 0 sim_notice.

Lemma cmd_borrarme_outside_chat_witness :
  (0 = 0 \/ msg_chat_id rebind_message <> 0) /\
  (let res := sim_cmd_borrarme rebind_message pinned_state in
   pinned_messages (db (snd res)) = pinned_messages (db pinned_state) /\
   (calls (snd res) = calls pinned_state \/
    exists web r, calls (snd res) = calls pinned_state ++ [SaveWebJson web r])).
Proof.
  assert (H : 0 = 0 \/ msg_chat_id rebind_message <> 0) by (left; reflexivity).
  split; [exact H|].
  exact (cmd_borrarme_outside_chat Sim.chat Sim.time Sim.edit Sim.send Sim.pin Sim.sink 0 0
           sim_notice rebind_message pinned_state H).
Defined.

Definition MEMBER : str := Eval vm_compute in lit "member".

Definition rename_args : list str := [lit "@satoshi"; lit "Big"; lit "Boss"].

Lemma commands_refuse_non_admin_witness :
  fst (sim_member MEMBER 1 7 (world pinned_state)) = Ok MEMBER /\
  is_admin_status MEMBER = false /\
  (forall e,
     fst (sim_notice NoticeOnlyAdmins (snd (sim_member MEMBER 1 7 (world pinned_state))))
     <> Raise (BadRequest e)) /\
  (db (snd (cmd_renombrar Sim.chat Sim.time Sim.edit Sim.send Sim.pin Sim.sink 0
              (sim_member MEMBER) sim_notice rebind_message rename_args pinned_state))
     = db pinned_state /\
   calls (snd (cmd_renombrar Sim.chat Sim.time Sim.edit Sim.send Sim.pin Sim.sink 0
                 (sim_member MEMBER) sim_notice rebind_message rename_args pinned_state))
     = calls pinned_state) /\
  (db (snd (cmd_directorio Sim.chat Sim.time Sim.edit Sim.send Sim.pin Sim.sink 0
              (sim_member MEMBER) sim_notice rebind_message pinned_state))
     = db pinned_state /\
   calls (snd (cmd_directorio Sim.chat Sim.time Sim.edit Sim.send Sim.pin Sim.sink 0
                 (sim_member MEMBER) sim_notice rebind_message pinned_state))
     = calls pinned_state).
Proof.
  assert (H1 : fst (sim_member MEMBER 1 7 (world pinned_state)) = Ok MEMBER) by reflexivity.
  assert (H2 : is_admin_status MEMBER = false) by reflexivity.
  assert (H3 : forall e,
             fst (sim_notice NoticeOnlyAdmins
                    (snd (sim_member MEMBER 1 7 (world pinned_state))))
             <> Raise (BadRequest e)) by (intros e; discriminate).
  split; [exact H1|]. split; [exact H2|]. split; [exact H3|].
  exact (commands_refuse_non_admin Sim.chat Sim.time Sim.edit Sim.send Sim.pin Sim.sink 0
           (sim_member MEMBER) sim_notice rebind_message rename_args pinned_state MEMBER
           H1 H2 H3).
Defined.

Lemma cmd_directorio_fails_open_witness :
  (exists e, fst (sim_member_refused 1 7 (world pinned_state)) = Raise (BadRequest e)) /\
  exists w,
    cmd_directorio Sim.chat Sim.time Sim.edit Sim.send Sim.pin Sim.sink 0
      sim_member_refused sim_notice rebind_message pinned_state =
    bind Sim.chat
      (update_pinned_directory Sim.chat Sim.time Sim.edit Sim.send Sim.pin 0 1)
      (fun _ => bind Sim.chat (save_web_json Sim.chat Sim.sink)
                  (fun _ => reply_notice Sim.chat sim_notice NoticeDirectoryUpdated))
      (in_world Sim.chat pinned_state w).
Proof.
  assert (H : exists e,
            fst (sim_member_refused 1 7 (world pinned_state)) = Raise (BadRequest e))
    by (eexists; reflexivity).
  split; [exact H|].
  exact (cmd_directorio_fails_open Sim.chat Sim.time Sim.edit Sim.send Sim.pin Sim.sink 0
           sim_member_refused sim_notice rebind_message pinned_state (or_introl H)).
Defined.

(** The renaming by an administrator, and its effect on the pinned
    message. *)
Example cmd_renombrar_by_admin :
  let res := cmd_renombrar Sim.chat Sim.time Sim.edit Sim.send Sim.pin Sim.sink 0
               (sim_member ADMINISTRATOR) sim_notice rebind_message rename_args
               pinned_state in
  map custom_name (profiles (db (snd res))) = [Some (lit "Big Boss")] /\
  count_sends (calls (snd res)) = count_sends (calls pinned_state) /\
  option_map (fun t => contains (lit "1. Big Boss") t)
             (Sim.lookup 10 (Sim.chat_messages (world (snd res)))) = Some true.
Proof. vm_compute. repeat split. Qed.
